(** * A shallow embedding of [src/web/gui.js]

    The file models the widget toolkit of [gui.js] over an explicit model of
    the host surface it is written against:

    - [Js]: the ECMAScript values the toolkit manipulates, with the
      built-ins it calls ([===], [String], [parseFloat], [JSON.stringify],
      [JSON.parse], [Object.entries]);
    - [Host]: the document (a store of nodes), the store of target objects,
      the stores of widget and panel instances, and a state-and-exception
      monad;
    - [Gui]: the functions and classes of [gui.js], in source order.

    Conventions of the model.  Numbers are exact decimals [m * 10^e] next to
    [NaN] and the two infinities: rounding to binary64 is not modelled and
    negative zero is identified with zero.  Strings are sequences of code
    units below 256.  Nodes store what is assigned to them after the string
    or boolean conversion of the property; the value sanitisation browsers
    apply to [<input>] elements is not modelled. *)

From Stdlib Require Import ZArith String Ascii DecimalString DecimalN.
From stdpp Require Import base option list gmap strings.

Open Scope string_scope.
Open Scope list_scope.
Open Scope nat_scope.

(** ** ECMAScript values *)

Module Js.

(** A number: [Dec m e] stands for [m * 10^e]. *)
Inductive number :=
| NaN
| Inf (negative : bool)
| Dec (m e : Z).

#[warnings="-register-all"]
Inductive value :=
| VUndefined
| VNull
| VBool (b : bool)
| VNumber (n : number)
| VString (s : string)
| VArray (ref : nat) (items : list value)
| VObject (ref : nat) (entries : list (string * value)).

Inductive error :=
| Error (message : string)
| TypeError (message : string)
| SyntaxError (message : string).

(** The double quote, for string constants that contain one. *)
Definition dq : string := String (ascii_of_nat 34) EmptyString.

(** *** Numbers *)

Fixpoint strip_zeros (fuel : nat) (m e : Z) : Z * Z :=
  match fuel with
  | O => (m, e)
  | S fuel' =>
      if (m mod 10 =? 0)%Z then strip_zeros fuel' (m / 10)%Z (e + 1)%Z
      else (m, e)
  end.

(** The representation with the shortest mantissa; zero is [(0, 0)]. *)
Definition normal (m e : Z) : Z * Z :=
  if (m =? 0)%Z then (0, 0)%Z
  else strip_zeros (Z.to_nat (Z.log2 (Z.abs m))) m e.

Definition mk_number (negative : bool) (m : N) (e : Z) : number :=
  let '(m', e') := normal (Z.of_N m) e in
  Dec (if negative then - m' else m')%Z e'.

(** Numeric equality of two decimals, whatever their representation. *)
Definition dec_eqb (m1 e1 m2 e2 : Z) : bool :=
  let d := Z.min e1 e2 in
  (m1 * 10 ^ (e1 - d) =? m2 * 10 ^ (e2 - d))%Z.

(** [x === y] on numbers: [NaN] differs from everything. *)
Definition number_eqb (x y : number) : bool :=
  match x, y with
  | Dec m1 e1, Dec m2 e2 => dec_eqb m1 e1 m2 e2
  | Inf a, Inf b => bool_decide (a = b)
  | _, _ => false
  end.

(** *** Characters and digits *)

Definition is_digit (c : ascii) : bool :=
  let n := nat_of_ascii c in (48 <=? n)%nat && (n <=? 57)%nat.

(** The longest prefix of digits, and what follows it. *)
Fixpoint span_digits (s : string) : string * string :=
  match s with
  | String c r =>
      if is_digit c then let '(ds, r') := span_digits r in (String c ds, r')
      else (EmptyString, s)
  | EmptyString => (EmptyString, EmptyString)
  end.

Definition digits_value (ds : string) : N :=
  match NilEmpty.uint_of_string ds with
  | Some u => N.of_uint u
  | None => 0%N
  end.

Definition digits_of (n : N) : string := NilEmpty.string_of_uint (N.to_uint n).

(** [StrWhiteSpaceChar]: white space and line terminators. *)
Definition is_str_white_space (c : ascii) : bool :=
  let n := nat_of_ascii c in
  (9 <=? n)%nat && (n <=? 13)%nat || (n =? 32)%nat || (n =? 160)%nat.

Fixpoint trim_start (s : string) : string :=
  match s with
  | String c r => if is_str_white_space c then trim_start r else s
  | EmptyString => EmptyString
  end.

Definition split_sign (s : string) : bool * string :=
  match s with
  | String "-" r => (true, r)
  | String "+" r => (false, r)
  | _ => (false, s)
  end.

(** The value of an [ExponentPart] at the head of [s], [0] if there is none. *)
Definition exponent_part (s : string) : Z :=
  match s with
  | String c r =>
      if bool_decide (c = "e"%char) || bool_decide (c = "E"%char) then
        let '(negative, r') := split_sign r in
        let '(ds, _) := span_digits r' in
        if bool_decide (ds = EmptyString) then 0%Z
        else if negative then (- Z.of_N (digits_value ds))%Z
             else Z.of_N (digits_value ds)
      else 0%Z
  | EmptyString => 0%Z
  end.

(** [parseFloat(string)]: the longest prefix of the trimmed string that is a
    [StrDecimalLiteral], [NaN] when there is none. *)
Definition parseFloat (s : string) : number :=
  let '(negative, u) := split_sign (trim_start s) in
  if String.prefix "Infinity" u then Inf negative
  else
    let '(ip, r1) := span_digits u in
    let '(fp, r2) :=
      match r1 with
      | String "." r => span_digits r
      | _ => (EmptyString, r1)
      end in
    if bool_decide (ip = EmptyString) && bool_decide (fp = EmptyString) then NaN
    else mk_number negative (digits_value (ip +:+ fp))
           (exponent_part r2 - Z.of_nat (String.length fp)).

Fixpoint zeros (n : nat) : string :=
  match n with
  | O => EmptyString
  | S n' => String "0" (zeros n')
  end.

Definition exponent_suffix (n : Z) : string :=
  "e" +:+ (if (0 <=? n - 1)%Z then "+" else "-") +:+ digits_of (Z.to_N (Z.abs (n - 1))).

(** [Number::toString(x)] in radix 10 for a positive mantissa [s] of [k]
    digits and the exponent [n] of the standard (the value is
    [s * 10^(n - k)]). *)
Definition positive_to_string (s : N) (e : Z) : string :=
  let ds := digits_of s in
  let k := Z.of_nat (String.length ds) in
  let n := (e + k)%Z in
  if (k <=? n)%Z && (n <=? 21)%Z then ds +:+ zeros (Z.to_nat (n - k))
  else if (0 <? n)%Z && (n <=? 21)%Z then
    String.substring 0 (Z.to_nat n) ds +:+ "." +:+
    String.substring (Z.to_nat n) (Z.to_nat (k - n)) ds
  else if (-6 <? n)%Z && (n <=? 0)%Z then
    "0." +:+ zeros (Z.to_nat (- n)) +:+ ds
  else if (k =? 1)%Z then ds +:+ exponent_suffix n
  else
    String.substring 0 1 ds +:+ "." +:+
    String.substring 1 (Z.to_nat (k - 1)) ds +:+ exponent_suffix n.

Definition number_to_string (x : number) : string :=
  match x with
  | NaN => "NaN"
  | Inf false => "Infinity"
  | Inf true => "-Infinity"
  | Dec m e =>
      let '(m', e') := normal m e in
      if (m' =? 0)%Z then "0"
      else if (m' <? 0)%Z then "-" +:+ positive_to_string (Z.to_N (- m')) e'
      else positive_to_string (Z.to_N m') e'
  end.

(** *** Conversions and equality *)

(** [ToBoolean]. *)
Definition ToBoolean (v : value) : bool :=
  match v with
  | VUndefined | VNull => false
  | VBool b => b
  | VNumber NaN => false
  | VNumber (Inf _) => true
  | VNumber (Dec m _) => negb (m =? 0)%Z
  | VString s => negb (bool_decide (s = EmptyString))
  | VArray _ _ | VObject _ _ => true
  end.

(** [ToString]; an array is joined with commas, [undefined] and [null]
    elements giving the empty string. *)
Fixpoint ToString (v : value) : string :=
  match v with
  | VUndefined => "undefined"
  | VNull => "null"
  | VBool true => "true"
  | VBool false => "false"
  | VNumber n => number_to_string n
  | VString s => s
  | VArray _ items =>
      String.concat ","
        (map (fun x => match x with
                       | VUndefined | VNull => EmptyString
                       | _ => ToString x
                       end) items)
  | VObject _ _ => "[object Object]"
  end.

(** [x === y]: primitives by value, arrays and objects by reference. *)
Definition strict_eq (x y : value) : bool :=
  match x, y with
  | VUndefined, VUndefined => true
  | VNull, VNull => true
  | VBool a, VBool b => bool_decide (a = b)
  | VNumber a, VNumber b => number_eqb a b
  | VString a, VString b => bool_decide (a = b)
  | VArray r _, VArray r' _ => bool_decide (r = r')
  | VObject r _, VObject r' _ => bool_decide (r = r')
  | _, _ => false
  end.

(** Structural equality: the same shape with equal primitives at the leaves,
    whatever the references are. *)
Fixpoint struct_eq (x y : value) : bool :=
  match x, y with
  | VArray _ xs, VArray _ ys =>
      (fix go (l1 l2 : list value) : bool :=
         match l1, l2 with
         | [], [] => true
         | a :: l1', b :: l2' => struct_eq a b && go l1' l2'
         | _, _ => false
         end) xs ys
  | VObject _ xs, VObject _ ys =>
      (fix go (l1 l2 : list (string * value)) : bool :=
         match l1, l2 with
         | [], [] => true
         | (k1, a) :: l1', (k2, b) :: l2' =>
             bool_decide (k1 = k2) && struct_eq a b && go l1' l2'
         | _, _ => false
         end) xs ys
  | VArray _ _, _ | VObject _ _, _ | _, VArray _ _ | _, VObject _ _ => false
  | _, _ => strict_eq x y
  end.

(** [Object.entries(o)], own enumerable properties in property order. *)
Definition Object_entries (o : value) : error + list (string * value) :=
  match o with
  | VUndefined | VNull =>
      inl (TypeError "Cannot convert undefined or null to object")
  | VObject _ entries => inr entries
  | VArray _ items =>
      inr (imap (fun i x => (digits_of (N.of_nat i), x)) items)
  | VString s =>
      inr (imap (fun i c => (digits_of (N.of_nat i), VString (String c EmptyString)))
             (list_ascii_of_string s))
  | VBool _ | VNumber _ => inr []
  end.

(** *** JSON.stringify *)

Definition hex_char (n : nat) : ascii :=
  if (n <? 10)%nat then ascii_of_nat (48 + n) else ascii_of_nat (87 + n).

(** The escape of one code unit inside a JSON string ([QuoteJSONString]). *)
Definition quote_char (c : ascii) : string :=
  let n := nat_of_ascii c in
  if (n =? 34)%nat then "\" +:+ dq
  else if (n =? 92)%nat then "\\"
  else if (n =? 8)%nat then "\b"
  else if (n =? 12)%nat then "\f"
  else if (n =? 10)%nat then "\n"
  else if (n =? 13)%nat then "\r"
  else if (n =? 9)%nat then "\t"
  else if (n <? 32)%nat then
    "\u00" +:+ String (hex_char (n / 16)) (String (hex_char (n mod 16)) EmptyString)
  else String c EmptyString.

Fixpoint quote_body (s : string) : string :=
  match s with
  | String c r => quote_char c +:+ quote_body r
  | EmptyString => EmptyString
  end.

Definition quote (s : string) : string := dq +:+ quote_body s +:+ dq.

(** [JSON.stringify(v)]; [None] is the [undefined] it returns for
    [undefined].  Inside an array [undefined] is written [null]; inside an
    object a property holding [undefined] is left out; numbers that are not
    finite are written [null]. *)
Fixpoint stringify (v : value) : option string :=
  match v with
  | VUndefined => None
  | VNull => Some "null"
  | VBool true => Some "true"
  | VBool false => Some "false"
  | VNumber (Dec m e) => Some (number_to_string (Dec m e))
  | VNumber _ => Some "null"
  | VString s => Some (quote s)
  | VArray _ items =>
      Some ("[" +:+
            String.concat "," (map (fun x => default "null" (stringify x)) items)
            +:+ "]")
  | VObject _ entries =>
      Some ("{" +:+
            String.concat ","
              (omap (fun kv => (fun t => quote kv.1 +:+ ":" +:+ t) <$> stringify kv.2)
                 entries)
            +:+ "}")
  end.

(** [JSON.stringify(v)] as the string a [DOMString] property receives. *)
Definition JSON_stringify (v : value) : value :=
  match stringify v with
  | Some s => VString s
  | None => VUndefined
  end.

(** *** JSON.parse *)

Definition is_json_ws (c : ascii) : bool :=
  let n := nat_of_ascii c in
  (n =? 32)%nat || (n =? 9)%nat || (n =? 10)%nat || (n =? 13)%nat.

Fixpoint skip_ws (s : string) : string :=
  match s with
  | String c r => if is_json_ws c then skip_ws r else s
  | EmptyString => EmptyString
  end.

Definition hex_value (c : ascii) : option nat :=
  let n := nat_of_ascii c in
  if (48 <=? n)%nat && (n <=? 57)%nat then Some (n - 48)
  else if (97 <=? n)%nat && (n <=? 102)%nat then Some (n - 87)
  else if (65 <=? n)%nat && (n <=? 70)%nat then Some (n - 55)
  else None.

Definition hex4 (a b c d : ascii) : option nat :=
  x ← hex_value a; y ← hex_value b; z ← hex_value c; t ← hex_value d;
  Some (((x * 16 + y) * 16 + z) * 16 + t).

Definition unescape (c : ascii) : option ascii :=
  let n := nat_of_ascii c in
  if (n =? 34)%nat || (n =? 92)%nat || (n =? 47)%nat then Some c
  else if bool_decide (c = "b"%char) then Some (ascii_of_nat 8)
  else if bool_decide (c = "f"%char) then Some (ascii_of_nat 12)
  else if bool_decide (c = "n"%char) then Some (ascii_of_nat 10)
  else if bool_decide (c = "r"%char) then Some (ascii_of_nat 13)
  else if bool_decide (c = "t"%char) then Some (ascii_of_nat 9)
  else None.

(** The characters of a JSON string after its opening quote, up to and
    including the closing one. *)
Fixpoint parse_string_body (s : string) : option (string * string) :=
  match s with
  | EmptyString => None
  | String c r =>
      if (nat_of_ascii c =? 34)%nat then Some (EmptyString, r)
      else if (nat_of_ascii c =? 92)%nat then
        match r with
        | String "u" (String a (String b (String c' (String d r')))) =>
            match hex4 a b c' d with
            | Some n =>
                if (n <? 256)%nat then
                  prod_map (String (ascii_of_nat n)) id <$> parse_string_body r'
                else None
            | None => None
            end
        | String e r' =>
            match unescape e with
            | Some ch => prod_map (String ch) id <$> parse_string_body r'
            | None => None
            end
        | EmptyString => None
        end
      else if (nat_of_ascii c <? 32)%nat then None
      else prod_map (String c) id <$> parse_string_body r
  end.

(** A JSON number: [-? int frac? exp?], no leading zero in [int]. *)
Definition parse_number (s : string) : option (number * string) :=
  let '(negative, u) :=
    match s with
    | String "-" r => (true, r)
    | _ => (false, s)
    end in
  let '(ip, r1) := span_digits u in
  if bool_decide (ip = EmptyString) then None
  else if String.prefix "0" ip && negb (bool_decide (ip = "0")) then None
  else
    fr ← match r1 with
         | String "." r =>
             let '(fp, r2) := span_digits r in
             if bool_decide (fp = EmptyString) then None else Some (fp, r2)
         | _ => Some (EmptyString, r1)
         end;
    ex ← match fr.2 with
         | String c r =>
             if bool_decide (c = "e"%char) || bool_decide (c = "E"%char) then
               let '(eneg, r') := split_sign r in
               let '(ds, r3) := span_digits r' in
               if bool_decide (ds = EmptyString) then None
               else Some (if eneg then (- Z.of_N (digits_value ds))%Z
                          else Z.of_N (digits_value ds), r3)
             else Some (0%Z, fr.2)
         | EmptyString => Some (0%Z, EmptyString)
         end;
    Some (mk_number negative (digits_value (ip +:+ fr.1))
            (ex.1 - Z.of_nat (String.length fr.1)), ex.2).

(** An object built in textual order; a repeated key keeps its place and
    takes the last value. *)
Fixpoint define_property (k : string) (v : value) (entries : list (string * value))
  : list (string * value) :=
  match entries with
  | [] => [(k, v)]
  | (k', v') :: rest =>
      if bool_decide (k = k') then (k, v) :: rest
      else (k', v') :: define_property k v rest
  end.

Fixpoint parse_value (fuel : nat) (s : string) : option (value * string) :=
  match fuel with
  | O => None
  | S fuel' =>
      match skip_ws s with
      | EmptyString => None
      | String c r as t =>
          if bool_decide (c = "["%char) then
            match skip_ws r with
            | String "]" r' => Some (VArray 0 [], r')
            | _ => parse_elements fuel' r []
            end
          else if bool_decide (c = "{"%char) then
            match skip_ws r with
            | String "}" r' => Some (VObject 0 [], r')
            | _ => parse_members fuel' r []
            end
          else if (nat_of_ascii c =? 34)%nat then
            prod_map VString id <$> parse_string_body r
          else if String.prefix "null" t then Some (VNull, String.substring 4 (String.length t) t)
          else if String.prefix "true" t then Some (VBool true, String.substring 4 (String.length t) t)
          else if String.prefix "false" t then Some (VBool false, String.substring 5 (String.length t) t)
          else prod_map VNumber id <$> parse_number t
      end
  end
with parse_elements (fuel : nat) (s : string) (acc : list value)
  : option (value * string) :=
  match fuel with
  | O => None
  | S fuel' =>
      match parse_value fuel' s with
      | Some (v, r) =>
          match skip_ws r with
          | String "," r' => parse_elements fuel' r' (acc ++ [v])
          | String "]" r' => Some (VArray 0 (acc ++ [v]), r')
          | _ => None
          end
      | None => None
      end
  end
with parse_members (fuel : nat) (s : string) (acc : list (string * value))
  : option (value * string) :=
  match fuel with
  | O => None
  | S fuel' =>
      match skip_ws s with
      | String c r =>
          if (nat_of_ascii c =? 34)%nat then
            match parse_string_body r with
            | Some (k, r1) =>
                match skip_ws r1 with
                | String ":" r2 =>
                    match parse_value fuel' r2 with
                    | Some (v, r3) =>
                        match skip_ws r3 with
                        | String "," r4 => parse_members fuel' r4 (define_property k v acc)
                        | String "}" r4 => Some (VObject 0 (define_property k v acc), r4)
                        | _ => None
                        end
                    | None => None
                    end
                | _ => None
                end
            | None => None
            end
          else None
      | EmptyString => None
      end
  end.

(** [JSON.parse(text)]; every array and object of the result carries the
    reference [0], see [relabel]. *)
Definition JSON_parse (text : string) : error + value :=
  match parse_value (S (String.length text)) text with
  | Some (v, r) =>
      if bool_decide (skip_ws r = EmptyString) then inr v
      else inl (SyntaxError "Unexpected non-whitespace character after JSON")
  | None => inl (SyntaxError "Unexpected token in JSON")
  end.

(** Gives the arrays and objects of [v] the references [next], [next + 1],
    ... in the order they are met, and returns the first unused one. *)
Fixpoint relabel (v : value) (next : nat) : value * nat :=
  match v with
  | VArray _ items =>
      let '(items', next') :=
        (fix go (l : list value) (n : nat) : list value * nat :=
           match l with
           | [] => ([], n)
           | x :: l' =>
               let '(x', n1) := relabel x n in
               let '(l'', n2) := go l' n1 in (x' :: l'', n2)
           end) items (S next) in
      (VArray next items', next')
  | VObject _ entries =>
      let '(entries', next') :=
        (fix go (l : list (string * value)) (n : nat) : list (string * value) * nat :=
           match l with
           | [] => ([], n)
           | (k, x) :: l' =>
               let '(x', n1) := relabel x n in
               let '(l'', n2) := go l' n1 in ((k, x') :: l'', n2)
           end) entries (S next) in
      (VObject next entries', next')
  | _ => (v, next)
  end.

End Js.

(** ** The host: document, heap and control *)

Module Host.
Import Js.

(** A node of the document is named by its index in the store. *)
Abbreviation node := nat (only parsing).

(** A user function handed to [onInput] or [onChange]. *)
Abbreviation callback := nat (only parsing).

(** The closures [gui.js] registers as event listeners, with the variables
    they capture. *)
Inductive closure :=
| InputListener (this target : nat) (property : string)
| ChangeListener (this : nat)
| FocusListener (this : nat)
| BlurListener (this : nat).

Record element := Element {
  el_tag : string;
  el_parent : option node;
  el_children : list node;
  el_style : gmap string string;
  el_props : gmap string value;
  el_listeners : list (string * closure)
}.

(** The fields of a [Param] instance and of its subclasses. *)
Record param := Param {
  cls : string;
  box : node;
  label : node;
  valueContainer : node;
  input : node;
  valueSpan : option node;
  _onInput : option callback;
  _onChange : option callback
}.

(** The fields of a [Panel]; [title] and [details] are those of a [Folder]. *)
Record panel := Panel {
  _elt : node;
  folders : list nat;
  title : option string;
  details : option node
}.

(** What the trace records: hook calls, writes to a target, calls of user
    functions. *)
Inductive event :=
| CallSetup (this : nat) (initial : value) (args : list value)
| CallValue (this : nat)
| CallUpdate (this : nat) (v : value)
| SetProperty (target : nat) (property : string) (v : value)
| CallFunction (f : callback) (arg : value).

Record world := World {
  nodes : list element;
  objects : list (gmap string value);
  params : list param;
  panels : list panel;
  next_ref : nat;
  trace : list event;
  reported : list error
}.

(** [document.head] and [document.body]. *)
Definition head : node := 0.
Definition body : node := 1.

Definition blank (tag : string) : element :=
  Element tag None [] ∅ ∅ [].

Definition empty_document : list element := [blank "head"; blank "body"].

Definition initial_world (objs : list (gmap string value)) (next : nat) : world :=
  World empty_document objs [] [] next [] [].

(** *** Control: state and exceptions *)

Inductive result (A : Type) :=
| Ok (a : A)
| Throw (e : error).
Arguments Ok {A} a.
Arguments Throw {A} e.

Definition M (A : Type) : Type := world → result A * world.

Definition ret {A} (a : A) : M A := λ w, (Ok a, w).

Definition bind {A B} (c : M A) (k : A → M B) : M B :=
  λ w, match c w with
       | (Ok a, w') => k a w'
       | (Throw e, w') => (Throw e, w')
       end.

Definition throw {A} (e : error) : M A := λ w, (Throw e, w).

Definition gets {A} (f : world → A) : M A := λ w, (Ok (f w), w).

Definition modify (f : world → world) : M unit := λ w, (Ok tt, f w).

Notation "x <- c ;; k" := (bind c (λ x, k))
  (at level 100, c at next level, right associativity).
Notation "c ;;; k" := (bind c (λ _, k))
  (at level 100, right associativity).

Definition set_nodes (f : list element → list element) (w : world) : world :=
  World (f (nodes w)) (objects w) (params w) (panels w) (next_ref w) (trace w) (reported w).
Definition set_objects (f : list (gmap string value) → list (gmap string value))
    (w : world) : world :=
  World (nodes w) (f (objects w)) (params w) (panels w) (next_ref w) (trace w) (reported w).
Definition set_params (f : list param → list param) (w : world) : world :=
  World (nodes w) (objects w) (f (params w)) (panels w) (next_ref w) (trace w) (reported w).
Definition set_panels (f : list panel → list panel) (w : world) : world :=
  World (nodes w) (objects w) (params w) (f (panels w)) (next_ref w) (trace w) (reported w).
Definition set_next_ref (n : nat) (w : world) : world :=
  World (nodes w) (objects w) (params w) (panels w) n (trace w) (reported w).
Definition set_trace (f : list event → list event) (w : world) : world :=
  World (nodes w) (objects w) (params w) (panels w) (next_ref w) (f (trace w)) (reported w).
Definition set_reported (f : list error → list error) (w : world) : world :=
  World (nodes w) (objects w) (params w) (panels w) (next_ref w) (trace w) (f (reported w)).

Definition log (e : event) : M unit := modify (set_trace (λ t, t ++ [e])).

(** Dereferences a node; a name that denotes no node is the [undefined] a
    property access fails on. *)
Definition get_node (n : node) : M element :=
  λ w, match nodes w !! n with
       | Some e => (Ok e, w)
       | None => (Throw (TypeError "Cannot read properties of undefined"), w)
       end.

Definition put_node (n : node) (e : element) : M unit :=
  modify (set_nodes (λ ns, <[n := e]> ns)).

Definition with_parent (p : option node) (e : element) : element :=
  Element (el_tag e) p (el_children e) (el_style e) (el_props e) (el_listeners e).
Definition with_children (c : list node) (e : element) : element :=
  Element (el_tag e) (el_parent e) c (el_style e) (el_props e) (el_listeners e).
Definition with_style (s : gmap string string) (e : element) : element :=
  Element (el_tag e) (el_parent e) (el_children e) s (el_props e) (el_listeners e).
Definition with_props (p : gmap string value) (e : element) : element :=
  Element (el_tag e) (el_parent e) (el_children e) (el_style e) p (el_listeners e).
Definition with_listeners (l : list (string * closure)) (e : element) : element :=
  Element (el_tag e) (el_parent e) (el_children e) (el_style e) (el_props e) l.

(** *** The document *)

(** [document.createElement(tag)]: a fresh node, outside the tree. *)
Definition createElement (tag : string) : M node :=
  λ w, (Ok (length (nodes w)), set_nodes (λ ns, ns ++ [blank tag]) w).

Definition alter_node (f : element → element) (n : node) : M unit :=
  _ <- get_node n ;; modify (set_nodes (alter f n)).

(** [Object.assign(st, attrs)] on a style declaration. *)
Definition apply_style (st : gmap string string) (attrs : list (string * string))
  : gmap string string :=
  foldl (λ st kv, <[kv.1 := kv.2]> st) st attrs.

Definition restyle (attrs : list (string * string)) (e : element) : element :=
  with_style (apply_style (el_style e) attrs) e.

(** [Object.assign(n.style, attrs)]. *)
Definition assign_style (n : node) (attrs : list (string * string)) : M unit :=
  alter_node (restyle attrs) n.

Definition with_prop (key : string) (v : value) (e : element) : element :=
  with_props (<[key := v]> (el_props e)) e.

Definition is_selected (ns : list element) (o : node) : bool :=
  match ns !! o with
  | Some e =>
      match el_props e !! "selected" with
      | Some (VBool true) => true
      | _ => false
      end
  | None => false
  end.

Definition is_option (ns : list element) (o : node) : bool :=
  match ns !! o with
  | Some e => bool_decide (el_tag e = "option")
  | None => false
  end.

(** The list of options of a [<select>], in tree order. *)
Definition options_of (ns : list element) (sel : node) : list node :=
  match ns !! sel with
  | Some e => List.filter (is_option ns) (el_children e)
  | None => []
  end.

(** Makes [keep] the only selected option among [opts]. *)
Definition select_only (keep : node) (opts : list node) (ns : list element)
  : list element :=
  foldr (λ o acc, alter (with_prop "selected" (VBool (bool_decide (o = keep)))) o acc)
    ns opts.

(** The selectedness setting algorithm of a [<select>] that shows one
    option: with no option selected the first one becomes selected, with
    several the last one stays. *)
Definition reset_selectedness (sel : node) (ns : list element) : list element :=
  let opts := options_of ns sel in
  match List.filter (is_selected ns) opts with
  | [] =>
      match opts with
      | o :: _ => alter (with_prop "selected" (VBool true)) o ns
      | [] => ns
      end
  | chosen => select_only (List.last chosen 0) opts ns
  end.

Definition is_select (ns : list element) (n : node) : bool :=
  match ns !! n with
  | Some e => bool_decide (el_tag e = "select")
  | None => false
  end.

Definition add_child (c : node) (e : element) : element :=
  with_children (el_children e ++ [c]) e.

Definition remove_child (c : node) (e : element) : element :=
  with_children (List.filter (λ x, negb (Nat.eqb x c)) (el_children e)) e.

(** Removes [child] from the children of its parent, if it has one. *)
Definition detach (child : node) (ns : list element) : list element :=
  match ns !! child with
  | Some c =>
      match el_parent c with
      | Some p =>
          alter (with_parent None) child (alter (remove_child child) p ns)
      | None => ns
      end
  | None => ns
  end.

Definition moved (parent child : node) (ns : list element) : list element :=
  let ns1 := detach child ns in
  let ns2 := alter (add_child child) parent ns1 in
  let ns3 := alter (with_parent (Some parent)) child ns2 in
  if is_select ns3 parent then reset_selectedness parent ns3 else ns3.

(** [parent.appendChild(child)]: [child] becomes the last child of
    [parent], leaving its former parent.  The toolkit appends nodes to nodes
    created before them, so cycles are not looked for. *)
Definition appendChild (parent child : node) : M unit :=
  _ <- get_node parent ;;
  _ <- get_node child ;;
  modify (set_nodes (moved parent child)).

(** The value of an [<option>]: its [value] when it was given one, its text
    otherwise. *)
Definition option_value (e : element) : string :=
  match el_props e !! "value" with
  | Some v => ToString v
  | None =>
      match el_props e !! "text" with
      | Some v => ToString v
      | None => EmptyString
      end
  end.

Definition option_value_of (ns : list element) (o : node) : string :=
  match ns !! o with
  | Some e => option_value e
  | None => EmptyString
  end.

(** The [value] of a [<select>]: the value of its first selected option,
    the empty string when no option is selected. *)
Definition select_value (ns : list element) (sel : node) : string :=
  match List.filter (is_selected ns) (options_of ns sel) with
  | o :: _ => option_value_of ns o
  | [] => EmptyString
  end.

Definition is_string_property (key : string) : bool :=
  bool_decide (key ∈ ["type"; "min"; "max"; "step"; "value"; "text"]).

Definition is_boolean_property (key : string) : bool :=
  bool_decide (key ∈ ["checked"; "disabled"; "open"]).

(** What a property keeps of an assigned value: strings for [DOMString]
    properties ([null] is the empty string for the [value] of an
    [<input>]), booleans for boolean ones, the value itself otherwise. *)
Definition convert (tag key : string) (v : value) : value :=
  if is_string_property key then
    match v with
    | VNull =>
        if bool_decide (tag = "input") && bool_decide (key = "value")
        then VString EmptyString else VString "null"
    | _ => VString (ToString v)
    end
  else if is_boolean_property key then VBool (ToBoolean v)
  else v.

(** The text a nullable [DOMString] property keeps of [v]. *)
Definition text_of (v : value) : string :=
  match v with
  | VNull | VUndefined => EmptyString
  | _ => ToString v
  end.

Definition with_text (s : string) (e : element) : element :=
  with_children [] (with_prop "textContent" (VString s) e).

(** [n[key] = v].  Setting [textContent] replaces the children of the node
    by the text. *)
Definition set_property (n : node) (key : string) (v : value) : M unit :=
  e <- get_node n ;;
  if bool_decide (key = "textContent") then
    modify (set_nodes (λ ns,
      let ns1 := foldr (alter (with_parent None)) ns (el_children e) in
      alter (with_text (text_of v)) n ns1))
  else if bool_decide (key = "selected") then
    modify (set_nodes (λ ns,
      let ns1 := alter (with_prop "selected" (VBool (ToBoolean v))) n ns in
      match el_parent e with
      | Some p =>
          if is_select ns1 p then
            reset_selectedness p
              (if ToBoolean v then select_only n (options_of ns1 p) ns1 else ns1)
          else ns1
      | None => ns1
      end))
  else if bool_decide (el_tag e = "select") && bool_decide (key = "value") then
    modify (set_nodes (λ ns,
      let opts := options_of ns n in
      match List.filter (λ o, bool_decide (option_value_of ns o = ToString v)) opts with
      | o :: _ => select_only o opts ns
      | [] => foldr (alter (with_prop "selected" (VBool false))) ns opts
      end))
  else
    modify (set_nodes (alter (with_prop key (convert (el_tag e) key v)) n)).

Definition default_property (key : string) : value :=
  if is_boolean_property key || bool_decide (key = "selected") then VBool false
  else if is_string_property key || bool_decide (key = "textContent")
  then VString EmptyString
  else VUndefined.

(** [n[key]]. *)
Definition get_property (n : node) (key : string) : M value :=
  e <- get_node n ;;
  if bool_decide (key = "value") && bool_decide (el_tag e = "select") then
    gets (λ w, VString (select_value (nodes w) n))
  else if bool_decide (key = "value") && bool_decide (el_tag e = "option") then
    ret (VString (option_value e))
  else ret (default (default_property key) (el_props e !! key)).

(** [n.addEventListener(type, listener)]. *)
Definition add_listener (type : string) (c : closure) (e : element) : element :=
  with_listeners (el_listeners e ++ [(type, c)]) e.

Definition addEventListener (n : node) (type : string) (c : closure) : M unit :=
  alter_node (add_listener type c) n.

(** *** Target objects and instances *)

(** [target[property]]. *)
Definition get_target (target : nat) (property : string) : M value :=
  λ w, match objects w !! target with
       | Some o => (Ok (default VUndefined (o !! property)), w)
       | None => (Throw (TypeError "Cannot read properties of undefined"), w)
       end.

(** [target[property] = v]. *)
Definition set_target (target : nat) (property : string) (v : value) : M unit :=
  λ w, match objects w !! target with
       | Some o =>
           (Ok tt, set_trace (λ t, t ++ [SetProperty target property v])
                     (set_objects (λ os, <[target := <[property := v]> o]> os) w))
       | None => (Throw (TypeError "Cannot set properties of undefined"), w)
       end.

Definition get_param (this : nat) : M param :=
  λ w, match params w !! this with
       | Some p => (Ok p, w)
       | None => (Throw (TypeError "Cannot read properties of undefined"), w)
       end.

Definition get_panel (this : nat) : M panel :=
  λ w, match panels w !! this with
       | Some p => (Ok p, w)
       | None => (Throw (TypeError "Cannot read properties of undefined"), w)
       end.

(** A call of a user function; its effect is its entry in the trace. *)
Definition call_function (f : callback) (arg : value) : M unit :=
  log (CallFunction f arg).

(** A value read from JSON text, with references of its own. *)
Definition fresh (v : value) : M value :=
  λ w, let '(v', next) := relabel v (next_ref w) in (Ok v', set_next_ref next w).

End Host.

(** ** The toolkit *)

Module Gui.
Import Js Host.

Definition nl : string := String (ascii_of_nat 10) EmptyString.

(** [res.css(attrs)], the method [spawn] gives every node it creates. *)
Definition css (res : node) (attrs : list (string * string)) : M unit :=
  assign_style res attrs.

(** [spawn(tag, parent, style)], gui.js:12. *)
Definition spawn (tag : string) (parent : node)
    (style : option (list (string * string))) : M node :=
  res <- createElement tag ;;
  match style with
  | Some attrs => css res attrs
  | None => ret tt
  end ;;;
  appendChild parent res ;;;
  ret res.

(** *** Panel, GUI, Folder *)

(** [new Panel(parent, style)], gui.js:46. *)
Definition new_Panel (parent : node) (style : option (list (string * string)))
  : M nat :=
  elt <- spawn "div" parent style ;;
  λ w, (Ok (length (panels w)),
        set_panels (λ ps, ps ++ [Panel elt [] None None]) w).

Definition GUI_style : list (string * string) :=
  [("position", "absolute");
   ("top", "10px");
   ("left", "10px");
   ("zIndex", "1000");
   ("width", "320px");
   ("maxHeight", "90vh");
   ("padding", "20px");
   ("background", "linear-gradient(135deg, #667eea 0%, #764ba2 100%)");
   ("backdropFilter", "blur(10px)");
   ("border", "1px solid rgba(255, 255, 255, 0.2)");
   ("borderRadius", "15px");
   ("boxShadow", "0 8px 32px rgba(0, 0, 0, 0.3)");
   ("color", "#fff");
   ("fontFamily", dq +:+ "Segoe UI" +:+ dq +:+ ", Tahoma, Geneva, Verdana, sans-serif");
   ("fontSize", "14px");
   ("overflowY", "auto")].

(** [new GUI()], gui.js:95. *)
Definition new_GUI : M nat := new_Panel body (Some GUI_style).

Definition details_style : list (string * string) :=
  [("background", "linear-gradient(135deg, #ff6b6b 0%, #feca57 100%)");
   ("border", "1px solid rgba(255, 255, 255, 0.3)");
   ("borderRadius", "10px");
   ("marginBottom", "10px");
   ("padding", "10px");
   ("boxShadow", "0 4px 15px rgba(0, 0, 0, 0.2)");
   ("transition", "all 0.3s ease")].

Definition summary_style : list (string * string) :=
  [("cursor", "pointer");
   ("fontWeight", "bold");
   ("fontSize", "16px");
   ("color", "#fff");
   ("textShadow", "0 2px 4px rgba(0, 0, 0, 0.3)");
   ("padding", "5px 0")].

Definition alter_panel (f : panel → panel) (this : nat) : M unit :=
  _ <- get_panel this ;; modify (set_panels (alter f this)).

(** [new Folder(title, parent)], gui.js:141. *)
Definition new_Folder (name : string) (parent : node) : M nat :=
  this <- new_Panel parent (Some [("marginLeft", "10px")]) ;;
  d <- spawn "details" parent (Some details_style) ;;
  alter_panel (λ p, Panel (_elt p) (folders p) (title p) (Some d)) this ;;;
  set_property d "open" (VBool true) ;;;
  summary <- spawn "summary" d (Some summary_style) ;;
  set_property summary "textContent" (VString name) ;;;
  alter_panel (λ p, Panel (_elt p) (folders p) (Some name) (details p)) this ;;;
  p <- get_panel this ;;
  appendChild d (_elt p) ;;;
  ret this.

(** The private field [#details] of a folder. *)
Definition get_details (this : nat) : M node :=
  p <- get_panel this ;;
  match details p with
  | Some d => ret d
  | None => throw (TypeError "Cannot read private member #details")
  end.

(** [show()], [hide()], [open()], [close()], gui.js:167-170. *)
Definition Folder_show (this : nat) : M nat :=
  d <- get_details this ;; assign_style d [("display", EmptyString)] ;;; ret this.
Definition Folder_hide (this : nat) : M nat :=
  d <- get_details this ;; assign_style d [("display", "none")] ;;; ret this.
Definition Folder_open (this : nat) : M nat :=
  d <- get_details this ;; set_property d "open" (VBool true) ;;; ret this.
Definition Folder_close (this : nat) : M nat :=
  d <- get_details this ;; set_property d "open" (VBool false) ;;; ret this.

(** [addFolder(name)], gui.js:58. *)
Definition Panel_addFolder (this : nat) (name : string) : M nat :=
  p <- get_panel this ;;
  folder <- new_Folder name (_elt p) ;;
  alter_panel (λ p, Panel (_elt p) (folders p ++ [folder]) (title p) (details p)) this ;;;
  ret folder.

(** *** Param *)

Definition box_style : list (string * string) :=
  [("display", "flex");
   ("alignItems", "center");
   ("marginBottom", "8px");
   ("padding", "8px");
   ("background", "linear-gradient(135deg, rgba(255, 255, 255, 0.1) 0%, rgba(255, 255, 255, 0.05) 100%)");
   ("borderRadius", "8px");
   ("border", "1px solid rgba(255, 255, 255, 0.1)");
   ("transition", "all 0.3s ease")].

Definition label_style : list (string * string) :=
  [("flex", "1");
   ("marginRight", "10px");
   ("fontWeight", "500");
   ("color", "#fff");
   ("textShadow", "0 1px 2px rgba(0, 0, 0, 0.3)")].

Definition valueContainer_style : list (string * string) :=
  [("width", "130px");
   ("display", "flex");
   ("alignItems", "center")].

(** [new Param(parent)], gui.js:177, for an instance of the class named
    [c] whose [tag()] returns [tag]. *)
Definition new_Param (c tag : string) (parent : node) : M nat :=
  b <- spawn "div" parent (Some box_style) ;;
  l <- spawn "label" b (Some label_style) ;;
  vc <- spawn "div" b (Some valueContainer_style) ;;
  i <- spawn tag vc None ;;
  λ w, (Ok (length (params w)),
        set_params (λ ps, ps ++ [Param c b l vc i None None None]) w).

Definition alter_param (f : param → param) (this : nat) : M unit :=
  _ <- get_param this ;; modify (set_params (alter f this)).

(** [legend(name)], gui.js:205. *)
Definition Param_legend (this : nat) (name : value) : M nat :=
  p <- get_param this ;;
  set_property (label p) "textContent" name ;;;
  ret this.

(** [tag()], gui.js:208. *)
Definition Param_tag : string := "input".

(** *** InputParam *)

(** A class below [InputParam]: the methods it overrides.  [this] is the
    first argument of a method. *)
Record klass := Klass {
  tag_hook : option string;
  setup_hook : option (nat → value → list value → M unit);
  value_hook : option (nat → M value);
  update_hook : option (nat → value → M unit)
}.

(** [setup()], [value()] and [update()] of [InputParam] itself,
    gui.js:241-248. *)
Definition not_implemented (method : string) : error :=
  Error ("Method " +:+ dq +:+ method +:+ dq +:+ " must be implemented.").

Definition InputParam_setup : M unit := throw (not_implemented "setup()").
Definition InputParam_value : M value := throw (not_implemented "value()").
Definition InputParam_update : M unit := ret tt.

Section Dispatch.

(** The classes of the program, by name. *)
Variable ct : string → klass.

(** [this.tag()], [this.setup(...)], [this.value()], [this.update(v)]: the
    method of the class of [this], that of the base class when the class
    has none. *)
Definition call_tag (c : string) : string :=
  default Param_tag (tag_hook (ct c)).

Definition call_setup (this : nat) (initial : value) (args : list value) : M unit :=
  p <- get_param this ;;
  log (CallSetup this initial args) ;;;
  match setup_hook (ct (cls p)) with
  | Some f => f this initial args
  | None => InputParam_setup
  end.

Definition call_value (this : nat) : M value :=
  p <- get_param this ;;
  log (CallValue this) ;;;
  match value_hook (ct (cls p)) with
  | Some f => f this
  | None => InputParam_value
  end.

Definition call_update (this : nat) (v : value) : M unit :=
  p <- get_param this ;;
  log (CallUpdate this v) ;;;
  match update_hook (ct (cls p)) with
  | Some f => f this v
  | None => InputParam_update
  end.

(** The listener of the [input] event, gui.js:217. *)
Definition on_input (this target : nat) (property : string) : M unit :=
  v <- call_value this ;;
  call_update this v ;;;
  set_target target property v ;;;
  p <- get_param this ;;
  match _onInput p with
  | Some f => call_function f v
  | None => ret tt
  end.

(** The listener of the [change] event, gui.js:223. *)
Definition on_change (this : nat) : M unit :=
  p <- get_param this ;;
  match _onChange p with
  | Some f => v <- call_value this ;; call_function f v
  | None => ret tt
  end.

(** [new C(parent, target, property, ...args)] for a class [C] named [c]
    that inherits the constructor of [InputParam], gui.js:215. *)
Definition new_InputParam (c : string) (parent : node) (target : nat)
    (property : string) (args : list value) : M nat :=
  this <- new_Param c (call_tag c) parent ;;
  p <- get_param this ;;
  addEventListener (input p) "input" (InputListener this target property) ;;;
  addEventListener (input p) "change" (ChangeListener this) ;;;
  initial <- get_target target property ;;
  call_setup this initial args ;;;
  v <- call_value this ;;
  call_update this v ;;;
  ret this.

End Dispatch.

(** [Object.assign(n, fields)]. *)
Fixpoint Object_assign (n : node) (fields : list (string * value)) : M unit :=
  match fields with
  | [] => ret tt
  | (k, v) :: rest => set_property n k v ;;; Object_assign n rest
  end.

(** [setInput(fields)], gui.js:232. *)
Definition InputParam_setInput (this : nat) (fields : list (string * value)) : M unit :=
  p <- get_param this ;; Object_assign (input p) fields.

(** [readOnly()], [onChange(fun)], [onInput(fun)], gui.js:254-260. *)
Definition InputParam_readOnly (this : nat) : M nat :=
  p <- get_param this ;;
  set_property (input p) "disabled" (VBool true) ;;;
  ret this.

Definition with_onChange (f : callback) (p : param) : param :=
  Param (cls p) (box p) (label p) (valueContainer p) (input p) (valueSpan p)
    (_onInput p) (Some f).

Definition with_onInput (f : callback) (p : param) : param :=
  Param (cls p) (box p) (label p) (valueContainer p) (input p) (valueSpan p)
    (Some f) (_onChange p).

Definition InputParam_onChange (this : nat) (f : callback) : M nat :=
  alter_param (with_onChange f) this ;;; ret this.

Definition InputParam_onInput (this : nat) (f : callback) : M nat :=
  alter_param (with_onInput f) this ;;; ret this.

(** *** Boolean *)

Definition Boolean_style : list (string * string) :=
  [("width", "20px");
   ("height", "20px");
   ("accentColor", "#ff6b6b");
   ("cursor", "pointer");
   ("transform", "scale(1.2)")].

(** [setup(initial)], gui.js:264. *)
Definition Boolean_setup (this : nat) (initial : value) (_ : list value) : M unit :=
  p <- get_param this ;;
  css (input p) Boolean_style ;;;
  InputParam_setInput this [("type", VString "checkbox"); ("checked", initial)].

(** [value()], gui.js:274. *)
Definition Boolean_value (this : nat) : M value :=
  p <- get_param this ;; get_property (input p) "checked".

Definition Boolean : klass :=
  Klass None (Some Boolean_setup) (Some Boolean_value) None.

(** *** Range *)

Definition thumb_style : string :=
  String.concat nl
    [EmptyString;
     "            input[type=" +:+ dq +:+ "range" +:+ dq +:+ "]::-webkit-slider-thumb {";
     "                appearance: none;";
     "                width: 18px;";
     "                height: 18px;";
     "                background: linear-gradient(135deg, #ff6b6b 0%, #feca57 100%);";
     "                border-radius: 50%;";
     "                cursor: pointer;";
     "                box-shadow: 0 2px 6px rgba(0, 0, 0, 0.3);";
     "                transition: all 0.3s ease;";
     "            }";
     "            input[type=" +:+ dq +:+ "range" +:+ dq +:+ "]::-webkit-slider-thumb:hover {";
     "                transform: scale(1.2);";
     "                box-shadow: 0 4px 12px rgba(0, 0, 0, 0.4);";
     "            }";
     "            input[type=" +:+ dq +:+ "range" +:+ dq +:+ "]::-moz-range-thumb {";
     "                appearance: none;";
     "                width: 18px;";
     "                height: 18px;";
     "                background: linear-gradient(135deg, #ff6b6b 0%, #feca57 100%);";
     "                border-radius: 50%;";
     "                cursor: pointer;";
     "                border: none;";
     "                box-shadow: 0 2px 6px rgba(0, 0, 0, 0.3);";
     "                transition: all 0.3s ease;";
     "            }";
     "            input[type=" +:+ dq +:+ "range" +:+ dq +:+ "]::-moz-range-thumb:hover {";
     "                transform: scale(1.2);";
     "                box-shadow: 0 4px 12px rgba(0, 0, 0, 0.4);";
     "            }";
     "        "].

Definition Range_style : list (string * string) :=
  [("width", "100%");
   ("height", "6px");
   ("appearance", "none");
   ("background", "linear-gradient(90deg, #ff6b6b 0%, #feca57 50%, #48dbfb 100%)");
   ("borderRadius", "3px");
   ("outline", "none");
   ("cursor", "pointer");
   ("transition", "all 0.3s ease")].

Definition valueSpan_style : list (string * string) :=
  [("width", "45px");
   ("marginLeft", "8px");
   ("padding", "2px 6px");
   ("background", "linear-gradient(135deg, #ff9ff3 0%, #54a0ff 100%)");
   ("borderRadius", "12px");
   ("fontSize", "12px");
   ("fontWeight", "bold");
   ("textAlign", "center");
   ("color", "#fff");
   ("textShadow", "0 1px 2px rgba(0, 0, 0, 0.3)")].

Definition with_valueSpan (span : node) (p : param) : param :=
  Param (cls p) (box p) (label p) (valueContainer p) (input p) (Some span)
    (_onInput p) (_onChange p).

(** [setup(initial, min, max, step)], gui.js:278; a parameter without an
    argument is [undefined]. *)
Definition Range_setup (this : nat) (initial : value) (args : list value) : M unit :=
  let min := nth 0 args VUndefined in
  let max := nth 1 args VUndefined in
  let step := nth 2 args VUndefined in
  p <- get_param this ;;
  css (input p) Range_style ;;;
  InputParam_setInput this
    [("type", VString "range");
     ("min", min);
     ("max", max);
     ("step", step);
     ("value", initial)] ;;;
  span <- spawn "span" (valueContainer p) (Some valueSpan_style) ;;
  alter_param (with_valueSpan span) this ;;;
  style <- spawn "style" head None ;;
  set_property style "textContent" (VString thumb_style).

(** [update(value)], gui.js:344. *)
Definition Range_update (this : nat) (v : value) : M unit :=
  p <- get_param this ;;
  match valueSpan p with
  | Some span => set_property span "textContent" v
  | None => throw (TypeError "Cannot set properties of undefined")
  end.

(** [value()], gui.js:345. *)
Definition Range_value (this : nat) : M value :=
  p <- get_param this ;;
  s <- get_property (input p) "value" ;;
  ret (VNumber (parseFloat (ToString s))).

Definition Range : klass :=
  Klass None (Some Range_setup) (Some Range_value) (Some Range_update).

(** *** Select *)

Definition select_style : list (string * string) :=
  [("width", "100%");
   ("padding", "6px 10px");
   ("background", "linear-gradient(135deg, #667eea 0%, #764ba2 100%)");
   ("border", "1px solid rgba(255, 255, 255, 0.3)");
   ("borderRadius", "6px");
   ("color", "#fff");
   ("fontSize", "13px");
   ("cursor", "pointer");
   ("outline", "none")].

(** The body of the loop of [setup], gui.js:362-367. *)
Definition Select_add_option (sel : node) (initial : value) (key : string)
    (v : value) : M unit :=
  o <- spawn "option" sel None ;;
  set_property o "text" (VString key) ;;;
  set_property o "value" (JSON_stringify v) ;;;
  assign_style o [("background", "#764ba2")] ;;;
  assign_style o [("color", "#fff")] ;;;
  if strict_eq v initial then set_property o "selected" (VBool true) else ret tt.

Fixpoint Select_add_options (sel : node) (initial : value)
    (entries : list (string * value)) : M unit :=
  match entries with
  | [] => ret tt
  | (key, v) :: rest =>
      Select_add_option sel initial key v ;;;
      Select_add_options sel initial rest
  end.

(** [setup(initial, options)], gui.js:349. *)
Definition Select_setup (this : nat) (initial : value) (args : list value) : M unit :=
  let options := nth 0 args VUndefined in
  p <- get_param this ;;
  css (input p) select_style ;;;
  match Object_entries options with
  | inr entries => Select_add_options (input p) initial entries
  | inl e => throw e
  end.

(** [tag()], gui.js:371. *)
Definition Select_tag : string := "select".

(** [value()], gui.js:372. *)
Definition Select_value (this : nat) : M value :=
  p <- get_param this ;;
  s <- get_property (input p) "value" ;;
  match JSON_parse (ToString s) with
  | inr v => fresh v
  | inl e => throw e
  end.

Definition Select : klass :=
  Klass (Some Select_tag) (Some Select_setup) (Some Select_value) None.

(** *** Number *)

Definition number_style : list (string * string) :=
  [("width", "100%");
   ("padding", "6px 10px");
   ("background", "linear-gradient(135deg, rgba(255, 255, 255, 0.1) 0%, rgba(255, 255, 255, 0.05) 100%)");
   ("border", "1px solid rgba(255, 255, 255, 0.3)");
   ("borderRadius", "6px");
   ("color", "#fff");
   ("fontSize", "13px");
   ("outline", "none");
   ("transition", "all 0.3s ease")].

(** [setup(initial)], gui.js:376. *)
Definition Number_setup (this : nat) (initial : value) (_ : list value) : M unit :=
  p <- get_param this ;;
  css (input p) number_style ;;;
  InputParam_setInput this [("type", VString "number"); ("value", initial)] ;;;
  addEventListener (input p) "focus" (FocusListener this) ;;;
  addEventListener (input p) "blur" (BlurListener this).

(** The listeners of [focus] and [blur], gui.js:391 and gui.js:395. *)
Definition on_focus (this : nat) : M unit :=
  p <- get_param this ;;
  assign_style (input p) [("borderColor", "#ff6b6b")] ;;;
  assign_style (input p) [("boxShadow", "0 0 10px rgba(255, 107, 107, 0.5)")].

Definition on_blur (this : nat) : M unit :=
  p <- get_param this ;;
  assign_style (input p) [("borderColor", "rgba(255, 255, 255, 0.3)")] ;;;
  assign_style (input p) [("boxShadow", "none")].

(** [value()], gui.js:400. *)
Definition Number_value (this : nat) : M value :=
  p <- get_param this ;;
  s <- get_property (input p) "value" ;;
  ret (VNumber (parseFloat (ToString s))).

Definition Number : klass :=
  Klass None (Some Number_setup) (Some Number_value) None.

(** *** ReadOnly *)

(** [tag()], gui.js:409. *)
Definition ReadOnly_tag : string := "label".

Definition ReadOnly_style : list (string * string) :=
  [("padding", "6px 10px");
   ("background", "linear-gradient(135deg, #54a0ff 0%, #5f27cd 100%)");
   ("borderRadius", "6px");
   ("color", "#fff");
   ("fontWeight", "500");
   ("textShadow", "0 1px 2px rgba(0, 0, 0, 0.3)")].

(** [update(content)], gui.js:411. *)
Definition ReadOnly_update (this : nat) (content : value) : M unit :=
  p <- get_param this ;;
  set_property (input p) "textContent" content ;;;
  css (input p) ReadOnly_style.

(** [new ReadOnly(parent, content)], gui.js:404. *)
Definition new_ReadOnly (parent : node) (content : value) : M nat :=
  this <- new_Param "ReadOnly" ReadOnly_tag parent ;;
  ReadOnly_update this content ;;;
  ret this.

(** *** The classes of the program and the methods of Panel that build them *)

(** [InputParam] itself overrides nothing. *)
Definition InputParam : klass := Klass None None None None.

Definition classes (name : string) : klass :=
  if bool_decide (name = "Boolean") then Boolean
  else if bool_decide (name = "Range") then Range
  else if bool_decide (name = "Select") then Select
  else if bool_decide (name = "Number") then Number
  else InputParam.

(** [bool], [number], [range], [select], [readOnly], gui.js:67-85. *)
Definition Panel_bool (this target : nat) (property : string) : M nat :=
  p <- get_panel this ;;
  new_InputParam classes "Boolean" (_elt p) target property [].

Definition Panel_number (this target : nat) (property : string) : M nat :=
  p <- get_panel this ;;
  new_InputParam classes "Number" (_elt p) target property [].

Definition Panel_range (this target : nat) (property : string)
    (min max step : value) : M nat :=
  p <- get_panel this ;;
  new_InputParam classes "Range" (_elt p) target property [min; max; step].

Definition Panel_select (this target : nat) (property : string)
    (options : value) : M nat :=
  p <- get_panel this ;;
  new_InputParam classes "Select" (_elt p) target property [options].

Definition Panel_readOnly (this : nat) (content : value) : M nat :=
  p <- get_panel this ;;
  new_ReadOnly (_elt p) content.

(** *** Events *)

Section Events.

Variable ct : string → klass.

Definition run_closure (c : closure) : M unit :=
  match c with
  | InputListener this target property => on_input ct this target property
  | ChangeListener this => on_change ct this
  | FocusListener this => on_focus this
  | BlurListener this => on_blur this
  end.

(** An exception that leaves a listener is reported and the dispatch goes
    on. *)
Definition reporting (c : M unit) : M unit :=
  λ w, match c w with
       | (Ok _, w') => (Ok tt, w')
       | (Throw e, w') => (Ok tt, set_reported (λ r, r ++ [e]) w')
       end.

Fixpoint run_listeners (type : string) (ls : list (string * closure)) : M unit :=
  match ls with
  | [] => ret tt
  | (t, c) :: rest =>
      (if bool_decide (t = type) then reporting (run_closure c) else ret tt) ;;;
      run_listeners type rest
  end.

(** The host fires an event of the given type on a node: the listeners
    registered for it run in the order of their registration. *)
Definition dispatchEvent (n : node) (type : string) : M unit :=
  e <- get_node n ;; run_listeners type (el_listeners e).

End Events.

End Gui.

(** ** Vocabulary of the specification *)

Import Js Host Gui.

(** The value of a property of a node, with the default of the property. *)
Definition prop_of (e : element) (key : string) : value :=
  default (default_property key) (el_props e !! key).

(** The properties [set_property] stores without a side effect on other
    nodes. *)
Definition plain_key (tag key : string) : bool :=
  negb (bool_decide (key = "textContent")) && negb (bool_decide (key = "selected"))
  && negb (bool_decide (tag = "select") && bool_decide (key = "value")).

Definition style_of (style : option (list (string * string))) : gmap string string :=
  match style with
  | Some attrs => apply_style ∅ attrs
  | None => ∅
  end.

(** The node [spawn(tag, parent, style)] creates. *)
Definition spawned (tag : string) (parent : node)
    (style : option (list (string * string))) : element :=
  Element tag (Some parent) [] (style_of style) ∅ [].

(** A node of the document that is not a [<select>]. *)
Definition container (ns : list element) (n : node) : Prop :=
  ∃ e, ns !! n = Some e ∧ el_tag e ≠ "select".

(** The row of a [Param] created under [parent] when the document has [n]
    nodes: the box, the label, the value container with children [kids],
    the control [i]. *)
Definition row_nodes (parent n : nat) (kids : list node) (i : element) : list element :=
  [Element "div" (Some parent) [n + 1; n + 2] (style_of (Some box_style)) ∅ [];
   Element "label" (Some n) [] (style_of (Some label_style)) ∅ [];
   Element "div" (Some n) kids (style_of (Some valueContainer_style)) ∅ [];
   i].

(** The control of the widget [this]: a child of the value container with
    the listeners of [InputParam], then [more]. *)
Definition control (tag : string) (n this target : nat) (property : string)
    (style : gmap string string) (props : gmap string value)
    (more : list (string * closure)) : element :=
  Element tag (Some (n + 2)) [] style props
    ([("input", InputListener this target property); ("change", ChangeListener this)]
     ++ more).

(** The string the [value] of an [<input>] keeps of [v]. *)
Definition input_text (v : value) : string :=
  match v with
  | VNull => EmptyString
  | _ => ToString v
  end.

(** The listeners of a node for one type of event. *)
Definition listeners_for (type : string) (e : element) : list closure :=
  (List.filter (λ l : string * closure, bool_decide (l.1 = type)) (el_listeners e)).*2.

Fixpoint run_closures (ct : string → klass) (cs : list closure) : M unit :=
  match cs with
  | [] => ret tt
  | c :: rest => reporting (run_closure ct c) ;;; run_closures ct rest
  end.

(** The instance [this], with the fields [p], is a widget bound to
    [target[property]]: its control is in the document with the two
    listeners of [InputParam], the target exists, and a [Range] has its
    readout. *)
Definition wired (w : world) (this : nat) (p : param) (target : nat)
    (property : string) : Prop :=
  params w !! this = Some p ∧
  is_Some (objects w !! target) ∧
  (∃ ie, nodes w !! input p = Some ie ∧
         el_tag ie = call_tag classes (cls p) ∧
         listeners_for "input" ie = [InputListener this target property] ∧
         listeners_for "change" ie = [ChangeListener this]) ∧
  (cls p = "Range" →
   ∃ span se, valueSpan p = Some span ∧ span ≠ input p ∧
              nodes w !! span = Some se ∧ el_children se = []).

(** What the control of a widget shows, as the value of its kind: the state
    of the checkbox, the number written in the entry or given by the slider,
    the value encoded by the selected option. *)
Inductive shows (w : world) (p : param) : value → Prop :=
| shows_Boolean ie b :
    cls p = "Boolean" → nodes w !! input p = Some ie →
    prop_of ie "checked" = VBool b →
    shows w p (VBool b)
| shows_Number ie s :
    cls p = "Number" → nodes w !! input p = Some ie →
    prop_of ie "value" = VString s →
    shows w p (VNumber (parseFloat s))
| shows_Range ie s :
    cls p = "Range" → nodes w !! input p = Some ie →
    prop_of ie "value" = VString s →
    shows w p (VNumber (parseFloat s))
| shows_Select j :
    cls p = "Select" →
    JSON_parse (select_value (nodes w) (input p)) = inr j →
    shows w p (relabel j (next_ref w)).1.

(** The nodes after [update(v)] of the widget [p]: the readout of a [Range]
    shows [v]. *)
Definition updated (p : param) (v : value) (ns : list element) : list element :=
  if bool_decide (cls p = "Range") then
    match valueSpan p with
    | Some span => alter (with_text (text_of v)) span ns
    | None => ns
    end
  else ns.

(** The reference counter after [value()] of the widget [p] in [w]. *)
Definition next_after (w : world) (p : param) : nat :=
  if bool_decide (cls p = "Select") then
    match JSON_parse (select_value (nodes w) (input p)) with
    | inr j => (relabel j (next_ref w)).2
    | inl _ => next_ref w
    end
  else next_ref w.

(** The calls of user functions among events. *)
Definition calls (t : list event) : list (callback * value) :=
  omap (λ e, match e with CallFunction f v => Some (f, v) | _ => None end) t.

(** The controls of the widgets once constructed over the initial value
    [initial]. *)
Definition Boolean_control (n this target : nat) (property : string)
    (initial : value) : element :=
  control "input" n this target property (apply_style ∅ Boolean_style)
    (<["checked" := VBool (ToBoolean initial)]> (<["type" := VString "checkbox"]> ∅))
    [].

Definition Number_control (n this target : nat) (property : string)
    (initial : value) : element :=
  control "input" n this target property (apply_style ∅ number_style)
    (<["value" := VString (input_text initial)]> (<["type" := VString "number"]> ∅))
    [("focus", FocusListener this); ("blur", BlurListener this)].

Definition Range_control (n this target : nat) (property : string)
    (initial min max step : value) : element :=
  control "input" n this target property (apply_style ∅ Range_style)
    (<["value" := VString (input_text initial)]>
       (<["step" := VString (ToString step)]>
          (<["max" := VString (ToString max)]>
             (<["min" := VString (ToString min)]>
                (<["type" := VString "range"]> ∅)))))
    [].

(** The readout of a [Range] showing [v], and the style node of its
    thumb. *)
Definition Range_span (n : nat) (v : value) : element :=
  Element "span" (Some (n + 2)) [] (style_of (Some valueSpan_style))
    (<["textContent" := VString (text_of v)]> ∅) [].

Definition thumb_node : element :=
  Element "style" (Some head) [] ∅ (<["textContent" := VString thumb_style]> ∅) [].

(** The classes of widgets bound to a target. *)
Definition bindable (c : string) : Prop :=
  c ∈ ["Boolean"; "Number"; "Range"; "Select"].

(** A string [parseFloat] cannot read a number from: after the white space
    it does not start like a decimal literal. *)
Definition starts_number (s : string) : bool :=
  match trim_start s with
  | String c _ =>
      is_digit c || bool_decide (c ∈ ["+"; "-"; "."; "I"]%char)
  | EmptyString => false
  end.

(** What a call of the live or commit callback adds to the trace. *)
Definition callback_call (f : option callback) (v : value) : list event :=
  match f with
  | Some g => [CallFunction g v]
  | None => []
  end.

(** The style nodes that hold the rule of the slider thumb, among the
    children of [document.head]. *)
Definition is_thumb_rule (ns : list element) (c : node) : bool :=
  match ns !! c with
  | Some e =>
      bool_decide (el_tag e = "style") &&
      match el_props e !! "textContent" with
      | Some (VString s) => bool_decide (s = thumb_style)
      | _ => false
      end
  | None => false
  end.

Definition thumb_rules (w : world) : list node :=
  match nodes w !! head with
  | Some he => List.filter (is_thumb_rule (nodes w)) (el_children he)
  | None => []
  end.

(** [document.head] is a node whose children are nodes. *)
Definition head_ok (w : world) : Prop :=
  ∃ he, nodes w !! head = Some he ∧ el_tag he ≠ "select" ∧
        Forall (λ c, c < length (nodes w)) (el_children he).

(** The construction of a [Range] for each request: a parent, a target, a
    property and the arguments min, max, step. *)
Fixpoint new_Ranges (requests : list (node * nat * string * list value))
  : M (list nat) :=
  match requests with
  | [] => ret []
  | (parent, target, property, args) :: rest =>
      this <- new_InputParam classes "Range" parent target property args ;;
      others <- new_Ranges rest ;;
      ret (this :: others)
  end.

(** *** The state of a folder *)

(** A [<details>] element is expanded when [open] is set, and visible unless
    its style has [display: none]. *)
Definition expanded (e : element) : bool :=
  match el_props e !! "open" with
  | Some (VBool true) => true
  | _ => false
  end.

Definition visible (e : element) : bool :=
  negb (bool_decide (default EmptyString (el_style e !! "display") = "none")).

Definition flags (e : element) : bool * bool := (expanded e, visible e).

(** The pair (expanded, visible) of the folder [f]. *)
Definition folder_state (w : world) (f : nat) : option (bool * bool) :=
  p ← panels w !! f; d ← details p; e ← nodes w !! d; Some (flags e).

(** The calls a program and its user can make besides the four methods of
    [Folder]: the constructors reached through a panel, the methods of the
    widgets, the edits of the user in a control and the events the host
    fires. *)
Inductive call :=
| NewGUI
| AddFolder (this : nat) (name : string)
| AddBool (this target : nat) (property : string)
| AddNumber (this target : nat) (property : string)
| AddRange (this target : nat) (property : string) (min max step : value)
| AddSelect (this target : nat) (property : string) (options : value)
| AddReadOnly (this : nat) (content : value)
| Legend (this : nat) (name : value)
| MakeReadOnly (this : nat)
| OnChange (this : nat) (f : callback)
| OnInput (this : nat) (f : callback)
| Update (this : nat) (content : value)
| UserTypes (n : node) (text : string)
| UserChecks (n : node) (b : bool)
| UserPicks (option : node)
| Fire (n : node) (type : string).

Definition run_call (c : call) : M unit :=
  match c with
  | NewGUI => new_GUI ;;; ret tt
  | AddFolder this name => Panel_addFolder this name ;;; ret tt
  | AddBool this target property => Panel_bool this target property ;;; ret tt
  | AddNumber this target property => Panel_number this target property ;;; ret tt
  | AddRange this target property min max step =>
      Panel_range this target property min max step ;;; ret tt
  | AddSelect this target property options =>
      Panel_select this target property options ;;; ret tt
  | AddReadOnly this content => Panel_readOnly this content ;;; ret tt
  | Legend this name => Param_legend this name ;;; ret tt
  | MakeReadOnly this => InputParam_readOnly this ;;; ret tt
  | OnChange this f => InputParam_onChange this f ;;; ret tt
  | OnInput this f => InputParam_onInput this f ;;; ret tt
  | Update this content => ReadOnly_update this content
  | UserTypes n text => set_property n "value" (VString text)
  | UserChecks n b => set_property n "checked" (VBool b)
  | UserPicks o => set_property o "selected" (VBool true)
  | Fire n type => dispatchEvent classes n type
  end.

(** [w'] keeps the flags of the first [N] nodes of [w] and the [<details>]
    of its first [P] panels. *)
Definition nkeeps (N : nat) (ns ns' : list element) : Prop :=
  length ns ≤ length ns' ∧
  ∀ n e, n < N → ns !! n = Some e → ∃ e', ns' !! n = Some e' ∧ flags e' = flags e.

Definition keeps (N P : nat) (w w' : world) : Prop :=
  nkeeps N (nodes w) (nodes w') ∧
  length (panels w) ≤ length (panels w') ∧
  ∀ f p, f < P → panels w !! f = Some p →
         ∃ p', panels w' !! f = Some p' ∧ details p' = details p.

(** A computation that keeps them, whatever it returns, and returns only
    values that satisfy [Q]. *)
Definition pres {A} (N P : nat) (c : M A) (Q : A → Prop) : Prop :=
  ∀ w, N ≤ length (nodes w) → P ≤ length (panels w) →
       keeps N P w (c w).2 ∧ ∀ a, (c w).1 = Ok a → Q a.

Definition no_display (attrs : list (string * string)) : bool :=
  forallb (λ kv : string * string, negb (bool_decide (kv.1 = "display"))) attrs.

(** *** The options of a Select *)

(** The text stored in the [value] of the option of an entry. *)
Definition encoded (v : value) : string := ToString (JSON_stringify v).

(** The index of the option the loop of [Select.setup] leaves selected: the
    first one, then each option whose value is strictly equal to the initial
    value takes the selection. *)
Fixpoint chosen_from (initial : value) (c i : nat) (entries : list (string * value))
  : nat :=
  match entries with
  | [] => c
  | (_, v) :: rest =>
      chosen_from initial (if strict_eq v initial then i else c) (S i) rest
  end.

Definition chosen (initial : value) (entries : list (string * value)) : nat :=
  chosen_from initial 0 0 entries.

(** The state of a [<select>] whose options are the nodes [ids], with the
    encoded values [ss], the option of index [i] being selected when [f i]. *)
Definition sel_gen (ns : list element) (sel : node) (ls : list (string * closure))
    (ids : list node) (ss : list string) (f : nat → bool) : Prop :=
  (∃ se, ns !! sel = Some se ∧ el_tag se = "select" ∧ el_children se = ids ∧
         el_listeners se = ls) ∧
  NoDup ids ∧ (sel ∉ ids) ∧ Forall (λ o, o < length ns) ids ∧
  length ss = length ids ∧
  ∀ i o, ids !! i = Some o →
         ∃ oe s, ns !! o = Some oe ∧ ss !! i = Some s ∧ el_tag oe = "option" ∧
                 el_parent oe = Some sel ∧ option_value oe = s ∧
                 is_selected ns o = f i.

(** The same with exactly the option of index [ci] selected. *)
Definition sel_inv (ns : list element) (sel : node) (ls : list (string * closure))
    (ids : list node) (ss : list string) (ci : nat) : Prop :=
  sel_gen ns sel ls ids ss (λ i, bool_decide (i = ci)) ∧ ci ≤ pred (length ids).

(** A value that survives [JSON.stringify] followed by [JSON.parse]. *)
Definition json_faithful (v : value) : Prop :=
  ∃ j, JSON_parse (encoded v) = inr j ∧ struct_eq j v = true.

(** The option of index [i] of the Select [p] is the selected one, and no
    other is. *)
Definition preselected (w : world) (p : param) (i : nat) : Prop :=
  ∃ se, nodes w !! input p = Some se ∧ i < length (el_children se) ∧
        ∀ j o, el_children se !! j = Some o →
               is_selected (nodes w) o = bool_decide (j = i).

(** The options of the Select [p] are those of [entries], in their order,
    each with the encoded value of its entry. *)
Definition options_show (w : world) (p : param) (entries : list (string * value))
  : Prop :=
  ∃ se, nodes w !! input p = Some se ∧
        length (el_children se) = length entries ∧
        ∀ j o kv, el_children se !! j = Some o → entries !! j = Some kv →
                  option_value_of (nodes w) o = encoded kv.2.

(** The entry of index [i] is the last one whose value is strictly equal to
    [V]. *)
Definition last_match (entries : list (string * value)) (V : value) (i : nat)
    (v : value) : Prop :=
  (∃ k, entries !! i = Some (k, v)) ∧ strict_eq v V = true ∧
  ∀ j kv, i < j → entries !! j = Some kv → strict_eq kv.2 V = false.

(** The integer [z] as a value. *)
Definition num (z : Z) : value := VNumber (Dec z 0).



(** *** An example document *)

(** A target with a flag, a level, a mode and a size that is not a
    number. *)
Definition example_target : gmap string value :=
  {[ "on" := VBool true; "level" := num 3; "mode" := VString "x";
     "size" := VString "abc" ]}.

(** The empty document with this target. *)
Definition example_world : world := initial_world [example_target] 0.

(** The world a computation leaves. *)
Definition after {A} (c : M A) (w : world) : world := (c w).2.

(** * The proofs *)

(** ** Stepping through the control monad *)

Lemma bind_ok {A B} (c : M A) (k : A → M B) w a w' :
  c w = (Ok a, w') → bind c k w = k a w'.
Proof. intros H. unfold bind. by rewrite H. Qed.

Lemma bind_throw {A B} (c : M A) (k : A → M B) w e w' :
  c w = (Throw e, w') → bind c k w = (Throw e, w').
Proof. intros H. unfold bind. by rewrite H. Qed.

Lemma bind_assoc {A B C} (c : M A) (k1 : A → M B) (k2 : B → M C) w :
  bind (bind c k1) k2 w = bind c (λ x, bind (k1 x) k2) w.
Proof. unfold bind. by destruct (c w) as [[a|e] w']. Qed.

Lemma bind_ret {A B} (a : A) (k : A → M B) w : bind (ret a) k w = k a w.
Proof. reflexivity. Qed.

Lemma bind_log {B} (e : event) (k : unit → M B) ns os ps pls nr tr rp :
  bind (log e) k (World ns os ps pls nr tr rp) =
  k tt (World ns os ps pls nr (tr ++ [e]) rp).
Proof. reflexivity. Qed.

Ltac wsimpl :=
  unfold log;
  unfold modify, gets, ret, set_nodes, set_objects, set_params, set_panels,
    set_next_ref, set_trace, set_reported;
  cbv beta;
  cbn [nodes objects params panels next_ref trace reported].

(** ** The nodes created last *)

Lemma lookup_new {A} (l : list A) x : (l ++ [x]) !! length l = Some x.
Proof. rewrite lookup_app_r by lia. by rewrite Nat.sub_diag. Qed.

Lemma alter_new {A} (f : A → A) (l : list A) x :
  alter f (length l) (l ++ [x]) = l ++ [f x].
Proof. rewrite alter_app_r_alt by lia. by rewrite Nat.sub_diag. Qed.

Lemma lookup_at {A} (B T : list A) n k : length B = n → (B ++ T) !! (n + k) = T !! k.
Proof. intros <-. rewrite lookup_app_r by lia. f_equal. lia. Qed.

Lemma lookup_at0 {A} (B T : list A) n : length B = n → (B ++ T) !! n = T !! 0.
Proof. intros <-. rewrite lookup_app_r by lia. f_equal. lia. Qed.

Lemma lookup_base {A} (B T : list A) n e : B !! n = Some e → (B ++ T) !! n = Some e.
Proof. intros H. rewrite lookup_app_l; [done | by eapply lookup_lt_Some]. Qed.

Lemma alter_at {A} (f : A → A) (B T : list A) n k :
  length B = n → alter f (n + k) (B ++ T) = B ++ alter f k T.
Proof. intros <-. apply alter_app_r. Qed.

Lemma alter_at0 {A} (f : A → A) (B T : list A) n :
  length B = n → alter f n (B ++ T) = B ++ alter f 0 T.
Proof. intros <-. rewrite <- (Nat.add_0_r (length B)) at 1. apply alter_app_r. Qed.

Lemma alter_base {A} (f : A → A) (B T : list A) n e :
  B !! n = Some e → alter f n (B ++ T) = alter f n B ++ T.
Proof. intros H. apply alter_app_l. by eapply lookup_lt_Some. Qed.

Lemma list_snoc_take {A} (l : list A) n x :
  length l = S n → l !! n = Some x → l = take n l ++ [x].
Proof.
  intros Hl Hn. rewrite <- (take_S_r _ _ _ Hn). by rewrite take_ge by lia.
Qed.

Lemma container_at (B T : list element) n k e :
  length B = n → T !! k = Some e → el_tag e ≠ "select" → container (B ++ T) (n + k).
Proof. intros. exists e. by rewrite lookup_at. Qed.

Lemma container_at0 (B T : list element) n e :
  length B = n → T !! 0 = Some e → el_tag e ≠ "select" → container (B ++ T) n.
Proof. intros. exists e. by rewrite lookup_at0. Qed.

Lemma container_base (B T : list element) n : container B n → container (B ++ T) n.
Proof. intros (e & ? & ?). exists e. split; [by apply lookup_base | done]. Qed.

Lemma container_alter f (ns : list element) n m :
  (∀ e, el_tag (f e) = el_tag e) → container ns n → container (alter f m ns) n.
Proof.
  intros Hf (e & He & Ht). destruct (decide (m = n)) as [->|Hne].
  - exists (f e). rewrite list_lookup_alter_eq, He. split; [done | by rewrite Hf].
  - exists e. by rewrite list_lookup_alter_ne.
Qed.

Ltac solve_len := rewrite ?length_alter; (assumption || reflexivity).

Ltac el_norm :=
  unfold add_listener, add_child, with_text, with_prop, restyle, with_listeners,
    with_children, with_parent, with_style, with_props, spawned;
  cbn [el_tag el_parent el_children el_style el_props el_listeners app].

Ltac tail_norm :=
  rewrite ?length_app, ?length_alter; cbn [length];
  try match goal with H : length _ = _ |- _ => rewrite !H end;
  rewrite ?alter_at0 by solve_len;
  rewrite ?alter_at by solve_len;
  rewrite <- ?app_assoc;
  cbn [alter list_alter app]; el_norm.

Ltac side :=
  first
    [ assumption
    | apply lookup_new
    | rewrite lookup_at by solve_len; reflexivity
    | rewrite lookup_at0 by solve_len; reflexivity
    | (apply lookup_base; assumption)
    | reflexivity
    | done ].

Ltac step lem := rewrite ?bind_assoc; erewrite bind_ok by (eapply lem; side).
Ltac step_log := rewrite ?bind_assoc; rewrite bind_log.

(** ** The operations of the host, one step each *)

Section Steps.
Context (os : list (gmap string value)) (ps : list param) (pls : list panel)
        (nr : nat) (tr : list event) (rp : list error).
Local Abbreviation W ns := (World ns os ps pls nr tr rp).
Implicit Types (ns : list element) (n k j : nat).

Lemma get_node_ok ns n e :
  ns !! n = Some e → get_node n (W ns) = (Ok e, W ns).
Proof. intros H. unfold get_node. wsimpl. by rewrite H. Qed.

Lemma alter_node_ok f ns n e :
  ns !! n = Some e → alter_node f n (W ns) = (Ok tt, W (alter f n ns)).
Proof. intros H. unfold alter_node. by erewrite bind_ok by (by apply get_node_ok). Qed.

Lemma assign_style_ok ns n e attrs :
  ns !! n = Some e → assign_style n attrs (W ns) = (Ok tt, W (alter (restyle attrs) n ns)).
Proof. intros. unfold assign_style. by erewrite alter_node_ok. Qed.

Lemma addEventListener_ok ns n e type c :
  ns !! n = Some e →
  addEventListener n type c (W ns) = (Ok tt, W (alter (add_listener type c) n ns)).
Proof. intros. unfold addEventListener. by erewrite alter_node_ok. Qed.

Lemma set_property_plain ns n e key v :
  ns !! n = Some e → plain_key (el_tag e) key = true →
  set_property n key v (W ns) =
  (Ok tt, W (alter (with_prop key (convert (el_tag e) key v)) n ns)).
Proof.
  intros H Hk. unfold set_property. erewrite bind_ok by (by apply get_node_ok).
  unfold plain_key in Hk. apply andb_true_iff in Hk as [Hk H3].
  apply andb_true_iff in Hk as [H1 H2].
  apply negb_true_iff in H1, H2, H3. rewrite H1, H2, H3. reflexivity.
Qed.

Lemma set_textContent_leaf ns n e v :
  ns !! n = Some e → el_children e = [] →
  set_property n "textContent" v (W ns) =
  (Ok tt, W (alter (with_text (text_of v)) n ns)).
Proof.
  intros H Hc. unfold set_property. erewrite bind_ok by (by apply get_node_ok).
  rewrite Hc. reflexivity.
Qed.

Lemma get_property_plain ns n e key :
  ns !! n = Some e →
  bool_decide (key = "value")
  && (bool_decide (el_tag e = "select") || bool_decide (el_tag e = "option")) = false →
  get_property n key (W ns) = (Ok (prop_of e key), W ns).
Proof.
  intros H Hk. unfold get_property. erewrite bind_ok by (by apply get_node_ok).
  destruct (bool_decide (key = "value")); cbn in Hk |- *; [|done].
  apply orb_false_iff in Hk as [-> ->]. done.
Qed.

Lemma get_property_select ns n e :
  ns !! n = Some e → el_tag e = "select" →
  get_property n "value" (W ns) = (Ok (VString (select_value ns n)), W ns).
Proof.
  intros H Hk. unfold get_property. erewrite bind_ok by (by apply get_node_ok).
  rewrite Hk. reflexivity.
Qed.

Lemma get_param_ok ns this p :
  ps !! this = Some p → get_param this (W ns) = (Ok p, W ns).
Proof. intros H. unfold get_param. wsimpl. by rewrite H. Qed.

Lemma get_panel_ok ns this p :
  pls !! this = Some p → get_panel this (W ns) = (Ok p, W ns).
Proof. intros H. unfold get_panel. wsimpl. by rewrite H. Qed.

Lemma get_target_ok ns target property o :
  os !! target = Some o →
  get_target target property (W ns) = (Ok (default VUndefined (o !! property)), W ns).
Proof. intros H. unfold get_target. wsimpl. by rewrite H. Qed.

Lemma set_target_ok ns target property v o :
  os !! target = Some o →
  set_target target property v (W ns) =
  (Ok tt, World ns (<[target := <[property := v]> o]> os) ps pls nr
            (tr ++ [SetProperty target property v]) rp).
Proof. intros H. unfold set_target. wsimpl. by rewrite H. Qed.

Lemma alter_param_ok ns f this p :
  ps !! this = Some p →
  alter_param f this (W ns) = (Ok tt, World ns os (alter f this ps) pls nr tr rp).
Proof. intros H. unfold alter_param. by erewrite bind_ok by (by apply get_param_ok). Qed.

Lemma alter_panel_ok ns f this p :
  pls !! this = Some p →
  alter_panel f this (W ns) = (Ok tt, World ns os ps (alter f this pls) nr tr rp).
Proof. intros H. unfold alter_panel. by erewrite bind_ok by (by apply get_panel_ok). Qed.

End Steps.

(** ** Selectedness only touches options *)

Lemma select_only_length keep opts (ns : list element) :
  length (select_only keep opts ns) = length ns.
Proof.
  unfold select_only. induction opts as [|o opts IH]; cbn [foldr]; [done|].
  by rewrite length_alter.
Qed.

Lemma select_only_other keep opts (ns : list element) i :
  i ∉ opts → select_only keep opts ns !! i = ns !! i.
Proof.
  unfold select_only. induction opts as [|o opts IH]; cbn [foldr]; [done|].
  intros Hi. apply not_elem_of_cons in Hi as [Hne Hi].
  rewrite list_lookup_alter_ne by done. by apply IH.
Qed.

Lemma options_of_option (ns : list element) sel o :
  o ∈ options_of ns sel → is_option ns o = true.
Proof.
  unfold options_of. destruct (ns !! sel); [|by intros ?%elem_of_nil].
  intros Ho%list_elem_of_In%filter_In. tauto.
Qed.

Lemma not_option_not_in (ns : list element) sel i e :
  ns !! i = Some e → el_tag e ≠ "option" → i ∉ options_of ns sel.
Proof.
  intros He Ht Hin%options_of_option. unfold is_option in Hin. rewrite He in Hin.
  by apply bool_decide_eq_true in Hin.
Qed.

Lemma reset_selectedness_length sel (ns : list element) :
  length (reset_selectedness sel ns) = length ns.
Proof.
  unfold reset_selectedness.
  destruct (List.filter _ _); [destruct (options_of ns sel)|].
  - done.
  - by rewrite length_alter.
  - by rewrite select_only_length.
Qed.

Lemma reset_selectedness_other sel (ns : list element) i e :
  ns !! i = Some e → el_tag e ≠ "option" → reset_selectedness sel ns !! i = Some e.
Proof.
  intros He Ht. pose proof (not_option_not_in ns sel i e He Ht) as Hni.
  unfold reset_selectedness.
  destruct (List.filter _ _); [destruct (options_of ns sel) as [|o opts] eqn:Ho|].
  - done.
  - rewrite list_lookup_alter_ne; [done|]. intros ->. apply Hni. by left.
  - by rewrite select_only_other.
Qed.

(** ** appendChild and spawn *)

Section Spawn.
Context (os : list (gmap string value)) (ps : list param) (pls : list panel)
        (nr : nat) (tr : list event) (rp : list error).
Local Abbreviation W ns := (World ns os ps pls nr tr rp).
Implicit Types (ns : list element).

Lemma appendChild_new ns parent pe c :
  ns !! parent = Some pe → el_parent c = None →
  appendChild parent (length ns) (W (ns ++ [c])) =
  (Ok tt,
   W (let ns3 := alter (add_child (length ns)) parent ns ++ [with_parent (Some parent) c] in
      if bool_decide (el_tag pe = "select") then reset_selectedness parent ns3 else ns3)).
Proof.
  intros Hp Hpar. unfold appendChild.
  assert (Hlt : parent < length ns) by (by eapply lookup_lt_Some).
  erewrite bind_ok by (apply get_node_ok; by apply lookup_base).
  erewrite bind_ok by (apply get_node_ok; apply lookup_new).
  wsimpl. unfold moved, detach. rewrite lookup_new, Hpar.
  erewrite alter_base by done.
  rewrite alter_at0 by solve_len. cbn [alter list_alter].
  unfold is_select. erewrite lookup_base by (by rewrite list_lookup_alter_eq, Hp).
  cbn [add_child with_children el_tag]. reflexivity.
Qed.

(** [spawn] under any node: the new node comes last, as created. *)
Lemma spawn_any tag style ns parent pe :
  ns !! parent = Some pe → tag ≠ "option" →
  ∃ B, length B = length ns ∧
       (el_tag pe ≠ "select" → B = alter (add_child (length ns)) parent ns) ∧
       spawn tag parent style (W ns) =
       (Ok (length ns), W (B ++ [spawned tag parent style])).
Proof.
  intros Hp Htag. unfold spawn.
  set (c := match style with
            | Some attrs => restyle attrs (blank tag)
            | None => blank tag
            end).
  assert (Hc : with_parent (Some parent) c = spawned tag parent style)
    by (by destruct style).
  assert (Hcp : el_parent c = None) by (by destruct style).
  set (ns3 := alter (add_child (length ns)) parent ns ++ [spawned tag parent style]).
  assert (Hl3 : length ns3 = S (length ns)).
  { unfold ns3. rewrite length_app, length_alter. cbn. lia. }
  assert (Hn3 : ns3 !! length ns = Some (spawned tag parent style)).
  { unfold ns3. by rewrite lookup_at0 by solve_len. }
  set (ns4 := if bool_decide (el_tag pe = "select")
              then reset_selectedness parent ns3 else ns3).
  assert (Hrun :
    (res <- createElement tag ;;
     match style with
     | Some attrs => css res attrs
     | None => ret tt
     end ;;; appendChild parent res ;;; ret res) (W ns) = (Ok (length ns), W ns4)).
  { unfold bind at 1, createElement at 1. wsimpl.
    erewrite (bind_ok _ _ _ tt (W (ns ++ [c]))).
    - erewrite bind_ok by (by eapply appendChild_new).
      cbn zeta. rewrite Hc. reflexivity.
    - unfold c. destruct style as [attrs|]; [|done].
      unfold css. erewrite assign_style_ok by apply lookup_new.
      by rewrite alter_new. }
  rewrite Hrun. unfold ns4. case_bool_decide as Hsel.
  - exists (take (length ns) (reset_selectedness parent ns3)). split; [|split].
    + rewrite length_take, reset_selectedness_length. lia.
    + done.
    + do 2 f_equal. apply list_snoc_take.
      * by rewrite reset_selectedness_length.
      * apply reset_selectedness_other; [done|]. exact Htag.
  - exists (alter (add_child (length ns)) parent ns). split; [|split]; try done.
    by rewrite length_alter.
Qed.

Lemma spawn_ok tag style ns parent :
  container ns parent →
  spawn tag parent style (W ns) =
  (Ok (length ns),
   W (alter (add_child (length ns)) parent ns ++ [spawned tag parent style])).
Proof.
  intros (pe & Hp & Htag). unfold spawn.
  set (c := match style with
            | Some attrs => restyle attrs (blank tag)
            | None => blank tag
            end).
  assert (Hc : with_parent (Some parent) c = spawned tag parent style)
    by (by destruct style).
  assert (Hcp : el_parent c = None) by (by destruct style).
  unfold bind at 1, createElement at 1. wsimpl.
  erewrite (bind_ok _ _ _ tt (W (ns ++ [c]))).
  - erewrite bind_ok by (by eapply appendChild_new).
    cbn zeta. rewrite Hc. by rewrite bool_decide_eq_false_2.
  - unfold c. destruct style as [attrs|]; [|done].
    unfold css. erewrite assign_style_ok by apply lookup_new.
    by rewrite alter_new.
Qed.

End Spawn.

(** ** The constructor of Param *)

Lemma new_Param_from c tag parent B b os ps pls nr tr rp :
  let n := length B in
  b = spawned "div" parent (Some box_style) →
  (l <- spawn "label" n (Some label_style) ;;
   vc <- spawn "div" n (Some valueContainer_style) ;;
   i <- spawn tag vc None ;;
   λ w, (Ok (length (params w)),
         set_params (λ ps, ps ++ [Param c n l vc i None None None]) w))
    (World (B ++ [b]) os ps pls nr tr rp) =
  (Ok (length ps),
   World (B ++ row_nodes parent n [n + 3] (Element tag (Some (n + 2)) [] ∅ ∅ []))
     os (ps ++ [Param c n (n + 1) (n + 2) (n + 3) None None None]) pls nr tr rp).
Proof.
  intros n ->. assert (HB : length B = n) by done. clearbody n.
  erewrite bind_ok.
  2:{ apply spawn_ok. eapply container_at0; [solve_len | reflexivity | done]. }
  tail_norm.
  erewrite bind_ok.
  2:{ apply spawn_ok. eapply container_at0; [solve_len | reflexivity | done]. }
  tail_norm.
  erewrite bind_ok.
  2:{ apply spawn_ok. eapply (container_at _ _ _ 2); [solve_len | reflexivity | done]. }
  tail_norm. wsimpl. reflexivity.
Qed.

(** Under any node [parent] the row is created, and the nodes that were
    there keep their number. *)
Lemma new_Param_any c tag parent ns pe os ps pls nr tr rp :
  ns !! parent = Some pe →
  let n := length ns in
  ∃ B, length B = n ∧
       (el_tag pe ≠ "select" → B = alter (add_child n) parent ns) ∧
       new_Param c tag parent (World ns os ps pls nr tr rp) =
       (Ok (length ps),
        World (B ++ row_nodes parent n [n + 3] (Element tag (Some (n + 2)) [] ∅ ∅ []))
          os (ps ++ [Param c n (n + 1) (n + 2) (n + 3) None None None]) pls nr tr rp).
Proof.
  intros Hp n. subst n.
  destruct (spawn_any os ps pls nr tr rp "div" (Some box_style) ns parent pe Hp)
    as (B & HB & HBc & Hs); [done|].
  exists B. split; [done|]. split; [done|].
  unfold new_Param. erewrite bind_ok by exact Hs.
  rewrite <- HB. by apply new_Param_from.
Qed.

Lemma new_Param_ok c tag parent ns os ps pls nr tr rp :
  container ns parent →
  let n := length ns in
  new_Param c tag parent (World ns os ps pls nr tr rp) =
  (Ok (length ps),
   World (alter (add_child n) parent ns
          ++ row_nodes parent n [n + 3] (Element tag (Some (n + 2)) [] ∅ ∅ []))
     os (ps ++ [Param c n (n + 1) (n + 2) (n + 3) None None None]) pls nr tr rp).
Proof.
  intros (pe & Hp & Ht) n.
  destruct (new_Param_any c tag parent ns pe os ps pls nr tr rp Hp) as (B & _ & HB & ->).
  by rewrite (HB Ht).
Qed.

(** ** The constructor of InputParam up to the call of [setup] *)

Lemma new_InputParam_prologue ct c parent target property args ns pe o
    os ps pls nr tr rp :
  ns !! parent = Some pe → os !! target = Some o →
  let n := length ns in
  let this := length ps in
  let initial := default VUndefined (o !! property) in
  ∃ B, length B = n ∧
       (el_tag pe ≠ "select" → B = alter (add_child n) parent ns) ∧
       new_InputParam ct c parent target property args (World ns os ps pls nr tr rp) =
       (call_setup ct this initial args ;;;
        v <- call_value ct this ;;
        call_update ct this v ;;;
        ret this)
         (World (B ++ row_nodes parent n [n + 3]
                        (control (call_tag ct c) n this target property ∅ ∅ []))
            os (ps ++ [Param c n (n + 1) (n + 2) (n + 3) None None None]) pls nr tr rp).
Proof.
  intros Hp Ho n this initial.
  destruct (new_Param_any c (call_tag ct c) parent ns pe os ps pls nr tr rp Hp)
    as (B & HB & HBc & Hs).
  exists B. split; [done|]. split; [done|].
  unfold new_InputParam. fold n in Hs, HB. erewrite bind_ok by exact Hs.
  fold this. unfold row_nodes.
  step get_param_ok. cbn [input].
  step addEventListener_ok. tail_norm.
  step addEventListener_ok. tail_norm.
  step get_target_ok. reflexivity.
Qed.

(** ** The constructors of Boolean, Number and Range *)

Lemma classes_Boolean : classes "Boolean" = Boolean.
Proof. reflexivity. Qed.
Lemma classes_Range : classes "Range" = Range.
Proof. reflexivity. Qed.
Lemma classes_Select : classes "Select" = Select.
Proof. reflexivity. Qed.
Lemma classes_Number : classes "Number" = Number.
Proof. reflexivity. Qed.

Lemma convert_input_value v : convert "input" "value" v = VString (input_text v).
Proof. by destruct v. Qed.

Lemma convert_input_string key v :
  is_string_property key = true → key ≠ "value" →
  convert "input" key v = VString (ToString v).
Proof.
  intros Hk Hv. unfold convert. rewrite Hk.
  destruct v; try done. by rewrite (bool_decide_eq_false_2 (key = "value")).
Qed.

Lemma prop_of_insert key v m tag par ch st ls :
  prop_of (Element tag par ch st (<[key := v]> m) ls) key = v.
Proof. unfold prop_of. cbn [el_props]. by rewrite lookup_insert_eq. Qed.

Lemma call_tag_Boolean : call_tag classes "Boolean" = "input".
Proof. reflexivity. Qed.
Lemma call_tag_Number : call_tag classes "Number" = "input".
Proof. reflexivity. Qed.
Lemma call_tag_Range : call_tag classes "Range" = "input".
Proof. reflexivity. Qed.
Lemma call_tag_Select : call_tag classes "Select" = "select".
Proof. reflexivity. Qed.

Ltac enter_hook lem :=
  step get_param_ok; step_log; cbn [cls]; rewrite lem;
  cbn [setup_hook value_hook update_hook Boolean Range Select Number].

Lemma new_Boolean_ok parent target property args ns os ps pls nr tr rp o :
  container ns parent → os !! target = Some o →
  let n := length ns in
  let this := length ps in
  let initial := default VUndefined (o !! property) in
  new_InputParam classes "Boolean" parent target property args
    (World ns os ps pls nr tr rp) =
  (Ok this,
   World (alter (add_child n) parent ns
          ++ row_nodes parent n [n + 3] (Boolean_control n this target property initial))
     os (ps ++ [Param "Boolean" n (n + 1) (n + 2) (n + 3) None None None]) pls nr
     (tr ++ [CallSetup this initial args; CallValue this;
             CallUpdate this (VBool (ToBoolean initial))])
     rp).
Proof.
  intros (pe & Hp & Ht) Ho n this initial.
  destruct (new_InputParam_prologue classes "Boolean" parent target property args
              ns pe o os ps pls nr tr rp Hp Ho) as (B & HB & HBc & ->).
  rewrite ?call_tag_Boolean, ?call_tag_Number, ?call_tag_Range.
  specialize (HBc Ht). subst B. fold n this initial in HB |- *.
  set (B := alter (add_child n) parent ns) in *.
  unfold row_nodes, control. cbn [app].
  unfold call_setup. enter_hook classes_Boolean. unfold Boolean_setup.
  step get_param_ok. cbn [input]. unfold css.
  step assign_style_ok. tail_norm.
  unfold InputParam_setInput.
  step get_param_ok. cbn [input Object_assign].
  step set_property_plain. tail_norm.
  step set_property_plain. tail_norm.
  rewrite bind_ret.
  unfold call_value. enter_hook classes_Boolean. unfold Boolean_value.
  step get_param_ok. cbn [input].
  step get_property_plain. rewrite prop_of_insert.
  unfold call_update. enter_hook classes_Boolean. unfold InputParam_update.
  rewrite bind_ret. unfold ret. rewrite <- ?app_assoc. reflexivity.
Qed.

Lemma new_Number_ok parent target property args ns os ps pls nr tr rp o :
  container ns parent → os !! target = Some o →
  let n := length ns in
  let this := length ps in
  let initial := default VUndefined (o !! property) in
  new_InputParam classes "Number" parent target property args
    (World ns os ps pls nr tr rp) =
  (Ok this,
   World (alter (add_child n) parent ns
          ++ row_nodes parent n [n + 3] (Number_control n this target property initial))
     os (ps ++ [Param "Number" n (n + 1) (n + 2) (n + 3) None None None]) pls nr
     (tr ++ [CallSetup this initial args; CallValue this;
             CallUpdate this (VNumber (parseFloat (input_text initial)))])
     rp).
Proof.
  intros (pe & Hp & Ht) Ho n this initial.
  destruct (new_InputParam_prologue classes "Number" parent target property args
              ns pe o os ps pls nr tr rp Hp Ho) as (B & HB & HBc & ->).
  rewrite ?call_tag_Boolean, ?call_tag_Number, ?call_tag_Range.
  specialize (HBc Ht). subst B. fold n this initial in HB |- *.
  set (B := alter (add_child n) parent ns) in *.
  unfold row_nodes, control. cbn [app].
  unfold call_setup. enter_hook classes_Number. unfold Number_setup.
  step get_param_ok. cbn [input]. unfold css.
  step assign_style_ok. tail_norm.
  unfold InputParam_setInput.
  step get_param_ok. cbn [input Object_assign].
  step set_property_plain. tail_norm.
  step set_property_plain. tail_norm.
  rewrite bind_ret.
  step addEventListener_ok. tail_norm.
  step addEventListener_ok. tail_norm.
  unfold call_value. enter_hook classes_Number. unfold Number_value.
  step get_param_ok. cbn [input].
  step get_property_plain. rewrite prop_of_insert, bind_ret.
  unfold call_update. enter_hook classes_Number. unfold InputParam_update.
  rewrite bind_ret. unfold ret. rewrite <- ?app_assoc.
  rewrite convert_input_value. reflexivity.
Qed.

Lemma new_Range_ok parent target property args ns os ps pls nr tr rp o :
  container ns parent → container ns head → os !! target = Some o →
  let n := length ns in
  let this := length ps in
  let initial := default VUndefined (o !! property) in
  let v := VNumber (parseFloat (input_text initial)) in
  new_InputParam classes "Range" parent target property args
    (World ns os ps pls nr tr rp) =
  (Ok this,
   World (alter (add_child (n + 5)) head (alter (add_child n) parent ns)
          ++ row_nodes parent n [n + 3; n + 4]
               (Range_control n this target property initial
                  (nth 0 args VUndefined) (nth 1 args VUndefined) (nth 2 args VUndefined))
          ++ [Range_span n v; thumb_node])
     os (ps ++ [Param "Range" n (n + 1) (n + 2) (n + 3) (Some (n + 4)) None None]) pls nr
     (tr ++ [CallSetup this initial args; CallValue this; CallUpdate this v])
     rp).
Proof.
  intros (pe & Hp & Ht) Hh Ho n this initial v.
  destruct (new_InputParam_prologue classes "Range" parent target property args
              ns pe o os ps pls nr tr rp Hp Ho) as (B & HB & HBc & ->).
  rewrite ?call_tag_Boolean, ?call_tag_Number, ?call_tag_Range.
  specialize (HBc Ht). subst B. fold n this initial in HB |- *.
  set (B := alter (add_child n) parent ns) in *.
  assert (HhB : container B head) by (by apply container_alter).
  unfold row_nodes, control. cbn [app].
  unfold call_setup. enter_hook classes_Range. unfold Range_setup.
  step get_param_ok. cbn [input valueContainer]. unfold css.
  step assign_style_ok. tail_norm.
  unfold InputParam_setInput.
  step get_param_ok. cbn [input Object_assign].
  do 5 (step set_property_plain; tail_norm).
  rewrite bind_ret, ?bind_assoc.
  erewrite bind_ok.
  2:{ apply spawn_ok. eapply (container_at _ _ _ 2); [solve_len | reflexivity | done]. }
  tail_norm.
  step alter_param_ok. rewrite (alter_new _ ps). unfold with_valueSpan. cbn [cls box label valueContainer input valueSpan _onInput _onChange]. rewrite ?bind_assoc.
  erewrite bind_ok.
  2:{ apply spawn_ok. by apply container_base. }
  tail_norm.
  destruct HhB as (he & Hhe & Hht).
  erewrite alter_base by done.
  set (B' := alter _ head B).
  assert (HB' : length B' = n) by (unfold B'; solve_len).
  clear HB. rewrite <- ?app_assoc. cbn [app].
  step set_textContent_leaf. tail_norm.
  unfold call_value. enter_hook classes_Range. unfold Range_value.
  step get_param_ok. cbn [input].
  step get_property_plain. rewrite prop_of_insert, bind_ret.
  unfold call_update. enter_hook classes_Range. unfold Range_update.
  step get_param_ok. cbn [valueSpan].
  step set_textContent_leaf. tail_norm. unfold ret. rewrite <- ?app_assoc.
  rewrite convert_input_value, !convert_input_string by done.
  reflexivity.
Qed.

(** ** Events on a bound widget *)

Lemma run_listeners_closures ct type ls w :
  run_listeners ct type ls w =
  run_closures ct (List.filter (λ l : string * closure, bool_decide (l.1 = type)) ls).*2 w.
Proof.
  revert w. induction ls as [|[t c] ls IH]; intros w; [done|].
  cbn [run_listeners List.filter fst]. case_bool_decide.
  - cbn [fmap list_fmap snd run_closures]. unfold bind.
    destruct (reporting _ w) as [[[]|e] w']; [apply IH | done].
  - rewrite bind_ret. apply IH.
Qed.

Lemma dispatchEvent_closures ct n type e ns os ps pls nr tr rp :
  ns !! n = Some e →
  dispatchEvent ct n type (World ns os ps pls nr tr rp) =
  run_closures ct (listeners_for type e) (World ns os ps pls nr tr rp).
Proof.
  intros H. unfold dispatchEvent. step get_node_ok. apply run_listeners_closures.
Qed.

Lemma reporting_ok (c : M unit) w w' :
  c w = (Ok tt, w') → reporting c w = (Ok tt, w').
Proof. intros H. unfold reporting. by rewrite H. Qed.

Lemma shows_bindable w p v : shows w p v → bindable (cls p).
Proof.
  unfold bindable.
  destruct 1 as [?? -> | ?? -> | ?? -> | ? ->]; set_solver.
Qed.

Lemma get_property_input key e ns n os ps pls nr tr rp :
  ns !! n = Some e → el_tag e = "input" →
  get_property n key (World ns os ps pls nr tr rp) =
  (Ok (prop_of e key), World ns os ps pls nr tr rp).
Proof.
  intros H Ht. apply get_property_plain; [done|]. rewrite Ht.
  by rewrite andb_false_r.
Qed.

Lemma call_value_shows ns os ps pls nr tr rp this p target property v :
  let w := World ns os ps pls nr tr rp in
  wired w this p target property → shows w p v →
  call_value classes this w =
  (Ok v, World ns os ps pls (next_after w p) (tr ++ [CallValue this]) rp).
Proof.
  intros w (Hp & _ & (ie & Hi & Htag & _) & _) Hs. subst w. cbn in Hp, Hi.
  unfold call_value, next_after. step get_param_ok. step_log.
  destruct Hs as [ie' b Hc Hi' Hv | ie' s Hc Hi' Hv | ie' s Hc Hi' Hv | j Hc Hj];
    cbn [nodes next_ref] in *; rewrite Hc in Htag |- *.
  - rewrite classes_Boolean. cbn [value_hook Boolean]. unfold Boolean_value.
    step get_param_ok. erewrite get_property_input; [|exact Hi|exact Htag].
    rewrite Hi in Hi'. injection Hi' as <-. by rewrite Hv.
  - rewrite classes_Number. cbn [value_hook Number]. unfold Number_value.
    step get_param_ok. erewrite bind_ok; [|by eapply get_property_input; [exact Hi|exact Htag]].
    rewrite Hi in Hi'. injection Hi' as <-. by rewrite Hv.
  - rewrite classes_Range. cbn [value_hook Range]. unfold Range_value.
    step get_param_ok. erewrite bind_ok; [|by eapply get_property_input; [exact Hi|exact Htag]].
    rewrite Hi in Hi'. injection Hi' as <-. by rewrite Hv.
  - rewrite classes_Select. cbn [value_hook Select]. unfold Select_value.
    step get_param_ok. erewrite bind_ok; [|by eapply get_property_select; [exact Hi|exact Htag]].
    cbn [ToString]. rewrite Hj. rewrite bool_decide_eq_true_2 by done.
    unfold fresh. cbn [next_ref]. by destruct (relabel j nr).
Qed.

Lemma call_update_ok ns os ps pls nr tr rp this p target property v :
  let w := World ns os ps pls nr tr rp in
  wired w this p target property → bindable (cls p) →
  call_update classes this v w =
  (Ok tt, World (updated p v ns) os ps pls nr (tr ++ [CallUpdate this v]) rp).
Proof.
  intros w (Hp & _ & _ & Hr) Hb. subst w. cbn in Hp, Hr.
  unfold call_update, updated. step get_param_ok. step_log.
  unfold bindable in Hb. rewrite !elem_of_cons in Hb.
  destruct Hb as [Hc|[Hc|[Hc|[Hc|Hc%elem_of_nil]]]]; [| | | |done]; rewrite Hc.
  - by rewrite classes_Boolean.
  - by rewrite classes_Number.
  - rewrite classes_Range. cbn [update_hook Range]. unfold Range_update.
    destruct (Hr Hc) as (span & se & Hs & _ & Hse & Hch).
    step get_param_ok. rewrite Hs. rewrite bool_decide_eq_true_2 by done.
    by eapply set_textContent_leaf.
  - by rewrite classes_Select.
Qed.

Lemma wired_updated ns os ps pls nr tr rp this p target property v os' nr' tr' rp' o :
  wired (World ns os ps pls nr tr rp) this p target property →
  os !! target = Some o → os' = <[target := <[property := v]> o]> os ∨ os' = os →
  wired (World (updated p v ns) os' ps pls nr' tr' rp') this p target property.
Proof.
  intros (Hp & Ho & (ie & Hi & Hrest) & Hr) Hot Hos. cbn in *.
  assert (Hup : ∀ n, (cls p = "Range" → valueSpan p ≠ Some n) →
                     updated p v ns !! n = ns !! n).
  { intros n Hn. unfold updated. case_bool_decide as Hc; [|done].
    destruct (valueSpan p) as [span|] eqn:Hs; [|done].
    rewrite list_lookup_alter_ne; [done|]. intros ->. by apply (Hn Hc). }
  split; [done|]. split; [|split].
  - destruct Hos as [-> | ->]; [|done]. cbn.
    apply lookup_lt_is_Some. rewrite length_insert. by apply lookup_lt_is_Some.
  - exists ie. split; [|done]. cbn. rewrite Hup; [done|].
    intros Hc. destruct (Hr Hc) as (span & se & Hs & Hne & _). rewrite Hs. congruence.
  - intros Hc. destruct (Hr Hc) as (span & se & Hs & Hne & Hse & Hch).
    exists span, (with_text (text_of v) se). split; [done|]. split; [done|].
    split; [|done]. cbn. unfold updated.
    rewrite bool_decide_eq_true_2, Hs by done.
    by rewrite list_lookup_alter_eq, Hse.
Qed.

Lemma on_input_ok ns os ps pls nr tr rp this p target property v o :
  let w := World ns os ps pls nr tr rp in
  wired w this p target property → shows w p v → os !! target = Some o →
  on_input classes this target property w =
  (Ok tt,
   World (updated p v ns) (<[target := <[property := v]> o]> os) ps pls (next_after w p)
     (tr ++ [CallValue this; CallUpdate this v; SetProperty target property v]
         ++ callback_call (_onInput p) v) rp).
Proof.
  intros w Hw Hs Ho. subst w. unfold on_input.
  erewrite bind_ok by (by eapply call_value_shows).
  erewrite bind_ok.
  2:{ eapply call_update_ok; [|by eapply shows_bindable].
      destruct Hw as (? & ? & ? & ?). repeat split; eauto. }
  step set_target_ok.
  destruct Hw as (Hp & _). cbn in Hp.
  step get_param_ok. rewrite <- !app_assoc. cbn [app].
  destruct (_onInput p); [|done]. unfold call_function. wsimpl. cbv beta.
  cbn [trace nodes objects params panels next_ref reported callback_call].
  by rewrite <- !app_assoc.
Qed.

Lemma run_input_listener ns os ps pls nr tr rp this p target property ie w' :
  ns !! input p = Some ie →
  listeners_for "input" ie = [InputListener this target property] →
  on_input classes this target property (World ns os ps pls nr tr rp) = (Ok tt, w') →
  dispatchEvent classes (input p) "input" (World ns os ps pls nr tr rp) = (Ok tt, w').
Proof.
  intros Hi Hl Hrun. erewrite dispatchEvent_closures by done. rewrite Hl.
  cbn [run_closures run_closure]. erewrite bind_ok by (by apply reporting_ok). done.
Qed.

(** The whole effect of an [input] event on a bound widget. *)
Lemma input_event_ok w this p target property v :
  wired w this p target property → shows w p v →
  ∃ w' o,
    dispatchEvent classes (input p) "input" w = (Ok tt, w') ∧
    objects w !! target = Some o ∧
    objects w' = <[target := <[property := v]> o]> (objects w) ∧
    trace w' = trace w ++ [CallValue this; CallUpdate this v;
                            SetProperty target property v]
                       ++ callback_call (_onInput p) v ∧
    reported w' = reported w ∧
    params w' = params w ∧
    nodes w' = updated p v (nodes w) ∧
    wired w' this p target property ∧
    panels w' = panels w ∧ next_ref w' = next_after w p.
Proof.
  destruct w as [ns os ps pls nr tr rp]. intros Hw Hs.
  pose proof Hw as (Hp & [o Ho] & (ie & Hi & Htag & Hli & Hlc) & Hr). cbn in Hp, Ho, Hi.
  eexists _, o. split.
  { eapply run_input_listener; [done..|]. by apply on_input_ok. }
  cbn [objects trace reported params nodes panels next_ref]. split_and!; try done.
  eapply wired_updated; [done..|by left].
Qed.

(** C1.  On a bound widget whose control shows [v], an [input] event calls
    [value()], then [update(v)], then writes [v] to [target[property]], then
    calls the live callback with [v] when one is registered, and nothing
    else: the commit callback is not called. *)
Theorem live_interaction w this p target property v :
  wired w this p target property → shows w p v →
  ∃ w' o,
    dispatchEvent classes (input p) "input" w = (Ok tt, w') ∧
    objects w !! target = Some o ∧
    objects w' = <[target := <[property := v]> o]> (objects w) ∧
    trace w' = trace w ++ [CallValue this; CallUpdate this v;
                            SetProperty target property v]
                       ++ callback_call (_onInput p) v ∧
    reported w' = reported w ∧
    params w' = params w ∧
    nodes w' = updated p v (nodes w) ∧
    wired w' this p target property.
Proof.
  destruct w as [ns os ps pls nr tr rp]. intros Hw Hs.
  pose proof Hw as (Hp & [o Ho] & (ie & Hi & Htag & Hli & Hlc) & Hr). cbn in Hp, Ho, Hi.
  eexists _, o. split.
  { eapply run_input_listener; [done..|]. by apply on_input_ok. }
  cbn [objects trace reported params nodes]. split_and!; try done.
  eapply wired_updated; [done..|by left].
Qed.

(** ** The commit event *)

Lemma call_value_any ns os ps pls nr tr rp this p target property :
  wired (World ns os ps pls nr tr rp) this p target property → bindable (cls p) →
  ∃ r nr', call_value classes this (World ns os ps pls nr tr rp) =
           (r, World ns os ps pls nr' (tr ++ [CallValue this]) rp).
Proof.
  intros (Hp & _ & (ie & Hi & Htag & _) & _) Hb. cbn in Hp, Hi.
  unfold call_value. step get_param_ok. step_log.
  unfold bindable in Hb. rewrite !elem_of_cons in Hb.
  destruct Hb as [Hc|[Hc|[Hc|[Hc|Hc%elem_of_nil]]]]; [| | | |done];
    rewrite Hc in Htag |- *.
  - rewrite classes_Boolean. cbn [value_hook Boolean]. unfold Boolean_value.
    step get_param_ok. erewrite get_property_input; [|exact Hi|exact Htag]. eauto.
  - rewrite classes_Number. cbn [value_hook Number]. unfold Number_value.
    step get_param_ok.
    erewrite bind_ok; [|by eapply get_property_input; [exact Hi|exact Htag]].
    unfold ret. eauto.
  - rewrite classes_Range. cbn [value_hook Range]. unfold Range_value.
    step get_param_ok.
    erewrite bind_ok; [|by eapply get_property_input; [exact Hi|exact Htag]].
    unfold ret. eauto.
  - rewrite classes_Select. cbn [value_hook Select]. unfold Select_value.
    step get_param_ok.
    erewrite bind_ok; [|by eapply get_property_select; [exact Hi|exact Htag]].
    destruct (JSON_parse _) as [e|j].
    + unfold throw. eauto.
    + unfold fresh. cbn [next_ref]. destruct (relabel j nr). wsimpl. eauto.
Qed.

Lemma run_change_listener ns os ps pls nr tr rp this p ie :
  ns !! input p = Some ie →
  listeners_for "change" ie = [ChangeListener this] →
  dispatchEvent classes (input p) "change" (World ns os ps pls nr tr rp) =
  (reporting (on_change classes this) ;;; ret tt) (World ns os ps pls nr tr rp).
Proof.
  intros Hi Hl. erewrite dispatchEvent_closures by done. by rewrite Hl.
Qed.

(** A [change] event on a widget with a commit callback calls [value()],
    then the callback. *)
Lemma change_event_calls w this p target property f v :
  wired w this p target property → _onChange p = Some f → shows w p v →
  ∃ w', dispatchEvent classes (input p) "change" w = (Ok tt, w') ∧
        trace w' = trace w ++ [CallValue this; CallFunction f v].
Proof.
  destruct w as [ns os ps pls nr tr rp]. intros Hw Hf Hs.
  pose proof Hw as (Hp & _ & (ie & Hi & Htag & Hli & Hlc) & Hr). cbn in Hp, Hi.
  erewrite run_change_listener by done.
  unfold on_change, reporting, bind at 1.
  erewrite bind_ok by (by apply get_param_ok).
  rewrite Hf. unfold bind at 1. erewrite call_value_shows by done.
  eexists. split; [reflexivity|]. cbn. by rewrite <- app_assoc.
Qed.

(** C9.  On a bound widget a [change] event leaves the document, the
    targets and the instances as they are: without a commit callback
    nothing changes at all, with one the event calls [value()] and then the
    callback with the value; [update] is not called and nothing is written
    to the target. *)
Theorem commit_event w this p target property :
  wired w this p target property → bindable (cls p) →
  ∃ w',
    dispatchEvent classes (input p) "change" w = (Ok tt, w') ∧
    nodes w' = nodes w ∧ objects w' = objects w ∧
    params w' = params w ∧ panels w' = panels w ∧
    (_onChange p = None → w' = w) ∧
    (∀ f v, _onChange p = Some f → shows w p v →
       trace w' = trace w ++ [CallValue this; CallFunction f v] ∧
       reported w' = reported w) ∧
    (∃ evs, trace w' = trace w ++ evs ∧
            Forall (λ e, e = CallValue this ∨
                         ∃ f v, _onChange p = Some f ∧ e = CallFunction f v) evs).
Proof.
  destruct w as [ns os ps pls nr tr rp]. intros Hw Hb.
  pose proof Hw as (Hp & _ & (ie & Hi & Htag & Hli & Hlc) & Hr). cbn in Hp, Hi.
  erewrite run_change_listener by done.
  unfold on_change, reporting, bind at 1.
  erewrite bind_ok by (by apply get_param_ok).
  destruct (_onChange p) as [f|] eqn:Hf.
  - destruct (call_value_any _ _ _ _ _ _ _ _ _ _ _ Hw Hb) as (r & nr' & Hv).
    unfold bind at 1. rewrite Hv. destruct r as [v|e].
    + eexists. split; [reflexivity|]. cbn. split_and!; try done.
      * intros f' v' [= <-] Hs.
        erewrite call_value_shows in Hv by done. injection Hv as <- _.
        split; [by rewrite <- app_assoc | done].
      * exists [CallValue this; CallFunction f v]. split; [by rewrite <- app_assoc|].
        apply Forall_cons; split; [by left|].
        apply Forall_cons; split; [right; eauto | constructor].
    + eexists. split; [reflexivity|]. cbn. split_and!; try done.
      * intros f' v' [= <-] Hs.
        erewrite call_value_shows in Hv by done. done.
      * exists [CallValue this]. split; [done|].
        apply Forall_cons; split; [by left | constructor].
  - eexists. split; [reflexivity|]. cbn. split_and!; try done.
    exists []. split; [by rewrite app_nil_r | constructor].
Qed.

(** ** Registering callbacks *)

Lemma wired_params ns os ps pls nr tr rp this p target property f :
  wired (World ns os ps pls nr tr rp) this p target property →
  cls (f p) = cls p → input (f p) = input p → valueSpan (f p) = valueSpan p →
  wired (World ns os (alter f this ps) pls nr tr rp) this (f p) target property.
Proof.
  intros (Hp & Ho & Hi & Hr) Hc Hin Hs. cbn in Hp. unfold wired. cbn.
  rewrite Hc, Hin, Hs. split_and!; try done.
  by rewrite list_lookup_alter_eq, Hp.
Qed.

Lemma onInput_ok ns os ps pls nr tr rp this p f :
  ps !! this = Some p →
  InputParam_onInput this f (World ns os ps pls nr tr rp) =
  (Ok this, World ns os (alter (with_onInput f) this ps) pls nr tr rp).
Proof. intros Hp. unfold InputParam_onInput. by step alter_param_ok. Qed.

Lemma onChange_ok ns os ps pls nr tr rp this p f :
  ps !! this = Some p →
  InputParam_onChange this f (World ns os ps pls nr tr rp) =
  (Ok this, World ns os (alter (with_onChange f) this ps) pls nr tr rp).
Proof. intros Hp. unfold InputParam_onChange. by step alter_param_ok. Qed.

Lemma calls_app t1 t2 : calls (t1 ++ t2) = calls t1 ++ calls t2.
Proof. unfold calls. apply omap_app. Qed.

(** C10.  A widget holds one live callback and one commit callback:
    registering [g] after [f] leaves [g] alone in the field, and the next
    event calls [g], once, and not [f]. *)
Theorem latest_callback_only w this p target property f g :
  wired w this p target property →
  (∃ w1 w2,
     InputParam_onInput this f w = (Ok this, w1) ∧
     InputParam_onInput this g w1 = (Ok this, w2) ∧
     params w2 !! this = Some (with_onInput g p) ∧
     wired w2 this (with_onInput g p) target property ∧
     ∀ v, shows w2 (with_onInput g p) v →
       ∃ w3 evs, dispatchEvent classes (input p) "input" w2 = (Ok tt, w3) ∧
                 trace w3 = trace w2 ++ evs ∧ calls evs = [(g, v)]) ∧
  (∃ w1 w2,
     InputParam_onChange this f w = (Ok this, w1) ∧
     InputParam_onChange this g w1 = (Ok this, w2) ∧
     params w2 !! this = Some (with_onChange g p) ∧
     wired w2 this (with_onChange g p) target property ∧
     ∀ v, shows w2 (with_onChange g p) v →
       ∃ w3 evs, dispatchEvent classes (input p) "change" w2 = (Ok tt, w3) ∧
                 trace w3 = trace w2 ++ evs ∧ calls evs = [(g, v)]).
Proof.
  destruct w as [ns os ps pls nr tr rp]. intros Hw.
  pose proof Hw as (Hp & _). cbn in Hp.
  assert (Hlt : this < length ps) by (by eapply lookup_lt_Some).
  split.
  - eexists _, _. split; [by eapply onInput_ok|]. split.
    { eapply onInput_ok. by rewrite list_lookup_alter_eq, Hp. }
    rewrite list_alter_alter_eq.
    assert (Hw2 : wired (World ns os (alter (with_onInput g ∘ with_onInput f) this ps)
                           pls nr tr rp) this (with_onInput g p) target property).
    { by apply (wired_params _ _ _ _ _ _ _ _ _ _ _ (with_onInput g ∘ with_onInput f)). }
    cbn [params trace].
    split; [by rewrite list_lookup_alter_eq, Hp|]. split; [done|].
    intros v Hs.
    destruct (input_event_ok _ _ _ _ _ _ Hw2 Hs) as (w3 & o & Hd & _ & _ & Ht & _).
    eexists w3, _. split; [exact Hd|]. split; [exact Ht|]. done.
  - eexists _, _. split; [by eapply onChange_ok|]. split.
    { eapply onChange_ok. by rewrite list_lookup_alter_eq, Hp. }
    rewrite list_alter_alter_eq.
    assert (Hw2 : wired (World ns os (alter (with_onChange g ∘ with_onChange f) this ps)
                           pls nr tr rp) this (with_onChange g p) target property).
    { by apply (wired_params _ _ _ _ _ _ _ _ _ _ _ (with_onChange g ∘ with_onChange f)). }
    cbn [params trace].
    split; [by rewrite list_lookup_alter_eq, Hp|]. split; [done|].
    intros v Hs.
    destruct (change_event_calls _ _ _ _ _ g v Hw2 eq_refl Hs) as (w3 & Hd & Ht').
    eexists w3, _. split; [exact Hd|]. split; [exact Ht'|]. done.
Qed.

(** ** Numbers the entry cannot read *)

Lemma parseFloat_NaN s : starts_number s = false → parseFloat s = NaN.
Proof.
  unfold starts_number, parseFloat. destruct (trim_start s) as [|c r]; [done|].
  destruct c as [[] [] [] [] [] [] [] []]; intros H;
    first [ discriminate H | reflexivity ].
Qed.

(** C7.  [value()] of a [Number] or a [Range] is [parseFloat] of the string
    the control holds; when the string is not a number that is [NaN], and an
    [input] event writes this [NaN] to [target[property]] without an
    exception. *)
Theorem unparsable_entry w this p target property ie s :
  wired w this p target property → cls p = "Number" ∨ cls p = "Range" →
  nodes w !! input p = Some ie → prop_of ie "value" = VString s →
  (∃ w1, call_value classes this w = (Ok (VNumber (parseFloat s)), w1)) ∧
  (starts_number s = false → parseFloat s = NaN) ∧
  (parseFloat s = NaN →
   ∃ w' o,
     dispatchEvent classes (input p) "input" w = (Ok tt, w') ∧
     objects w !! target = Some o ∧
     objects w' = <[target := <[property := VNumber NaN]> o]> (objects w) ∧
     trace w' = trace w ++ [CallValue this; CallUpdate this (VNumber NaN);
                             SetProperty target property (VNumber NaN)]
                        ++ callback_call (_onInput p) (VNumber NaN) ∧
     reported w' = reported w).
Proof.
  intros Hw Hc Hi Hv.
  assert (Hs : shows w p (VNumber (parseFloat s))).
  { destruct Hc; [by eapply shows_Number | by eapply shows_Range]. }
  split; [|split].
  - destruct w as [ns os ps pls nr tr rp]. eexists. by eapply call_value_shows.
  - apply parseFloat_NaN.
  - intros HN. rewrite HN in Hs.
    destruct (input_event_ok _ _ _ _ _ _ Hw Hs) as (w' & o & ? & ? & ? & ? & ? & _).
    by exists w', o.
Qed.

(** ** A widget just constructed is bound *)

Lemma wired_row B n parent kids i extra c vs oi oc os ps pls nr tr rp target property :
  length B = n → is_Some (os !! target) →
  el_tag i = call_tag classes c →
  listeners_for "input" i = [InputListener (length ps) target property] →
  listeners_for "change" i = [ChangeListener (length ps)] →
  (c = "Range" → ∃ se, vs = Some (n + 4) ∧ extra !! 0 = Some se ∧ el_children se = []) →
  wired (World (B ++ row_nodes parent n kids i ++ extra) os
           (ps ++ [Param c n (n + 1) (n + 2) (n + 3) vs oi oc]) pls nr tr rp)
    (length ps) (Param c n (n + 1) (n + 2) (n + 3) vs oi oc) target property.
Proof.
  intros HB Ho Ht Hli Hlc Hr. split; [|split; [|split]]; cbn [params objects nodes cls input valueSpan].
  - apply lookup_new.
  - done.
  - exists i. split; [|done]. by rewrite lookup_at by done.
  - intros Hc. destruct (Hr Hc) as (se & -> & Hse & Hch). exists (n + 4), se.
    split; [done|]. split; [lia|]. split; [|done].
    rewrite lookup_at by done. exact Hse.
Qed.


(** C6.  A [Range] constructed with min 0, max 10, step 1 over the initial
    value 3 has the value 3; once the slider is set to the string 7 and an
    [input] event is fired, its value is 7, [target[property]] is 7 and the
    readout shows the text 7. *)
Theorem range_example w parent target property o :
  container (nodes w) parent → container (nodes w) head →
  objects w !! target = Some o → o !! property = Some (num 3) →
  ∃ this p w1 w2 w3 span se o',
    new_InputParam classes "Range" parent target property [num 0; num 10; num 1] w
      = (Ok this, w1) ∧
    params w1 !! this = Some p ∧
    (call_value classes this w1).1 = Ok (num 3) ∧
    set_property (input p) "value" (VString "7") w1 = (Ok tt, w2) ∧
    dispatchEvent classes (input p) "input" w2 = (Ok tt, w3) ∧
    (call_value classes this w3).1 = Ok (num 7) ∧
    objects w3 !! target = Some o' ∧ o' !! property = Some (num 7) ∧
    valueSpan p = Some span ∧ nodes w3 !! span = Some se ∧
    prop_of se "textContent" = VString "7".
Proof.
  destruct w as [ns os ps pls nr tr rp]. cbn [nodes objects].
  intros Hc Hh Ho Hv.
  set (n := length ns). set (this := length ps).
  set (p := Param "Range" n (n + 1) (n + 2) (n + 3) (Some (n + 4)) None None).
  rewrite (new_Range_ok _ _ _ _ _ _ _ _ _ _ _ o) by done. rewrite Hv. cbn [default from_option nth].
  fold n this p.
  set (B := alter (add_child (n + 5)) head (alter (add_child n) parent ns)).
  assert (HB : length B = n) by (unfold B; solve_len).
  assert (Hot : is_Some (os !! target)) by eauto.
  match goal with |- context [Range_control n this target property ?a ?b ?c ?d] =>
    set (i1 := Range_control n this target property a b c d) end.
  match goal with |- context [World ?a ?b ?c ?d ?e ?f ?g] => set (w1 := World a b c d e f g) end.
  assert (Hw1 : wired w1 this p target property).
  { apply wired_row; try done.
    intros _. by eexists. }
  assert (Hs1 : shows w1 p (num 3)).
  { eapply (shows_Range _ _ i1 "3"); [done| |done].
    unfold w1. cbn [nodes input p]. by rewrite lookup_at by done. }
  set (i2 := with_prop "value" (VString "7") i1).
  set (w2 := World (B ++ row_nodes parent n [n + 3; n + 4] i2
                    ++ [Range_span n (VNumber (parseFloat (input_text (num 3)))); thumb_node])
               (objects w1) (params w1) (panels w1) (next_ref w1) (trace w1) (reported w1)).
  assert (Hset : set_property (input p) "value" (VString "7") w1 = (Ok tt, w2)).
  { unfold w1, w2. cbn [input p]. erewrite set_property_plain; [| by rewrite lookup_at by done | done].
    rewrite alter_at by done. reflexivity. }
  assert (Hw2 : wired w2 this p target property).
  { apply wired_row; try done.
    intros _. by eexists. }
  assert (Hs2 : shows w2 p (num 7)).
  { eapply (shows_Range _ _ i2 "7"); [done| |done].
    unfold w2. cbn [nodes input p]. by rewrite lookup_at by done. }
  destruct (input_event_ok _ _ _ _ _ _ Hw2 Hs2)
    as (w3 & o2 & Hd & Ho2 & Hos & Htr & Hrp & Hps & Hns & Hw3 & _).
  assert (Hs3 : shows w3 p (num 7)).
  { eapply (shows_Range _ _ i2 "7"); [done| |done].
    rewrite Hns. unfold updated, w2. cbn [nodes input valueSpan cls p].
    rewrite bool_decide_eq_true_2 by done.
    rewrite list_lookup_alter_ne by lia. by rewrite lookup_at by done. }
  exists this, p, w1, w2, w3, (n + 4),
    (with_text "7" (Range_span n (VNumber (parseFloat (input_text (num 3)))))),
    (<[property := num 7]> o).
  split_and!; try done.
  - unfold w1. cbn [params]. apply lookup_new.
  - unfold w1 in *. by erewrite call_value_shows.
  - destruct w3. by erewrite call_value_shows.
  - rewrite Hos. unfold w2, w1. cbn [objects]. cbn [objects w2 w1] in Ho2.
    rewrite Ho in Ho2. injection Ho2 as <-.
    apply list_lookup_insert_eq. by eapply lookup_lt_Some.
  - by rewrite lookup_insert_eq.
  - rewrite Hns. unfold updated, w2. cbn [nodes input valueSpan cls p].
    rewrite bool_decide_eq_true_2 by done.
    rewrite list_lookup_alter_eq. by rewrite (lookup_at B _ n 4) by done.
Qed.

(** ** Classes that leave a hook out *)

(** C3.  Whatever the classes of the program are, the constructor of a class
    without [setup] throws the error of [InputParam.setup] when it calls the
    hook, and the constructor of a class with [setup] and without [value]
    throws the error of [InputParam.value] as soon as [setup] has returned;
    an exception of [setup] itself leaves the constructor as well.  A class
    without [update] inherits the one that does nothing. *)
Theorem missing_hook_fails ct c parent target property args w pe o :
  nodes w !! parent = Some pe → objects w !! target = Some o →
  let this := length (params w) in
  let initial := default VUndefined (o !! property) in
  ∃ w0,
    trace w0 = trace w ++ [CallSetup this initial args] ∧
    (setup_hook (ct c) = None →
     new_InputParam ct c parent target property args w
       = (Throw (not_implemented "setup()"), w0)) ∧
    (∀ s w1 p1,
       setup_hook (ct c) = Some s → value_hook (ct c) = None →
       s this initial args w0 = (Ok tt, w1) →
       params w1 !! this = Some p1 → cls p1 = c →
       new_InputParam ct c parent target property args w
         = (Throw (not_implemented "value()"),
            set_trace (λ t, t ++ [CallValue this]) w1)) ∧
    (∀ s e w1,
       setup_hook (ct c) = Some s →
       s this initial args w0 = (Throw e, w1) →
       new_InputParam ct c parent target property args w = (Throw e, w1)) ∧
    (update_hook (ct c) = None →
     ∀ v w1 p1, params w1 !! this = Some p1 → cls p1 = c →
       call_update ct this v w1 = (Ok tt, set_trace (λ t, t ++ [CallUpdate this v]) w1)).
Proof.
  destruct w as [ns os ps pls nr tr rp]. cbn [nodes objects params trace].
  intros Hp Ho. cbv zeta.
  set (this := length ps). set (initial := default VUndefined (o !! property)).
  destruct (new_InputParam_prologue ct c parent target property args
              ns pe o os ps pls nr tr rp Hp Ho) as (B & HB & _ & ->).
  fold this initial.
  eexists (World _ os _ pls nr (tr ++ [CallSetup this initial args]) rp).
  split; [done|]. split; [|split; [|split]].
  - intros Hs. unfold call_setup. step get_param_ok. step_log. cbn [cls].
    rewrite Hs. reflexivity.
  - intros s w1 p1 Hs Hv Hrun Hp1 Hc1.
    unfold call_setup. step get_param_ok. step_log. cbn [cls]. rewrite Hs.
    erewrite bind_ok by exact Hrun.
    destruct w1 as [ns1 os1 ps1 pls1 nr1 tr1 rp1]. cbn [params] in Hp1.
    unfold call_value. step get_param_ok. step_log. rewrite Hc1, Hv. reflexivity.
  - intros s e w1 Hs Hrun.
    unfold call_setup. step get_param_ok. step_log. cbn [cls]. rewrite Hs.
    by erewrite bind_throw by exact Hrun.
  - intros Hu v [ns1 os1 ps1 pls1 nr1 tr1 rp1] p1 Hp1 Hc1. cbn [params] in Hp1.
    unfold call_update. step get_param_ok. step_log. rewrite Hc1, Hu. reflexivity.
Qed.

(** ** The style node of each Range *)

Lemma is_thumb_rule_alter f (ns : list element) m c :
  (∀ e, el_tag (f e) = el_tag e ∧ el_props (f e) = el_props e) →
  is_thumb_rule (alter f m ns) c = is_thumb_rule ns c.
Proof.
  intros Hf. unfold is_thumb_rule. rewrite list_lookup_alter.
  case_decide as Hm; [subst m|done].
  destruct (ns !! c) as [e|]; [|done]. cbn. by destruct (Hf e) as [-> ->].
Qed.

Lemma is_thumb_rule_base (B T : list element) c :
  c < length B → is_thumb_rule (B ++ T) c = is_thumb_rule B c.
Proof. intros Hc. unfold is_thumb_rule. by rewrite lookup_app_l. Qed.

Lemma is_thumb_rule_thumb (B T : list element) n k :
  length B = n → T !! k = Some thumb_node → is_thumb_rule (B ++ T) (n + k) = true.
Proof.
  intros HB Hk. unfold is_thumb_rule. rewrite lookup_at, Hk by done.
  unfold thumb_node. cbn [el_tag el_props]. rewrite lookup_insert_eq.
  by rewrite !bool_decide_eq_true_2.
Qed.

Lemma new_Range_rule parent target property args w :
  container (nodes w) parent → head_ok w → is_Some (objects w !! target) →
  ∃ this w',
    new_InputParam classes "Range" parent target property args w = (Ok this, w') ∧
    nodes w' !! (length (nodes w) + 5) = Some thumb_node ∧
    thumb_rules w' = thumb_rules w ++ [length (nodes w) + 5] ∧
    head_ok w' ∧ objects w' = objects w ∧
    (∀ m, container (nodes w) m → container (nodes w') m).
Proof.
  destruct w as [ns os ps pls nr tr rp]. cbn [nodes objects].
  intros Hc (he & Hhe & Hht & Hch) [o Ho]. cbn [nodes] in Hhe, Hch.
  assert (Hh : container ns head) by (by exists he).
  eexists _, _. split; [by eapply new_Range_ok|].
  set (n := length ns). cbn [nodes objects].
  set (g := add_child n). set (f := add_child (n + 5)).
  set (B := alter f head (alter g parent ns)).
  assert (HB : length B = n) by (unfold B; solve_len).
  assert (Hfg : ∀ h, h = f ∨ h = g →
                     ∀ e, el_tag (h e) = el_tag e ∧ el_props (h e) = el_props e).
  { by intros h [-> | ->] e. }
  split; [by rewrite (lookup_at B _ n 5) by done|].
  assert (HBh : ∃ kids, B !! head = Some (with_children (el_children he ++ kids ++ [n + 5])
                                             he) ∧
                        List.filter (is_thumb_rule (B ++ row_nodes parent n [n + 3; n + 4]
                          (Range_control n (length ps) target property
                             (default VUndefined (o !! property)) (nth 0 args VUndefined)
                             (nth 1 args VUndefined) (nth 2 args VUndefined))
                          ++ [Range_span n (VNumber (parseFloat (input_text
                                (default VUndefined (o !! property))))); thumb_node])) kids = []
                        ∧ Forall (λ c, c < n + 6) kids).
  { unfold B. rewrite list_lookup_alter_eq. destruct (decide (parent = head)) as [->|Hne].
    - exists [n]. rewrite list_lookup_alter_eq, Hhe. cbn. split; [|split].
      + unfold f, g, add_child, with_children. cbn. by rewrite <- app_assoc.
      + unfold is_thumb_rule. fold f g B. by rewrite lookup_at0 by done.
      + repeat constructor. lia.
    - exists []. rewrite list_lookup_alter_ne, Hhe by done. by split. }
  destruct HBh as (kids & HBh & Hkids & Hlt).
  split; [|split; [|split]].
  - unfold thumb_rules. cbn [nodes]. fold n g f B.
    erewrite lookup_base by exact HBh. rewrite Hhe. cbn [el_children with_children].
    rewrite !List.filter_app, Hkids. cbn [app]. f_equal.
    + apply List.filter_ext_in. intros c Hin%list_elem_of_In.
      rewrite Forall_forall in Hch. apply (Hch c) in Hin. fold n in Hin.
      rewrite is_thumb_rule_base by lia. unfold B.
      rewrite !is_thumb_rule_alter; [done|apply Hfg; by right|apply Hfg; by left].
    + cbn [List.filter]. by rewrite (is_thumb_rule_thumb B _ n 5) by done.
  - exists (with_children (el_children he ++ kids ++ [n + 5]) he).
    cbn [nodes]. fold n g f B. split; [by apply lookup_base|]. split; [done|].
    cbn [el_children with_children]. rewrite !length_app, HB. cbn [length row_nodes].
    rewrite !Forall_app. split; [|split].
    + eapply Forall_impl; [exact Hch|]. fold n. cbn. lia.
    + eapply Forall_impl; [exact Hlt|]. cbn. lia.
    + repeat constructor. lia.
  - done.
  - intros m Hm. fold n g f B. apply container_base. unfold B.
    apply container_alter; [apply Hfg; by left|].
    apply container_alter; [apply Hfg; by right|]. done.
Qed.

(** C8.  Each construction of a [Range] appends to [document.head] a new
    style node that holds the rule of the slider thumb, whether the rule is
    already there or not: after a series of constructions the head holds
    one more copy for each. *)
Theorem thumb_rule_per_instance w :
  head_ok w →
  (∀ parent target property args,
     container (nodes w) parent → is_Some (objects w !! target) →
     ∃ this w',
       new_InputParam classes "Range" parent target property args w = (Ok this, w') ∧
       nodes w' !! (length (nodes w) + 5) = Some thumb_node ∧
       thumb_rules w' = thumb_rules w ++ [length (nodes w) + 5]) ∧
  (∀ requests,
     Forall (λ r : node * nat * string * list value,
               container (nodes w) r.1.1.1 ∧ is_Some (objects w !! r.1.1.2)) requests →
     ∃ widgets w',
       new_Ranges requests w = (Ok widgets, w') ∧
       length widgets = length requests ∧
       length (thumb_rules w') = length (thumb_rules w) + length requests).
Proof.
  intros Hh. split.
  - intros parent target property args Hc Ho.
    destruct (new_Range_rule parent target property args w Hc Hh Ho)
      as (this & w' & ? & ? & ? & _). eauto.
  - intros requests. revert w Hh.
    induction requests as [|[[[parent target] property] args] rest IH]; intros w Hh Hall.
    + exists [], w. split; [done|]. cbn. split; [done|lia].
    + apply Forall_cons in Hall as [[Hc Ho] Hall]. cbn [fst snd] in Hc, Ho.
      destruct (new_Range_rule parent target property args w Hc Hh Ho)
        as (this & w1 & Hrun & _ & Hrules & Hh1 & Hos & Hcs).
      destruct (IH w1 Hh1) as (widgets & w' & Hrest & Hlen & Hcount).
      { eapply Forall_impl; [exact Hall|]. intros r [? ?]. split; [by apply Hcs|].
        by rewrite Hos. }
      exists (this :: widgets), w'. cbn [new_Ranges].
      erewrite bind_ok by exact Hrun. erewrite bind_ok by exact Hrest.
      split; [done|]. cbn [length]. rewrite Hlen, Hcount, Hrules, length_app. cbn. lia.
Qed.

(** ** What keeps the flags of the nodes *)

Lemma nkeeps_refl N ns : nkeeps N ns ns.
Proof. split; [done|]. eauto. Qed.

Lemma nkeeps_trans N ns1 ns2 ns3 :
  nkeeps N ns1 ns2 → nkeeps N ns2 ns3 → nkeeps N ns1 ns3.
Proof.
  intros [Hl1 H1] [Hl2 H2]. split; [lia|]. intros n e Hn He.
  destruct (H1 n e Hn He) as (e2 & He2 & Hf2).
  destruct (H2 n e2 Hn He2) as (e3 & He3 & Hf3). exists e3. split; [done|congruence].
Qed.

Lemma nkeeps_alter N f m ns :
  N ≤ m ∨ (∀ e, flags (f e) = flags e) → nkeeps N ns (alter f m ns).
Proof.
  intros Hf. split; [by rewrite length_alter|]. intros n e Hn He.
  rewrite list_lookup_alter. case_decide as Hm.
  - subst m. rewrite He. exists (f e). split; [done|]. destruct Hf as [?|Hf]; [lia|apply Hf].
  - eauto.
Qed.

Lemma nkeeps_app N ns l : nkeeps N ns (ns ++ l).
Proof.
  split; [rewrite length_app; lia|]. intros n e Hn He. exists e.
  split; [by apply lookup_base|done].
Qed.

Lemma nkeeps_foldr_alter N (f : nat → element → element) l ns :
  (∀ m e, flags (f m e) = flags e) →
  nkeeps N ns (foldr (λ m acc, alter (f m) m acc) ns l).
Proof.
  intros Hf. induction l as [|m l IH]; cbn [foldr]; [apply nkeeps_refl|].
  eapply nkeeps_trans; [exact IH|]. apply nkeeps_alter. right. apply Hf.
Qed.

Lemma flags_with_prop key v e : key ≠ "open" → flags (with_prop key v e) = flags e.
Proof.
  intros Hk. unfold flags, expanded, visible, with_prop. cbn.
  by rewrite lookup_insert_ne.
Qed.

Lemma flags_with_text s e : flags (with_text s e) = flags e.
Proof. unfold with_text. by rewrite <- (flags_with_prop "textContent" (VString s) e). Qed.

Lemma apply_style_display st attrs :
  no_display attrs = true → apply_style st attrs !! "display" = st !! "display".
Proof.
  unfold apply_style. revert st. induction attrs as [|[k v] attrs IH]; intros st H; [done|].
  cbn in H. apply andb_true_iff in H as [Hk H]. cbn [foldl]. rewrite IH by done.
  apply lookup_insert_ne. cbn. apply negb_true_iff in Hk. by apply bool_decide_eq_false in Hk.
Qed.

Lemma flags_restyle attrs e : no_display attrs = true → flags (restyle attrs e) = flags e.
Proof.
  intros H. unfold flags, expanded, visible, restyle. cbn.
  by rewrite apply_style_display.
Qed.

Lemma nkeeps_select_only N keep opts ns : nkeeps N ns (select_only keep opts ns).
Proof.
  unfold select_only.
  apply (nkeeps_foldr_alter N (λ o, with_prop "selected" (VBool (bool_decide (o = keep))))).
  intros m e. by apply flags_with_prop.
Qed.

Lemma nkeeps_reset N sel ns : nkeeps N ns (reset_selectedness sel ns).
Proof.
  unfold reset_selectedness.
  destruct (List.filter _ _); [destruct (options_of ns sel)|].
  - apply nkeeps_refl.
  - apply nkeeps_alter. right. intros e. by apply flags_with_prop.
  - apply nkeeps_select_only.
Qed.

Lemma nkeeps_detach N child ns : nkeeps N ns (detach child ns).
Proof.
  unfold detach. destruct (ns !! child) as [c|]; [|apply nkeeps_refl].
  destruct (el_parent c); [|apply nkeeps_refl].
  eapply nkeeps_trans; apply nkeeps_alter; by right.
Qed.

(** ** Computations that keep the flags *)

Lemma keeps_refl N P w : keeps N P w w.
Proof. split; [apply nkeeps_refl|]. split; [done|]. eauto. Qed.

Lemma keeps_trans N P w1 w2 w3 : keeps N P w1 w2 → keeps N P w2 w3 → keeps N P w1 w3.
Proof.
  intros (Hn1 & Hl1 & H1) (Hn2 & Hl2 & H2). split; [by eapply nkeeps_trans|].
  split; [lia|]. intros f p Hf Hp.
  destruct (H1 f p Hf Hp) as (p2 & Hp2 & Hd2).
  destruct (H2 f p2 Hf Hp2) as (p3 & Hp3 & Hd3). exists p3. split; [done|congruence].
Qed.

Lemma pres_ret {A} N P (a : A) (Q : A → Prop) : Q a → pres N P (ret a) Q.
Proof. intros Ha w _ _. split; [apply keeps_refl|]. by intros ? [= <-]. Qed.


Lemma pres_bind {A B} N P (c : M A) (k : A → M B) (Q : A → Prop) (Q' : B → Prop) :
  pres N P c Q → (∀ a, Q a → pres N P (k a) Q') → pres N P (bind c k) Q'.
Proof.
  intros Hc Hk w HN HP. destruct (Hc w HN HP) as [Hk1 Hq]. unfold bind.
  destruct (c w) as [[a|e] w1]; cbn [fst snd] in *.
  - destruct Hk1 as (Hn & Hl & Hp).
    destruct (Hk a (Hq a eq_refl) w1) as [Hk2 Hq2]; [destruct Hn; lia | lia |].
    split; [|done]. eapply keeps_trans; [|exact Hk2]. done.
  - split; [done|]. by intros ? [=].
Qed.

Lemma pres_weaken {A} N P (c : M A) (Q Q' : A → Prop) :
  pres N P c Q → (∀ a, Q a → Q' a) → pres N P c Q'.
Proof. intros Hc HQ w HN HP. destruct (Hc w HN HP). split; [done|]. eauto. Qed.

Lemma pres_nodes N P (g : list element → list element) :
  (∀ ns, N ≤ length ns → nkeeps N ns (g ns)) →
  pres N P (modify (set_nodes g)) (λ _, True).
Proof.
  intros Hg w HN HP. split; [|done]. split; [by apply Hg|]. split; [done|]. eauto.
Qed.

Lemma pres_read {A} N P (c : M A) (Q : A → Prop) :
  (∀ w, (c w).2 = w) → (∀ w a, (c w).1 = Ok a → Q a) → pres N P c Q.
Proof.
  intros Hw HQ w _ _. rewrite Hw. split; [apply keeps_refl|]. apply HQ.
Qed.

Lemma pres_get_node N P n : pres N P (get_node n) (λ _, True).
Proof. apply pres_read; [|done]. intros w. unfold get_node. by destruct (_ !! _). Qed.











Lemma pres_createElement N P tag : pres N P (createElement tag) (λ res, N ≤ res).
Proof.
  intros w HN HP. unfold createElement. cbn. split; [|by intros ? [= <-]].
  split; [apply nkeeps_app|]. split; [done|]. eauto.
Qed.

Lemma pres_alter_node N P f n :
  N ≤ n ∨ (∀ e, flags (f e) = flags e) → pres N P (alter_node f n) (λ _, True).
Proof.
  intros Hf. unfold alter_node. eapply pres_bind; [apply pres_get_node|]. intros _ _.
  apply pres_nodes. intros ns _. by apply nkeeps_alter.
Qed.

Lemma pres_assign_style N P n attrs :
  N ≤ n ∨ no_display attrs = true → pres N P (assign_style n attrs) (λ _, True).
Proof.
  intros H. apply pres_alter_node. destruct H; [by left|right].
  intros e. by apply flags_restyle.
Qed.


Ltac flags_same :=
  intros; first [ apply flags_with_text | by apply flags_with_prop | done ].

Ltac nk side :=
  lazymatch goal with
  | |- nkeeps _ ?ns ?ns => apply nkeeps_refl
  | |- nkeeps _ _ (reset_selectedness _ _) =>
      eapply nkeeps_trans; [|apply nkeeps_reset]; nk side
  | |- nkeeps _ _ (select_only _ _ _) =>
      eapply nkeeps_trans; [|apply nkeeps_select_only]; nk side
  | |- nkeeps _ _ (detach _ _) =>
      eapply nkeeps_trans; [|apply nkeeps_detach]; nk side
  | |- nkeeps _ _ (alter _ _ _) =>
      eapply nkeeps_trans; [|apply nkeeps_alter; side]; nk side
  | |- nkeeps _ _ (foldr (alter ?f) _ _) =>
      eapply nkeeps_trans; [|apply (nkeeps_foldr_alter _ (λ _, f)); flags_same]; nk side
  | |- nkeeps _ _ (match _ with _ => _ end) => case_match; nk side
  | |- nkeeps _ _ _ => cbn zeta; nk side
  end.

Lemma nkeeps_moved N parent child ns : nkeeps N ns (moved parent child ns).
Proof. unfold moved. nk ltac:(right; flags_same). Qed.

Lemma pres_appendChild N P parent child : pres N P (appendChild parent child) (λ _, True).
Proof.
  unfold appendChild. eapply pres_bind; [apply pres_get_node|]. intros _ _.
  eapply pres_bind; [apply pres_get_node|]. intros _ _.
  apply pres_nodes. intros ns _. apply nkeeps_moved.
Qed.


(** ** The toolkit keeps the flags *)

Ltac pb lem := eapply pres_bind; [apply lem | intros ? ?].
Ltac pw lem := eapply pres_weaken; [apply lem | done].

Section Pres.
Context (N P : nat).

Lemma pres_css res attrs :
  N ≤ res ∨ no_display attrs = true → pres N P (css res attrs) (λ _, True).
Proof. apply pres_assign_style. Qed.

Lemma pres_spawn tag parent style : pres N P (spawn tag parent style) (λ res, N ≤ res).
Proof.
  unfold spawn. pb pres_createElement.
  eapply pres_bind; [|intros _ _].
  { destruct style; [apply pres_css; by left | by apply pres_ret]. }
  pb pres_appendChild. by apply pres_ret.
Qed.

Lemma pres_spawn_ tag parent style : pres N P (spawn tag parent style) (λ _, True).
Proof. pw pres_spawn. Qed.




































End Pres.

(** ** Folders *)

Lemma appendChild_ok parent child pe c ns os ps pls nr tr rp :
  ns !! parent = Some pe → ns !! child = Some c →
  appendChild parent child (World ns os ps pls nr tr rp) =
  (Ok tt, World (moved parent child ns) os ps pls nr tr rp).
Proof.
  intros Hp Hc. unfold appendChild. step get_node_ok. by step get_node_ok.
Qed.

Lemma plain_open tag : plain_key tag "open" = true.
Proof. unfold plain_key. by rewrite andb_false_r. Qed.

Lemma folder_state_nodes w f p d e :
  panels w !! f = Some p → details p = Some d → nodes w !! d = Some e →
  folder_state w f = Some (flags e).
Proof. intros Hp Hd He. unfold folder_state. rewrite Hp. cbn. rewrite Hd. cbn. by rewrite He. Qed.

Lemma folder_state_inv w f s :
  folder_state w f = Some s →
  ∃ p d e, panels w !! f = Some p ∧ details p = Some d ∧ nodes w !! d = Some e ∧
           flags e = s.
Proof.
  unfold folder_state. intros H.
  destruct (panels w !! f) as [p|] eqn:Hp; [|done]. cbn in H.
  destruct (details p) as [d|] eqn:Hd; [|done]. cbn in H.
  destruct (nodes w !! d) as [e|] eqn:He; [|done]. cbn in H.
  injection H as <-. by exists p, d, e.
Qed.

Lemma get_details_ok f p d ns os ps pls nr tr rp :
  pls !! f = Some p → details p = Some d →
  get_details f (World ns os ps pls nr tr rp) = (Ok d, World ns os ps pls nr tr rp).
Proof. intros Hp Hd. unfold get_details. step get_panel_ok. by rewrite Hd. Qed.


Lemma flags_display s e :
  flags (restyle [("display", s)] e) = ((flags e).1, negb (bool_decide (s = "none"))).
Proof.
  unfold flags, expanded, visible, restyle, apply_style. cbn.
  by rewrite lookup_insert_eq.
Qed.


Lemma Folder_show_hide (s : string) w f x v :
  folder_state w f = Some (x, v) →
  ∃ w', (d <- get_details f ;; assign_style d [("display", s)] ;;; ret f) w = (Ok f, w') ∧
        folder_state w' f = Some (x, negb (bool_decide (s = "none"))).
Proof.
  intros (p & d & e & Hp & Hd & He & Hf)%folder_state_inv.
  destruct w as [ns os ps pls nr tr rp]. cbn in Hp, He.
  erewrite bind_ok by (by eapply get_details_ok).
  erewrite bind_ok by (by eapply assign_style_ok).
  eexists. split; [reflexivity|].
  erewrite folder_state_nodes; [|exact Hp|exact Hd|cbn; by rewrite list_lookup_alter_eq, He].
  cbn. by rewrite flags_display, Hf.
Qed.



(** ** The options of a Select *)

Lemma filter_none {A} (f : A → bool) (l : list A) :
  (∀ x, x ∈ l → f x = false) → List.filter f l = [].
Proof.
  induction l as [|x l IH]; intros H; [done|]. cbn.
  rewrite (H x) by (by left). apply IH. intros y Hy. apply H. by right.
Qed.

Lemma filter_all {A} (f : A → bool) (l : list A) :
  (∀ x, x ∈ l → f x = true) → List.filter f l = l.
Proof.
  induction l as [|x l IH]; intros H; [done|]. cbn.
  rewrite (H x) by (by left). f_equal. apply IH. intros y Hy. apply H. by right.
Qed.

Lemma filter_index {A} (f : A → bool) (l : list A) ci c :
  (∀ i o, l !! i = Some o → f o = bool_decide (i = ci)) →
  l !! ci = Some c → List.filter f l = [c].
Proof.
  revert ci. induction l as [|x l IH]; intros ci H Hc; [done|]. cbn [List.filter].
  destruct ci as [|ci].
  - injection Hc as ->. rewrite (H 0 c) by done. cbn. f_equal.
    apply filter_none. intros y [i Hy]%list_elem_of_lookup. by rewrite (H (S i) y).
  - rewrite (H 0 x) by done. cbn. apply (IH ci); [|done].
    intros i o Ho. rewrite (H (S i) o) by done.
    apply bool_decide_ext. lia.
Qed.

Lemma select_only_in keep opts (ns : list element) o :
  NoDup opts → o ∈ opts →
  select_only keep opts ns !! o
  = with_prop "selected" (VBool (bool_decide (o = keep))) <$> ns !! o.
Proof.
  unfold select_only. induction opts as [|x opts IH]; intros Hnd Ho; [by apply elem_of_nil in Ho|].
  apply NoDup_cons in Hnd as [Hx Hnd]. cbn [foldr].
  apply elem_of_cons in Ho as [->|Ho].
  - rewrite list_lookup_alter_eq. f_equal. by apply select_only_other.
  - rewrite list_lookup_alter_ne by (intros ->; done). by apply IH.
Qed.

Lemma is_selected_with_prop b e (ns : list element) o :
  ns !! o = Some (with_prop "selected" (VBool b) e) → is_selected ns o = b.
Proof.
  intros H. unfold is_selected. rewrite H. unfold with_prop. cbn.
  rewrite lookup_insert_eq. by destruct b.
Qed.

Lemma option_value_with_prop key v e :
  key ≠ "value" → key ≠ "text" → option_value (with_prop key v e) = option_value e.
Proof.
  intros H1 H2. unfold option_value, with_prop. cbn. by rewrite !lookup_insert_ne.
Qed.

Lemma sel_gen_ext (ns : list element) sel ls ids ss f g :
  (∀ i, i < length ids → f i = g i) →
  sel_gen ns sel ls ids ss f → sel_gen ns sel ls ids ss g.
Proof.
  intros Hfg (Hse & Hnd & Hsel & Hlt & Hlen & Hall). split_and!; try done.
  intros i o Hi. destruct (Hall i o Hi) as (oe & s & ? & ? & ? & ? & ? & Hf).
  exists oe, s. split_and!; try done. rewrite Hf. apply Hfg. by eapply lookup_lt_Some.
Qed.

Lemma options_of_all (ns : list element) sel ls ids ss f :
  sel_gen ns sel ls ids ss f → options_of ns sel = ids.
Proof.
  intros ((se & Hse & _ & Hch & _) & _ & _ & _ & _ & Hall).
  unfold options_of. rewrite Hse, Hch. apply filter_all.
  intros o [i Hi]%list_elem_of_lookup.
  destruct (Hall i o Hi) as (oe & s & Hoe & _ & Ht & _).
  unfold is_option. rewrite Hoe. by apply bool_decide_eq_true.
Qed.

Lemma is_select_inv (ns : list element) sel ls ids ss f :
  sel_gen ns sel ls ids ss f → is_select ns sel = true.
Proof.
  intros ((se & Hse & Ht & _) & _). unfold is_select. rewrite Hse.
  by apply bool_decide_eq_true.
Qed.

Lemma selected_of (ns : list element) sel ls ids ss ci c :
  sel_gen ns sel ls ids ss (λ i, bool_decide (i = ci)) → ids !! ci = Some c →
  List.filter (is_selected ns) ids = [c].
Proof.
  intros (_ & _ & _ & _ & _ & Hall) Hc. apply (filter_index _ _ ci); [|done].
  intros i o Hi. by destruct (Hall i o Hi) as (oe & s & _ & _ & _ & _ & _ & ->).
Qed.

Lemma selected_none (ns : list element) sel ls ids ss :
  sel_gen ns sel ls ids ss (λ _, false) → List.filter (is_selected ns) ids = [].
Proof.
  intros (_ & _ & _ & _ & _ & Hall). apply filter_none.
  intros o [i Hi]%list_elem_of_lookup.
  by destruct (Hall i o Hi) as (oe & s & _ & _ & _ & _ & _ & ->).
Qed.

(** The value of the [<select>] is the encoded value of the selected
    option. *)
Lemma select_value_inv (ns : list element) sel ls ids ss ci s :
  sel_inv ns sel ls ids ss ci → ss !! ci = Some s → select_value ns sel = s.
Proof.
  intros [Hinv _] Hs. pose proof Hinv as (_ & _ & _ & _ & Hlen & Hall).
  assert (Hlt : ci < length ids) by (rewrite <- Hlen; by eapply lookup_lt_Some).
  destruct (lookup_lt_is_Some_2 ids ci Hlt) as [c Hc].
  unfold select_value. erewrite options_of_all, selected_of by done.
  destruct (Hall ci c Hc) as (oe & s' & Hoe & Hs' & _ & _ & Hv & _).
  unfold option_value_of. rewrite Hoe. congruence.
Qed.

Lemma select_value_none (ns : list element) sel ls ss ci :
  sel_inv ns sel ls [] ss ci → select_value ns sel = EmptyString.
Proof.
  intros [Hinv _]. unfold select_value. by erewrite options_of_all by done.
Qed.

(** An option may change what does not bear on its tag, its parent and its
    selection. *)
Lemma sel_gen_alter h (ns : list element) sel ls ids ss f i o s :
  sel_gen ns sel ls ids ss f → ids !! i = Some o →
  (∀ e, el_tag (h e) = el_tag e ∧ el_parent (h e) = el_parent e ∧
        el_props (h e) !! "selected" = el_props e !! "selected") →
  (∀ e, ns !! o = Some e → option_value (h e) = s) →
  sel_gen (alter h o ns) sel ls ids (<[i := s]> ss) f.
Proof.
  intros ((se & Hse & Ht & Hch & Hls) & Hnd & Hsel & Hlt & Hlen & Hall) Hi Hf Hs.
  assert (Hno : o ≠ sel).
  { intros ->. apply Hsel. by eapply list_elem_of_lookup_2. }
  split_and!; try done.
  - exists se. by rewrite list_lookup_alter_ne.
  - by rewrite length_alter.
  - by rewrite length_insert.
  - intros i' o' Hi'.
    destruct (Hall i' o' Hi') as (oe & s' & Hoe & Hs' & Hto & Hpo & Hvo & Hso).
    destruct (decide (o' = o)) as [->|Hne].
    + assert (i' = i) as -> by (by eapply NoDup_lookup).
      exists (h oe), s. rewrite list_lookup_alter_eq, Hoe. split; [done|].
      split; [apply list_lookup_insert_eq; rewrite Hlen; by eapply lookup_lt_Some|].
      destruct (Hf oe) as (Hft & Hfp & Hfs). split_and!; [congruence|congruence|by apply Hs|].
      rewrite <- Hso. unfold is_selected. rewrite list_lookup_alter_eq, Hoe. cbn.
      by rewrite Hfs.
    + exists oe, s'. rewrite list_lookup_alter_ne by done. split; [done|].
      assert (i' ≠ i) by (intros ->; congruence).
      split; [by rewrite list_lookup_insert_ne|]. split_and!; try done.
      rewrite <- Hso. unfold is_selected. by rewrite list_lookup_alter_ne.
Qed.

(** Selecting one option more. *)
Lemma sel_gen_select (ns : list element) sel ls ids ss f k o :
  sel_gen ns sel ls ids ss f → ids !! k = Some o →
  sel_gen (alter (with_prop "selected" (VBool true)) o ns) sel ls ids ss
          (λ i, bool_decide (i = k) || f i).
Proof.
  intros ((se & Hse & Ht & Hch & Hls) & Hnd & Hsel & Hlt & Hlen & Hall) Hk.
  assert (Hno : o ≠ sel).
  { intros ->. apply Hsel. by eapply list_elem_of_lookup_2. }
  split_and!; try done.
  - exists se. by rewrite list_lookup_alter_ne.
  - by rewrite length_alter.
  - intros i' o' Hi'.
    destruct (Hall i' o' Hi') as (oe & s' & Hoe & Hs' & Hto & Hpo & Hvo & Hso).
    destruct (decide (o' = o)) as [->|Hne].
    + assert (i' = k) as -> by (by eapply NoDup_lookup).
      exists (with_prop "selected" (VBool true) oe), s'.
      rewrite list_lookup_alter_eq, Hoe. split_and!; try done.
      * by rewrite option_value_with_prop.
      * rewrite bool_decide_eq_true_2 by done.
        eapply is_selected_with_prop. by rewrite list_lookup_alter_eq, Hoe.
    + exists oe, s'. rewrite list_lookup_alter_ne by done. split_and!; try done.
      assert (i' ≠ k) by (intros ->; congruence).
      rewrite bool_decide_eq_false_2 by done. cbn. rewrite <- Hso.
      unfold is_selected. by rewrite list_lookup_alter_ne.
Qed.

(** Making one option the only selected one. *)
Lemma sel_gen_select_only (ns : list element) sel ls ids ss f k o :
  sel_gen ns sel ls ids ss f → ids !! k = Some o →
  sel_gen (select_only o ids ns) sel ls ids ss (λ i, bool_decide (i = k)).
Proof.
  intros ((se & Hse & Ht & Hch & Hls) & Hnd & Hsel & Hlt & Hlen & Hall) Hk.
  split_and!; try done.
  - exists se. by rewrite select_only_other.
  - by rewrite select_only_length.
  - intros i' o' Hi'.
    destruct (Hall i' o' Hi') as (oe & s' & Hoe & Hs' & Hto & Hpo & Hvo & Hso).
    exists (with_prop "selected" (VBool (bool_decide (o' = o))) oe), s'.
    assert (Hlk : select_only o ids ns !! o'
                  = Some (with_prop "selected" (VBool (bool_decide (o' = o))) oe)).
    { rewrite select_only_in; [by rewrite Hoe|done|by eapply list_elem_of_lookup_2]. }
    split_and!; try done.
    + by rewrite option_value_with_prop.
    + erewrite is_selected_with_prop by exact Hlk. apply bool_decide_ext. split.
      * intros ->. by eapply NoDup_lookup.
      * intros ->. congruence.
Qed.

(** The selectedness algorithm keeps a single selection, and selects the
    first option when there is none. *)
Lemma reset_selectedness_inv (ns : list element) sel ls ids ss ci :
  sel_inv ns sel ls ids ss ci → ids ≠ [] →
  sel_inv (reset_selectedness sel ns) sel ls ids ss ci.
Proof.
  intros [Hinv Hci] Hne. split; [|done].
  assert (Hlt : ci < length ids) by (destruct ids; [done|cbn in *; lia]).
  destruct (lookup_lt_is_Some_2 ids ci Hlt) as [c Hc].
  unfold reset_selectedness. erewrite options_of_all, selected_of by done.
  cbn [List.last]. by eapply sel_gen_select_only.
Qed.

Lemma reset_selectedness_first (ns : list element) sel ls ids ss :
  sel_gen ns sel ls ids ss (λ _, false) →
  sel_inv (reset_selectedness sel ns) sel ls ids ss 0.
Proof.
  intros Hinv. split; [|lia].
  unfold reset_selectedness. erewrite options_of_all, selected_none by done.
  destruct ids as [|o ids'] eqn:Hids.
  - eapply sel_gen_ext; [|exact Hinv]. cbn. lia.
  - eapply sel_gen_ext; [|eapply (sel_gen_select _ _ _ _ _ _ 0); [exact Hinv|done]].
    intros i _. cbn. by rewrite orb_false_r.
Qed.

Lemma insert_last {A} (l : list A) k x y : length l = k → <[k := y]> (l ++ [x]) = l ++ [y].
Proof.
  intros <-. rewrite insert_app_r_alt by lia. by rewrite Nat.sub_diag.
Qed.

Lemma lookup_last {A} (l : list A) k x : length l = k → (l ++ [x]) !! k = Some x.
Proof. intros <-. apply lookup_new. Qed.

Lemma sel_gen_lookup (ns : list element) sel ls ids ss f i o :
  sel_gen ns sel ls ids ss f → ids !! i = Some o →
  ∃ oe, ns !! o = Some oe ∧ el_tag oe = "option" ∧ el_parent oe = Some sel.
Proof.
  intros (_ & _ & _ & _ & _ & Hall) Hi.
  destruct (Hall i o Hi) as (oe & s & ? & _ & ? & ? & _). by exists oe.
Qed.

(** A new option comes last, not selected. *)
Lemma sel_gen_append (ns : list element) sel ls ids ss f :
  sel_gen ns sel ls ids ss f →
  sel_gen (alter (add_child (length ns)) sel ns ++ [spawned "option" sel None])
    sel ls (ids ++ [length ns]) (ss ++ [EmptyString])
    (λ i, bool_decide (i < length ids) && f i).
Proof.
  intros ((se & Hse & Ht & Hch & Hls) & Hnd & Hsel & Hlt & Hlen & Hall).
  assert (Hs : sel < length ns) by (by eapply lookup_lt_Some).
  assert (Hfresh : length ns ∉ ids).
  { intros Hin. rewrite Forall_forall in Hlt. apply Hlt in Hin. lia. }
  split_and!.
  - exists (add_child (length ns) se).
    erewrite lookup_base by (by rewrite list_lookup_alter_eq, Hse).
    unfold add_child. cbn. by rewrite Hch.
  - apply NoDup_app. split; [done|]. split; [|apply NoDup_singleton].
    intros x Hx ->%list_elem_of_singleton. done.
  - intros [?| ->%list_elem_of_singleton]%elem_of_app; [done|lia].
  - rewrite length_app, length_alter. cbn. apply Forall_app. split.
    + eapply Forall_impl; [exact Hlt|]. cbn. lia.
    + apply Forall_singleton. lia.
  - rewrite !length_app. cbn. lia.
  - intros i o Hi. apply lookup_app_Some in Hi as [Hi|[Hge Hi]].
    + destruct (Hall i o Hi) as (oe & s & Hoe & Hs' & Hto & Hpo & Hvo & Hso).
      assert (o ≠ sel) by (intros ->; apply Hsel; by eapply list_elem_of_lookup_2).
      assert (Hlk : (alter (add_child (length ns)) sel ns ++ [spawned "option" sel None]) !! o
                    = Some oe).
      { apply lookup_base. by rewrite list_lookup_alter_ne. }
      exists oe, s. split_and!; try done.
      * by apply lookup_app_l_Some.
      * rewrite bool_decide_eq_true_2 by (by eapply lookup_lt_Some). cbn.
        rewrite <- Hso. unfold is_selected. by rewrite Hlk, Hoe.
    + apply list_lookup_singleton_Some in Hi as [Hi <-].
      assert (i = length ids) as -> by lia.
      assert (Hlk : (alter (add_child (length ns)) sel ns ++ [spawned "option" sel None])
                    !! length ns = Some (spawned "option" sel None)).
      { by rewrite lookup_at0 by solve_len. }
      exists (spawned "option" sel None), EmptyString. split_and!; try done.
      * rewrite lookup_app_r by lia. by rewrite Hlen, Nat.sub_diag.
      * rewrite bool_decide_eq_false_2 by lia. cbn.
        unfold is_selected. by rewrite Hlk.
Qed.

Lemma sel_inv_append (ns : list element) sel ls ids ss ci :
  sel_inv ns sel ls ids ss ci →
  sel_inv (reset_selectedness sel
             (alter (add_child (length ns)) sel ns ++ [spawned "option" sel None]))
    sel ls (ids ++ [length ns]) (ss ++ [EmptyString]) ci.
Proof.
  intros [Hinv Hci]. apply sel_gen_append in Hinv.
  destruct ids as [|o0 ids'] eqn:Hids.
  - assert (ci = 0) as -> by (cbn in Hci; lia).
    apply reset_selectedness_first. eapply sel_gen_ext; [|exact Hinv].
    intros i _. cbn. rewrite bool_decide_eq_false_2 by lia. done.
  - rewrite <- Hids in *. assert (Hlt : ci < length ids) by (subst ids; cbn in *; lia).
    apply reset_selectedness_inv; [|by subst ids].
    split; [|rewrite length_app; cbn; lia].
    eapply sel_gen_ext; [|exact Hinv]. intros i _. cbn.
    case_bool_decide; [done|]. cbn. symmetry. apply bool_decide_eq_false_2. lia.
Qed.

Lemma convert_option_value v :
  convert "option" "value" (JSON_stringify v) = VString (encoded v).
Proof. unfold encoded, JSON_stringify. by destruct (stringify v). Qed.

Lemma option_value_value s e : option_value (with_prop "value" (VString s) e) = s.
Proof. unfold option_value, with_prop. cbn. by rewrite lookup_insert_eq. Qed.

Lemma with_prop_keeps key v e :
  key ≠ "selected" →
  el_tag (with_prop key v e) = el_tag e ∧ el_parent (with_prop key v e) = el_parent e ∧
  el_props (with_prop key v e) !! "selected" = el_props e !! "selected".
Proof. intros. unfold with_prop. cbn. by rewrite lookup_insert_ne. Qed.

Lemma restyle_keeps attrs e :
  el_tag (restyle attrs e) = el_tag e ∧ el_parent (restyle attrs e) = el_parent e ∧
  el_props (restyle attrs e) !! "selected" = el_props e !! "selected".
Proof. done. Qed.

Section Options.
Context (os : list (gmap string value)) (ps : list param) (pls : list panel)
        (nr : nat) (tr : list event) (rp : list error).
Local Abbreviation W ns := (World ns os ps pls nr tr rp).
Implicit Types (ns : list element).

Lemma spawn_option ns sel se :
  ns !! sel = Some se → el_tag se = "select" →
  spawn "option" sel None (W ns) =
  (Ok (length ns),
   W (reset_selectedness sel
        (alter (add_child (length ns)) sel ns ++ [spawned "option" sel None]))).
Proof.
  intros Hse Ht. unfold spawn.
  unfold bind at 1, createElement at 1. wsimpl. unfold bind at 1. cbv beta.
  erewrite bind_ok by (by eapply appendChild_new).
  cbn zeta. rewrite bool_decide_eq_true_2 by done. reflexivity.
Qed.

Lemma set_property_selected ns n e p :
  ns !! n = Some e → el_parent e = Some p →
  is_select (alter (with_prop "selected" (VBool true)) n ns) p = true →
  set_property n "selected" (VBool true) (W ns) =
  (Ok tt,
   W (let ns1 := alter (with_prop "selected" (VBool true)) n ns in
      reset_selectedness p (select_only n (options_of ns1 p) ns1))).
Proof.
  intros He Hp Hs. unfold set_property. erewrite bind_ok by (by apply get_node_ok).
  cbn [bool_decide]. rewrite bool_decide_eq_false_2 by done.
  rewrite bool_decide_eq_true_2 by done. wsimpl. rewrite Hp. cbn [ToBoolean].
  by rewrite Hs.
Qed.

(** One turn of the loop of [Select.setup]. *)
Lemma Select_add_option_ok ns sel ls ids ss ci initial key v :
  sel_inv ns sel ls ids ss ci →
  ∃ ns', Select_add_option sel initial key v (W ns) = (Ok tt, W ns') ∧
         sel_inv ns' sel ls (ids ++ [length ns]) (ss ++ [encoded v])
           (if strict_eq v initial then length ids else ci).
Proof.
  intros Hinv. pose proof Hinv as [((se & Hse & Ht & _) & _ & _ & _ & Hlen & _) _].
  apply sel_inv_append in Hinv. set (m := length ns) in *.
  set (k := length ids).
  assert (Hk : (ids ++ [m]) !! k = Some m) by (unfold k; apply lookup_new).
  unfold Select_add_option.
  erewrite bind_ok by (by eapply spawn_option). fold m.
  set (ns1 := reset_selectedness _ _) in *.
  destruct Hinv as [Hinv Hci].
  (* option.text = key *)
  destruct (sel_gen_lookup _ _ _ _ _ _ _ _ Hinv Hk) as (e1 & He1 & Ht1 & Hp1).
  erewrite bind_ok by (eapply set_property_plain; [exact He1|rewrite Ht1; reflexivity]).
  eapply (sel_gen_alter (with_prop "text" (convert (el_tag e1) "text" (VString key)))
            _ _ _ _ _ _ k m
            (option_value (with_prop "text" (convert "option" "text" (VString key)) e1)))
    in Hinv;
    [|done|intros e; by apply with_prop_keeps
     |intros e' ?; rewrite Ht1; by replace e' with e1 by congruence].
  rewrite insert_last in Hinv by done.
  set (ns2 := alter _ m ns1) in *.
  (* option.value = JSON.stringify(value) *)
  destruct (sel_gen_lookup _ _ _ _ _ _ _ _ Hinv Hk) as (e2 & He2 & Ht2 & Hp2).
  erewrite bind_ok by (eapply set_property_plain; [exact He2|rewrite Ht2; reflexivity]).
  rewrite Ht2, convert_option_value.
  eapply (sel_gen_alter (with_prop "value" (VString (encoded v)))
            _ _ _ _ _ _ k m (encoded v)) in Hinv;
    [|done|intros e; by apply with_prop_keeps|intros e' _; apply option_value_value].
  rewrite insert_last in Hinv by done.
  set (ns3 := alter _ m ns2) in *.
  (* option.style *)
  destruct (sel_gen_lookup _ _ _ _ _ _ _ _ Hinv Hk) as (e3 & He3 & Ht3 & Hp3).
  erewrite bind_ok by (eapply assign_style_ok; exact He3).
  assert (Hv3 : option_value e3 = encoded v).
  { destruct Hinv as (_ & _ & _ & _ & _ & Hall).
    destruct (Hall k m Hk) as (oe & s & Hoe & Hs & _ & _ & Hv & _).
    rewrite lookup_last in Hs by done. congruence. }
  eapply (sel_gen_alter (restyle [("background", "#764ba2")]) _ _ _ _ _ _ k m (encoded v))
    in Hinv; [|done|intros e; by apply restyle_keeps
              |intros e' ?; by replace e' with e3 by congruence].
  rewrite insert_last in Hinv by done.
  set (ns4 := alter _ m ns3) in *.
  destruct (sel_gen_lookup _ _ _ _ _ _ _ _ Hinv Hk) as (e4 & He4 & Ht4 & Hp4).
  erewrite bind_ok by (eapply assign_style_ok; exact He4).
  assert (Hv4 : option_value e4 = encoded v).
  { destruct Hinv as (_ & _ & _ & _ & _ & Hall).
    destruct (Hall k m Hk) as (oe & s & Hoe & Hs & _ & _ & Hv & _).
    rewrite lookup_last in Hs by done. congruence. }
  eapply (sel_gen_alter (restyle [("color", "#fff")]) _ _ _ _ _ _ k m (encoded v))
    in Hinv; [|done|intros e; by apply restyle_keeps
              |intros e' ?; by replace e' with e4 by congruence].
  rewrite insert_last in Hinv by done.
  set (ns5 := alter _ m ns4) in *.
  (* if (value === initial) option.selected = true *)
  destruct (strict_eq v initial).
  - destruct (sel_gen_lookup _ _ _ _ _ _ _ _ Hinv Hk) as (e5 & He5 & Ht5 & Hp5).
    pose proof (sel_gen_select _ _ _ _ _ _ _ _ Hinv Hk) as Hinv1.
    erewrite set_property_selected; [|exact He5|exact Hp5|by eapply is_select_inv].
    eexists. split; [reflexivity|]. cbn zeta.
    erewrite options_of_all by exact Hinv1.
    apply reset_selectedness_inv; [|by destruct ids].
    split; [by eapply sel_gen_select_only|]. rewrite length_app. cbn. fold k. lia.
  - eexists. split; [reflexivity|]. done.
Qed.

(** The loop of [Select.setup]. *)
Lemma Select_add_options_ok initial entries : ∀ ns sel ls ids ss ci,
  sel_inv ns sel ls ids ss ci →
  ∃ ns' ids', Select_add_options sel initial entries (W ns) = (Ok tt, W ns') ∧
              length ids' = length entries ∧
              sel_inv ns' sel ls (ids ++ ids') (ss ++ map (λ kv, encoded kv.2) entries)
                (chosen_from initial ci (length ids) entries).
Proof.
  induction entries as [|[key v] rest IH]; intros ns sel ls ids ss ci Hinv.
  - exists ns, []. cbn. by rewrite !app_nil_r.
  - cbn [Select_add_options chosen_from].
    destruct (Select_add_option_ok ns sel ls ids ss ci initial key v Hinv)
      as (ns1 & Hrun & Hinv1).
    erewrite bind_ok by exact Hrun.
    destruct (IH _ _ _ _ _ _ Hinv1) as (ns' & ids' & Hrun' & Hlen & Hinv').
    exists ns', (length ns :: ids'). split; [exact Hrun'|]. split; [cbn; lia|].
    rewrite length_app in Hinv'. cbn [length] in Hinv'.
    rewrite Nat.add_1_r, <- !app_assoc in Hinv'. exact Hinv'.
Qed.

End Options.

Lemma call_tag_Select' : call_tag classes "Select" = "select".
Proof. reflexivity. Qed.

(** The constructor of a Select: the options are those of the entries, one is
    selected, and what [value()] makes of its text decides the outcome. *)
Lemma new_Select_run parent target property args ns os ps pls nr tr rp o entries :
  container ns parent → os !! target = Some o →
  Object_entries (nth 0 args VUndefined) = inr entries →
  let n := length ns in
  let this := length ps in
  let initial := default VUndefined (o !! property) in
  let p := Param "Select" n (n + 1) (n + 2) (n + 3) None None None in
  ∃ ns' ids,
    sel_inv ns' (n + 3)
      [("input", InputListener this target property); ("change", ChangeListener this)]
      ids (map (λ kv, encoded kv.2) entries) (chosen initial entries) ∧
    new_InputParam classes "Select" parent target property args
      (World ns os ps pls nr tr rp) =
    match JSON_parse (select_value ns' (n + 3)) with
    | inr j =>
        (Ok this,
         World ns' os (ps ++ [p]) pls (relabel j nr).2
           (tr ++ [CallSetup this initial args; CallValue this;
                   CallUpdate this (relabel j nr).1]) rp)
    | inl e =>
        (Throw e,
         World ns' os (ps ++ [p]) pls nr
           (tr ++ [CallSetup this initial args; CallValue this]) rp)
    end.
Proof.
  intros (pe & Hp & Ht) Ho He n this initial p. subst p.
  destruct (new_InputParam_prologue classes "Select" parent target property args
              ns pe o os ps pls nr tr rp Hp Ho) as (B & HB & HBc & ->).
  rewrite call_tag_Select'. clear HBc. fold n this initial in HB |- *.
  unfold row_nodes, control. cbn [app].
  unfold call_setup. enter_hook classes_Select. unfold Select_setup.
  step get_param_ok. cbn [input]. unfold css.
  step assign_style_ok. tail_norm. rewrite He.
  set (ls := [("input", InputListener this target property); ("change", ChangeListener this)]).
  match goal with |- context [World ?l _ _ _ _ _ _] => set (ns0 := l) end.
  assert (Hinv0 : sel_inv ns0 (n + 3) ls [] [] 0).
  { split; [|cbn; lia]. split_and!.
    - eexists. split; [unfold ns0; rewrite lookup_at by done; reflexivity|]. done.
    - apply NoDup_nil_2.
    - apply not_elem_of_nil.
    - apply Forall_nil_2.
    - done.
    - intros i o' Hi. by rewrite lookup_nil in Hi. }
  destruct (Select_add_options_ok os (ps ++ [Param "Select" n (n + 1) (n + 2) (n + 3)
                                                  None None None]) pls nr
              (tr ++ [CallSetup this initial args]) rp initial entries
              _ _ _ _ _ _ Hinv0) as (ns' & ids & Hrun & Hlen & Hinv).
  cbn [app length] in Hinv. fold (chosen initial entries) in Hinv.
  exists ns', ids. split; [exact Hinv|].
  erewrite bind_ok by exact Hrun.
  pose proof Hinv as [((se & Hse & Hts & _) & _) _].
  unfold call_value. enter_hook classes_Select. unfold Select_value.
  step get_param_ok. cbn [input].
  rewrite ?bind_assoc.
  erewrite bind_ok by (by eapply get_property_select). cbn [ToString].
  destruct (JSON_parse (select_value ns' (n + 3))) as [e|j].
  - unfold bind, throw. rewrite <- ?app_assoc. reflexivity.
  - unfold fresh at 1. unfold bind at 1. cbn [next_ref].
    destruct (relabel j nr) as [j' nr'] eqn:Hj. wsimpl.
    unfold call_update. enter_hook classes_Select. unfold InputParam_update.
    rewrite bind_ret. unfold ret. rewrite <- ?app_assoc. reflexivity.
Qed.

(** ** Which option is chosen *)

Lemma chosen_from_none V rest : ∀ c b,
  (∀ j kv, rest !! j = Some kv → strict_eq kv.2 V = false) →
  chosen_from V c b rest = c.
Proof.
  induction rest as [|[k v] rest IH]; intros c b H; [done|]. cbn [chosen_from].
  pose proof (H 0 (k, v) eq_refl) as H0. cbn in H0. rewrite H0. apply IH. intros j kv Hj. by apply (H (S j)).
Qed.

Lemma chosen_from_last V entries : ∀ c b i v,
  last_match entries V i v → chosen_from V c b entries = b + i.
Proof.
  induction entries as [|[k0 v0] rest IH]; intros c b i v ([k Hi] & Hv & Hlater).
  - by rewrite lookup_nil in Hi.
  - cbn [chosen_from]. destruct i as [|i].
    + injection Hi as -> ->. rewrite Hv, chosen_from_none; [lia|].
      intros j kv Hj. apply (Hlater (S j)); [lia|done].
    + rewrite (IH _ (S b) i v); [lia|]. split; [by exists k|]. split; [done|].
      intros j kv Hlt Hj. apply (Hlater (S j)); [lia|done].
Qed.

Lemma chosen_last V entries i v : last_match entries V i v → chosen V entries = i.
Proof. intros H. unfold chosen. by rewrite (chosen_from_last _ _ _ _ i v). Qed.


(** ** Copies have the structure of the original *)

Lemma relabel_struct_eq : ∀ x n y, struct_eq (relabel x n).1 y = struct_eq x y.
Proof.
  fix IH 1. intros [| |b|z|s|r items|r entries] n y; try reflexivity.
  - cbn [relabel].
    set (go := fix go (l : list value) (n : nat) : list value * nat :=
           match l with
           | [] => ([], n)
           | x :: l' =>
               let '(x', n1) := relabel x n in
               let '(l'', n2) := go l' n1 in (x' :: l'', n2)
           end).
    destruct (go items (S n)) as [items' n'] eqn:Hgo. cbn [fst].
    destruct y as [| |b|z|s|r' ys|r' ys]; try reflexivity. cbn [struct_eq].
    revert ys items' n' Hgo. generalize (S n). clear n.
    induction items as [|x items IHl]; intros m ys items' n' Hgo.
    + cbn in Hgo. by injection Hgo as <- <-.
    + cbn [go] in Hgo. fold go in Hgo.
      destruct (relabel x m) as [x' n1] eqn:Hx.
      destruct (go items n1) as [l'' n2] eqn:Hl. injection Hgo as <- <-.
      destruct ys as [|y ys]; [done|].
      rewrite <- (IH x m y), Hx. cbn [fst]. f_equal. by eapply IHl.
  - cbn [relabel].
    set (go := fix go (l : list (string * value)) (n : nat)
                 : list (string * value) * nat :=
           match l with
           | [] => ([], n)
           | (k, x) :: l' =>
               let '(x', n1) := relabel x n in
               let '(l'', n2) := go l' n1 in ((k, x') :: l'', n2)
           end).
    destruct (go entries (S n)) as [entries' n'] eqn:Hgo. cbn [fst].
    destruct y as [| |b|z|s|r' ys|r' ys]; try reflexivity. cbn [struct_eq].
    revert ys entries' n' Hgo. generalize (S n). clear n.
    induction entries as [|[k x] entries IHl]; intros m ys entries' n' Hgo.
    + cbn in Hgo. by injection Hgo as <- <-.
    + cbn [go] in Hgo. fold go in Hgo.
      destruct (relabel x m) as [x' n1] eqn:Hx.
      destruct (go entries n1) as [l'' n2] eqn:Hl. injection Hgo as <- <-.
      destruct ys as [|[k2 y] ys]; [done|].
      rewrite <- (IH x m y), Hx. cbn [fst]. f_equal. by eapply IHl.
Qed.

(** ** The constructor of Select *)

Lemma wired_select ns os ps pls nr tr rp n target property ids ss ci :
  is_Some (os !! target) →
  sel_inv ns (n + 3)
    [("input", InputListener (length ps) target property);
     ("change", ChangeListener (length ps))] ids ss ci →
  wired (World ns os (ps ++ [Param "Select" n (n + 1) (n + 2) (n + 3) None None None])
           pls nr tr rp)
    (length ps) (Param "Select" n (n + 1) (n + 2) (n + 3) None None None)
    target property.
Proof.
  intros Ho [((se & Hse & Ht & _ & Hls) & _) _]. split_and!.
  - apply lookup_new.
  - done.
  - exists se. cbn [nodes input cls]. split; [done|]. split; [by rewrite Ht|].
    unfold listeners_for. by rewrite Hls.
  - done.
Qed.

Lemma preselected_inv ns os ps pls nr tr rp p ls ids ss ci :
  sel_inv ns (input p) ls ids ss ci → ci < length ids →
  preselected (World ns os ps pls nr tr rp) p ci.
Proof.
  intros [((se & Hse & _ & Hch & _) & _ & _ & _ & _ & Hall) _] Hlt.
  exists se. cbn [nodes]. rewrite Hch. split_and!; try done.
  intros j o Hj. by destruct (Hall j o Hj) as (oe & s & _ & _ & _ & _ & _ & ->).
Qed.

Lemma options_show_inv ns os ps pls nr tr rp p ls ids entries ci :
  sel_inv ns (input p) ls ids (map (λ kv, encoded kv.2) entries) ci →
  options_show (World ns os ps pls nr tr rp) p entries.
Proof.
  intros [((se & Hse & _ & Hch & _) & _ & _ & _ & Hlen & Hall) _].
  exists se. cbn [nodes]. rewrite Hch. split_and!; try done.
  - by rewrite <- Hlen, length_map.
  - intros j o kv Hj Hkv. destruct (Hall j o Hj) as (oe & s & Hoe & Hs & _ & _ & Hv & _).
    unfold option_value_of. rewrite Hoe, Hv.
    rewrite list_lookup_fmap, Hkv in Hs. by injection Hs as <-.
Qed.

(** With an option strictly equal to the initial value, the last such option
    is selected and [value()] parses its text. *)
Lemma new_Select_ok parent target property args ns os ps pls nr tr rp o entries i v j :
  container ns parent → os !! target = Some o →
  Object_entries (nth 0 args VUndefined) = inr entries →
  let n := length ns in
  let this := length ps in
  let initial := default VUndefined (o !! property) in
  let p := Param "Select" n (n + 1) (n + 2) (n + 3) None None None in
  last_match entries initial i v → JSON_parse (encoded v) = inr j →
  ∃ ns' w1,
    w1 = World ns' os (ps ++ [p]) pls (relabel j nr).2
           (tr ++ [CallSetup this initial args; CallValue this;
                   CallUpdate this (relabel j nr).1]) rp ∧
    new_InputParam classes "Select" parent target property args
      (World ns os ps pls nr tr rp) = (Ok this, w1) ∧
    wired w1 this p target property ∧
    preselected w1 p i ∧ options_show w1 p entries ∧
    select_value ns' (n + 3) = encoded v ∧
    shows w1 p (relabel j (next_ref w1)).1.
Proof.
  intros Hc Ho He n this initial p Hm Hj.
  destruct (new_Select_run parent target property args ns os ps pls nr tr rp o entries
              Hc Ho He) as (ns' & ids & Hinv & Hrun).
  fold n this initial p in Hinv, Hrun.
  rewrite (chosen_last _ _ _ _ Hm) in Hinv.
  pose proof Hm as ([k Hi] & _).
  assert (Hs : map (λ kv : string * value, encoded kv.2) entries !! i = Some (encoded v)).
  { by rewrite list_lookup_fmap, Hi. }
  assert (Hv : select_value ns' (n + 3) = encoded v) by (by eapply select_value_inv).
  rewrite Hv, Hj in Hrun.
  assert (Hlt : i < length ids).
  { destruct Hinv as [(_ & _ & _ & _ & Hlen & _) _]. rewrite <- Hlen, length_map.
    by eapply lookup_lt_Some. }
  eexists ns', _. split; [reflexivity|]. split; [exact Hrun|].
  split_and!.
  - eapply wired_select; [by eauto|exact Hinv].
  - by eapply (preselected_inv _ _ _ _ _ _ _ p).
  - by eapply (options_show_inv _ _ _ _ _ _ _ p).
  - done.
  - apply shows_Select; [done|]. cbn [nodes input p]. by rewrite Hv.
Qed.

(** ** Values that survive their encoding *)

Lemma json_faithful_null : json_faithful VNull.
Proof. exists VNull. split; reflexivity. Qed.

Lemma json_faithful_bool b : json_faithful (VBool b).
Proof. exists (VBool b). destruct b; split; reflexivity. Qed.

(** [JSON.parse] reads back the escape of a code unit. *)
Lemma parse_quote_char c r :
  parse_string_body (quote_char c +:+ r)
  = prod_map (String c) id <$> parse_string_body r.
Proof.
  destruct c as [[] [] [] [] [] [] [] []]; reflexivity.
Qed.

Lemma append_assoc (a b c : string) : (a +:+ b) +:+ c = a +:+ (b +:+ c).
Proof.
  induction a as [|x a IH]; [reflexivity|].
  change (String x ((a +:+ b) +:+ c) = String x (a +:+ b +:+ c)). by rewrite IH.
Qed.

Lemma parse_quote_body s r :
  parse_string_body (quote_body s +:+ dq +:+ r) = Some (s, r).
Proof.
  induction s as [|c s IH]; cbn [quote_body]; [reflexivity|].
  rewrite append_assoc, parse_quote_char, IH. reflexivity.
Qed.

Lemma parse_value_string fuel body :
  parse_value (S fuel) (dq +:+ body) = prod_map VString id <$> parse_string_body body.
Proof. reflexivity. Qed.

(** Every string survives its encoding. *)
Lemma json_faithful_string s : json_faithful (VString s).
Proof.
  exists (VString s). split.
  - unfold encoded, JSON_stringify, JSON_parse. cbn [stringify ToString].
    unfold quote. rewrite parse_value_string.
    change (quote_body s +:+ dq) with (quote_body s +:+ dq +:+ EmptyString).
    rewrite parse_quote_body. reflexivity.
  - cbn. by apply bool_decide_eq_true.
Qed.

(** ** Select: preselection and round trip *)

(** C4, as the specification states it, fails: with the options
    [{A: 1, B: "x", C: [1,2]}] and an initial value that is another array
    [[1,2]], structurally equal to the value of option C, option C is not
    preselected; the first option stays selected and [value()] is 1. *)
Lemma structural_match_not_preselected :
  let options :=
    VObject 0 [("A", num 1); ("B", VString "x"); ("C", VArray 1 [num 1; num 2])] in
  let V := VArray 2 [num 1; num 2] in
  let w := initial_world [ {[ "p" := V ]} ] 3 in
  let w1 := after (new_InputParam classes "Select" body 0 "p" [options]) w in
  let p := Param "Select" 2 3 4 5 None None None in
  struct_eq (VArray 1 [num 1; num 2]) V = true ∧
  (new_InputParam classes "Select" body 0 "p" [options] w).1 = Ok 0 ∧
  params w1 !! 0 = Some p ∧
  ¬ preselected w1 p 2 ∧ preselected w1 p 0 ∧
  (call_value classes 0 w1).1 = Ok (num 1) ∧
  struct_eq (num 1) V = false.
Proof.
  intros options V w w1 p.
  assert (Hse : nodes w1 !! input p
                = Some (Element "select" (Some 4) [6; 7; 8]
                          (apply_style ∅ select_style) ∅
                          [("input", InputListener 0 0 "p");
                           ("change", ChangeListener 0)])) by (vm_compute; reflexivity).
  assert (H6 : is_selected (nodes w1) 6 = true) by (vm_compute; reflexivity).
  assert (H7 : is_selected (nodes w1) 7 = false) by (vm_compute; reflexivity).
  assert (H8 : is_selected (nodes w1) 8 = false) by (vm_compute; reflexivity).
  split; [reflexivity|]. split; [vm_compute; reflexivity|].
  split; [vm_compute; reflexivity|]. split_and!.
  - intros (se & Hse' & _ & H). rewrite Hse in Hse'. injection Hse' as <-.
    specialize (H 0 6 eq_refl). rewrite H6 in H. discriminate H.
  - eexists. split; [exact Hse|]. split; [cbn; lia|].
    intros [|[|[|j]]] o Hj; cbn in Hj; try discriminate Hj; injection Hj as <-;
      [exact H6|exact H7|exact H8].
  - vm_compute. reflexivity.
  - reflexivity.
Qed.

(** C4, amended.  A [Select] constructed with an options map whose entry of
    index [i] is the last one with a value strictly equal ([===]) to the
    initial value: its options are those of the entries, the option of index
    [i] and no other is selected, and [value()] without any interaction
    returns a value structurally equal to the value of that entry, provided
    the value survives its JSON encoding.  Equality for preselection is
    strict equality of the original values: value equality for primitive
    values, reference equality for arrays and objects. *)
Theorem select_round_trip w parent target property options o entries i v :
  container (nodes w) parent → objects w !! target = Some o →
  Object_entries options = inr entries →
  last_match entries (default VUndefined (o !! property)) i v →
  json_faithful v →
  ∃ this p w1 r,
    new_InputParam classes "Select" parent target property [options] w = (Ok this, w1) ∧
    params w1 !! this = Some p ∧
    options_show w1 p entries ∧ preselected w1 p i ∧
    select_value (nodes w1) (input p) = encoded v ∧
    (call_value classes this w1).1 = Ok r ∧ struct_eq r v = true.
Proof.
  destruct w as [ns os ps pls nr tr rp]. cbn [nodes objects].
  intros Hc Ho He Hm (j & Hj & Hjv).
  destruct (new_Select_ok parent target property [options] ns os ps pls nr tr rp o
              entries i v j Hc Ho He Hm Hj)
    as (ns' & w1 & -> & Hrun & Hw & Hpre & Hopt & Hv & Hs).
  eexists _, _, _, _. split; [exact Hrun|]. split; [apply lookup_new|].
  do 3 (split; [done|]). split.
  - erewrite call_value_shows; [reflexivity|exact Hw|exact Hs].
  - cbn [next_ref]. by rewrite relabel_struct_eq.
Qed.

Lemma select_round_trip_witness :
  let options :=
    VObject 0 [("A", num 1); ("B", VString "x"); ("C", VArray 1 [num 1; num 2])] in
  let w := initial_world [ {[ "p" := VString "x" ]} ] 2 in
  ∃ this p w1 r,
    new_InputParam classes "Select" body 0 "p" [options] w = (Ok this, w1) ∧
    params w1 !! this = Some p ∧
    options_show w1 p [("A", num 1); ("B", VString "x"); ("C", VArray 1 [num 1; num 2])] ∧
    preselected w1 p 1 ∧
    select_value (nodes w1) (input p) = encoded (VString "x") ∧
    (call_value classes this w1).1 = Ok r ∧ struct_eq r (VString "x") = true.
Proof.
  cbv zeta.
  apply (select_round_trip (initial_world [ {[ "p" := VString "x" ]} ] 2) body 0 "p"
           (VObject 0 [("A", num 1); ("B", VString "x"); ("C", VArray 1 [num 1; num 2])])
           {[ "p" := VString "x" ]}).
  - eexists. split; [reflexivity|discriminate].
  - reflexivity.
  - reflexivity.
  - split; [eexists; reflexivity|]. split; [reflexivity|].
    intros [|[|[|j]]] kv Hlt Hj; try lia; cbn in Hj; [|discriminate].
    injection Hj as <-. reflexivity.
  - eexists. split; vm_compute; reflexivity.
Defined.

(** ** Construction *)



(** ** The theorems on the example document *)

Ltac by_running := vm_compute; reflexivity.

(** The first three parts of [wired] in a world that is known. *)
Ltac wired_by_running :=
  split; [by_running|];
  split; [exists example_target; by_running|];
  split; [eexists; split; [by_running|]; split; [by_running|]; split; by_running|].

Lemma live_interaction_witness :
  let w := after (set_property 5 "checked" (VBool false))
             (after (new_InputParam classes "Boolean" body 0 "on" []) example_world) in
  let p := Param "Boolean" 2 3 4 5 None None None in
  wired w 0 p 0 "on" ∧ shows w p (VBool false) ∧
  ∃ w' o, dispatchEvent classes 5 "input" w = (Ok tt, w') ∧
          objects w !! 0 = Some o ∧
          objects w' = <[0 := <["on" := VBool false]> o]> (objects w) ∧
          trace w' = trace w ++ [CallValue 0; CallUpdate 0 (VBool false);
                                  SetProperty 0 "on" (VBool false)].
Proof.
  intros w p.
  assert (Hw : wired w 0 p 0 "on").
  { wired_by_running. intros H. discriminate H. }
  assert (Hs : shows w p (VBool false)).
  { eapply shows_Boolean; [reflexivity|by_running|by_running]. }
  split; [exact Hw|]. split; [exact Hs|].
  destruct (live_interaction w 0 p 0 "on" (VBool false) Hw Hs)
    as (w' & o & H1 & H2 & H3 & H4 & _).
  exists w', o. split; [exact H1|]. split; [exact H2|]. split; [exact H3|].
  rewrite H4. cbn [callback_call _onInput p]. by rewrite app_nil_r.
Defined.

Lemma commit_event_witness :
  let w := after (InputParam_onChange 0 7)
             (after (new_InputParam classes "Boolean" body 0 "on" []) example_world) in
  let p := Param "Boolean" 2 3 4 5 None None (Some 7) in
  wired w 0 p 0 "on" ∧ bindable (cls p) ∧
  ∃ w', dispatchEvent classes 5 "change" w = (Ok tt, w') ∧
        nodes w' = nodes w ∧ objects w' = objects w ∧
        trace w' = trace w ++ [CallValue 0; CallFunction 7 (VBool true)].
Proof.
  intros w p.
  assert (Hw : wired w 0 p 0 "on").
  { wired_by_running. intros H. discriminate H. }
  assert (Hb : bindable (cls p)) by (by left).
  assert (Hs : shows w p (VBool true)).
  { eapply shows_Boolean; [reflexivity|by_running|by_running]. }
  split; [exact Hw|]. split; [exact Hb|].
  destruct (commit_event w 0 p 0 "on" Hw Hb) as (w' & H1 & H2 & H3 & _ & _ & _ & H4 & _).
  exists w'. split; [exact H1|]. split; [exact H2|]. split; [exact H3|].
  by destruct (H4 7 (VBool true) eq_refl Hs) as [-> _].
Defined.

Lemma latest_callback_only_witness :
  let w := after (new_InputParam classes "Boolean" body 0 "on" []) example_world in
  let p := Param "Boolean" 2 3 4 5 None None None in
  wired w 0 p 0 "on" ∧
  ∃ w1 w2, InputParam_onInput 0 7 w = (Ok 0, w1) ∧
           InputParam_onInput 0 8 w1 = (Ok 0, w2) ∧
           params w2 !! 0 = Some (with_onInput 8 p) ∧
           ∃ w3 evs, dispatchEvent classes 5 "input" w2 = (Ok tt, w3) ∧
                     trace w3 = trace w2 ++ evs ∧ calls evs = [(8, VBool true)].
Proof.
  intros w p.
  assert (Hw : wired w 0 p 0 "on").
  { wired_by_running. intros H. discriminate H. }
  split; [exact Hw|].
  destruct (latest_callback_only w 0 p 0 "on" 7 8 Hw)
    as [(w1 & w2 & H1 & H2 & H3 & _ & H4) _].
  exists w1, w2. split; [exact H1|]. split; [exact H2|]. split; [exact H3|].
  apply H4. eapply shows_Boolean; [reflexivity| |].
  - assert (w2 = after (InputParam_onInput 0 8) (after (InputParam_onInput 0 7) w)) as ->.
    { unfold after at 1 2. rewrite H1. cbn [snd]. by rewrite H2. }
    by_running.
  - by_running.
Defined.

Lemma unparsable_entry_witness :
  let w := after (new_InputParam classes "Number" body 0 "size" []) example_world in
  let p := Param "Number" 2 3 4 5 None None None in
  wired w 0 p 0 "size" ∧
  (∃ w1, call_value classes 0 w = (Ok (VNumber NaN), w1)) ∧
  ∃ w' o, dispatchEvent classes 5 "input" w = (Ok tt, w') ∧
          objects w !! 0 = Some o ∧
          objects w' = <[0 := <["size" := VNumber NaN]> o]> (objects w).
Proof.
  intros w p.
  assert (Hw : wired w 0 p 0 "size").
  { wired_by_running. intros H. discriminate H. }
  assert (Hi : ∃ ie, nodes w !! input p = Some ie ∧ prop_of ie "value" = VString "abc").
  { eexists. split; by_running. }
  destruct Hi as (ie & Hi & Hv).
  destruct (unparsable_entry w 0 p 0 "size" ie "abc" Hw (or_introl eq_refl) Hi Hv)
    as (H1 & H2 & H3).
  split; [exact Hw|]. split; [exact H1|].
  destruct (H3 (H2 eq_refl)) as (w' & o & Hd & Ho & Hos & _).
  exists w', o. split; [exact Hd|]. split; [exact Ho|exact Hos].
Defined.

Lemma range_example_witness :
  container (nodes example_world) body ∧ container (nodes example_world) head ∧
  example_target !! "level" = Some (num 3) ∧
  ∃ this p w1 w2 w3 span se o',
    new_InputParam classes "Range" body 0 "level" [num 0; num 10; num 1] example_world
      = (Ok this, w1) ∧
    params w1 !! this = Some p ∧
    (call_value classes this w1).1 = Ok (num 3) ∧
    set_property (input p) "value" (VString "7") w1 = (Ok tt, w2) ∧
    dispatchEvent classes (input p) "input" w2 = (Ok tt, w3) ∧
    (call_value classes this w3).1 = Ok (num 7) ∧
    objects w3 !! 0 = Some o' ∧ o' !! "level" = Some (num 7) ∧
    valueSpan p = Some span ∧ nodes w3 !! span = Some se ∧
    prop_of se "textContent" = VString "7".
Proof.
  assert (Hb : container (nodes example_world) body).
  { eexists. split; [reflexivity|discriminate]. }
  assert (Hh : container (nodes example_world) head).
  { eexists. split; [reflexivity|discriminate]. }
  assert (Hl : example_target !! "level" = Some (num 3)) by by_running.
  split; [exact Hb|]. split; [exact Hh|]. split; [exact Hl|].
  exact (range_example example_world body 0 "level" example_target Hb Hh eq_refl Hl).
Defined.

Lemma missing_hook_fails_witness :
  nodes example_world !! body = Some (blank "body") ∧
  objects example_world !! 0 = Some example_target ∧
  ∃ w0, trace w0 = [CallSetup 0 (VBool true) []] ∧
        new_InputParam classes "InputParam" body 0 "on" [] example_world
        = (Throw (not_implemented "setup()"), w0).
Proof.
  split; [reflexivity|]. split; [reflexivity|].
  destruct (missing_hook_fails classes "InputParam" body 0 "on" [] example_world
              (blank "body") example_target eq_refl eq_refl) as (w0 & Ht & Hs & _).
  exists w0. split; [exact Ht|]. exact (Hs eq_refl).
Defined.

Lemma thumb_rule_per_instance_witness :
  head_ok example_world ∧
  ∃ this w',
    new_InputParam classes "Range" body 0 "level" [num 0; num 10; num 1] example_world
      = (Ok this, w') ∧
    nodes w' !! 7 = Some thumb_node ∧
    thumb_rules w' = thumb_rules example_world ++ [7].
Proof.
  assert (Hh : head_ok example_world).
  { eexists. split; [reflexivity|]. split; [discriminate|constructor]. }
  split; [exact Hh|].
  destruct (thumb_rule_per_instance example_world Hh) as [H _].
  apply (H body 0 "level" [num 0; num 10; num 1]).
  - eexists. split; [reflexivity|discriminate].
  - eexists. reflexivity.
Defined.



(** * Further properties of the toolkit *)

(** ** A Select without options *)

(** The constructor of a Select up to the loop over the entries. *)
Lemma new_Select_prologue parent target property args ns os ps pls nr tr rp o :
  container ns parent → os !! target = Some o →
  let n := length ns in
  let this := length ps in
  let initial := default VUndefined (o !! property) in
  new_InputParam classes "Select" parent target property args
    (World ns os ps pls nr tr rp) =
  (match Object_entries (nth 0 args VUndefined) with
   | inr entries => Select_add_options (n + 3) initial entries
   | inl e => throw e
   end ;;;
   v <- call_value classes this ;;
   call_update classes this v ;;;
   ret this)
    (World (alter (add_child n) parent ns
            ++ row_nodes parent n [n + 3]
                 (control "select" n this target property
                    (apply_style ∅ select_style) ∅ []))
       os (ps ++ [Param "Select" n (n + 1) (n + 2) (n + 3) None None None]) pls nr
       (tr ++ [CallSetup this initial args]) rp).
Proof.
  intros (pe & Hp & Ht) Ho n this initial.
  destruct (new_InputParam_prologue classes "Select" parent target property args
              ns pe o os ps pls nr tr rp Hp Ho) as (B & HB & HBc & ->).
  rewrite call_tag_Select'. specialize (HBc Ht). subst B. fold n this initial in HB |- *.
  set (B := alter (add_child n) parent ns) in *.
  unfold row_nodes, control. cbn [app].
  unfold call_setup. enter_hook classes_Select. unfold Select_setup.
  step get_param_ok. cbn [input]. unfold css.
  step assign_style_ok. tail_norm. rewrite ?bind_assoc. reflexivity.
Qed.

(** X1.  A [Select] constructed without an options object ([undefined] or
    [null]) throws the [TypeError] of [Object.entries] from [setup]:
    [value()] and [update] are not called, the target is not written, and
    the row the constructor of [Param] has appended stays in the document
    with its [<select>] empty. *)
Theorem select_without_options w parent target property args o :
  container (nodes w) parent → objects w !! target = Some o →
  nth 0 args VUndefined = VUndefined ∨ nth 0 args VUndefined = VNull →
  let n := length (nodes w) in
  let this := length (params w) in
  ∃ msg w',
    new_InputParam classes "Select" parent target property args w
    = (Throw (TypeError msg), w') ∧
    trace w' = trace w ++ [CallSetup this (default VUndefined (o !! property)) args] ∧
    objects w' = objects w ∧
    nodes w' = alter (add_child n) parent (nodes w)
               ++ row_nodes parent n [n + 3]
                    (control "select" n this target property
                       (apply_style ∅ select_style) ∅ []).
Proof.
  destruct w as [ns os ps pls nr tr rp]. cbn [nodes objects params trace].
  intros Hc Ho Hopt. cbv zeta.
  rewrite (new_Select_prologue _ _ _ _ _ _ _ _ _ _ _ o) by done.
  assert (He : Object_entries (nth 0 args VUndefined)
               = inl (TypeError "Cannot convert undefined or null to object")).
  { by destruct Hopt as [-> | ->]. }
  rewrite He. eexists _, _. split; [reflexivity|]. done.
Qed.

(** X2.  A [Select] constructed over options with no entry (an empty object
    or array, a number, a boolean) passes [setup], then [value()] throws the
    [SyntaxError] of [JSON.parse] on the empty text of the [<select>]:
    [update] is not called, the constructor does not return, and the empty
    row stays in the document. *)
Theorem select_with_no_entry w parent target property args o :
  container (nodes w) parent → objects w !! target = Some o →
  Object_entries (nth 0 args VUndefined) = inr [] →
  let n := length (nodes w) in
  let this := length (params w) in
  ∃ msg w',
    new_InputParam classes "Select" parent target property args w
    = (Throw (SyntaxError msg), w') ∧
    trace w' = trace w ++ [CallSetup this (default VUndefined (o !! property)) args;
                           CallValue this] ∧
    objects w' = objects w ∧
    nodes w' = alter (add_child n) parent (nodes w)
               ++ row_nodes parent n [n + 3]
                    (control "select" n this target property
                       (apply_style ∅ select_style) ∅ []).
Proof.
  destruct w as [ns os ps pls nr tr rp]. cbn [nodes objects params trace].
  intros Hc Ho He. cbv zeta.
  rewrite (new_Select_prologue _ _ _ _ _ _ _ _ _ _ _ o) by done.
  rewrite He. cbn [Select_add_options]. rewrite bind_ret.
  set (n := length ns). set (this := length ps).
  set (B := alter (add_child n) parent ns).
  assert (HB : length B = n) by (unfold B; solve_len).
  unfold row_nodes, control. cbn [app].
  unfold call_value. enter_hook classes_Select. unfold Select_value.
  step get_param_ok. cbn [input].
  rewrite ?bind_assoc.
  erewrite bind_ok.
  2:{ eapply get_property_select; [rewrite lookup_at by done; reflexivity|done]. }
  assert (Hv : ∀ T0 T1 T2 st ls,
             select_value (B ++ [T0; T1; T2; Element "select" (Some (n + 2)) [] st ∅ ls])
               (n + 3) = EmptyString).
  { intros. unfold select_value, options_of. by rewrite lookup_at by done. }
  rewrite Hv. eexists _, _. split; [reflexivity|].
  cbn [trace objects nodes]. by rewrite <- app_assoc.
Qed.

Lemma select_without_options_witness :
  container (nodes example_world) body ∧
  ∃ msg w',
    new_InputParam classes "Select" body 0 "mode" [] example_world
    = (Throw (TypeError msg), w') ∧
    trace w' = [CallSetup 0 (VString "x") []] ∧
    objects w' = objects example_world.
Proof.
  assert (Hb : container (nodes example_world) body).
  { eexists. split; [reflexivity|discriminate]. }
  split; [exact Hb|].
  destruct (select_without_options example_world body 0 "mode" [] example_target
              Hb eq_refl (or_introl eq_refl)) as (msg & w' & H1 & H2 & H3 & _).
  exists msg, w'. split; [exact H1|]. split; [exact H2|exact H3].
Defined.

Lemma select_with_no_entry_witness :
  container (nodes example_world) body ∧
  ∃ msg w',
    new_InputParam classes "Select" body 0 "mode" [VObject 0 []] example_world
    = (Throw (SyntaxError msg), w') ∧
    trace w' = [CallSetup 0 (VString "x") [VObject 0 []]; CallValue 0] ∧
    objects w' = objects example_world.
Proof.
  assert (Hb : container (nodes example_world) body).
  { eexists. split; [reflexivity|discriminate]. }
  split; [exact Hb|].
  destruct (select_with_no_entry example_world body 0 "mode" [VObject 0 []]
              example_target Hb eq_refl eq_refl) as (msg & w' & H1 & H2 & H3 & _).
  exists msg, w'. split; [exact H1|]. split; [exact H2|exact H3].
Defined.

(** ** The selection of a Select *)

(** A Select whose constructor has returned. *)
Lemma new_Select_built parent target property args ns os ps pls nr tr rp o entries
    this' w1 :
  container ns parent → os !! target = Some o →
  Object_entries (nth 0 args VUndefined) = inr entries →
  new_InputParam classes "Select" parent target property args
    (World ns os ps pls nr tr rp) = (Ok this', w1) →
  let n := length ns in
  let this := length ps in
  let initial := default VUndefined (o !! property) in
  let p := Param "Select" n (n + 1) (n + 2) (n + 3) None None None in
  ∃ ns' ids j,
    this' = this ∧
    JSON_parse (select_value ns' (n + 3)) = inr j ∧
    w1 = World ns' os (ps ++ [p]) pls (relabel j nr).2
           (tr ++ [CallSetup this initial args; CallValue this;
                   CallUpdate this (relabel j nr).1]) rp ∧
    sel_inv ns' (n + 3)
      [("input", InputListener this target property); ("change", ChangeListener this)]
      ids (map (λ kv, encoded kv.2) entries) (chosen initial entries).
Proof.
  intros Hc Ho He Hrun n this initial p.
  destruct (new_Select_run parent target property args ns os ps pls nr tr rp o entries
              Hc Ho He) as (ns' & ids & Hinv & Hrun').
  fold n this initial p in Hinv, Hrun'. rewrite Hrun' in Hrun.
  destruct (JSON_parse (select_value ns' (n + 3))) as [e|j] eqn:Hj; [done|].
  injection Hrun as <- <-. by exists ns', ids, j.
Qed.

(** The user picks an option. *)
Lemma sel_inv_pick os ps pls nr tr rp ns sel ls ids ss ci i oid :
  sel_inv ns sel ls ids ss ci → ids !! i = Some oid →
  ∃ ns', set_property oid "selected" (VBool true) (World ns os ps pls nr tr rp)
         = (Ok tt, World ns' os ps pls nr tr rp) ∧
         sel_inv ns' sel ls ids ss i.
Proof.
  intros [Hinv _] Hi.
  destruct (sel_gen_lookup _ _ _ _ _ _ _ _ Hinv Hi) as (e & He & Ht & Hp).
  pose proof (sel_gen_select _ _ _ _ _ _ _ _ Hinv Hi) as Hinv1.
  erewrite set_property_selected; [|exact He|exact Hp|by eapply is_select_inv].
  eexists. split; [reflexivity|]. cbn zeta.
  erewrite options_of_all by exact Hinv1.
  assert (Hlt : i < length ids) by (by eapply lookup_lt_Some).
  apply reset_selectedness_inv; [|by destruct ids].
  split; [by eapply sel_gen_select_only|lia].
Qed.

(** What a Select shows when the option of index [i] is selected. *)
Lemma shows_selected ns os ps pls nr tr rp p ls ids
    (entries : list (string * value)) i k v j :
  cls p = "Select" →
  sel_inv ns (input p) ls ids (map (λ kv, encoded kv.2) entries) i →
  entries !! i = Some (k, v) → JSON_parse (encoded v) = inr j →
  shows (World ns os ps pls nr tr rp) p (relabel j nr).1.
Proof.
  intros Hc Hinv Hi Hj.
  assert (Hv : select_value ns (input p) = encoded v).
  { eapply select_value_inv; [exact Hinv|]. by rewrite list_lookup_fmap, Hi. }
  apply (shows_Select (World ns os ps pls nr tr rp) p j Hc). cbn [nodes]. by rewrite Hv.
Qed.

(** X3.  A [Select] constructed over options of which none is strictly equal
    to the initial value shows its first option: that option and no other is
    selected and [value()] returns a copy of its value (when the value
    survives its JSON encoding), while the target keeps the initial value:
    the constructor never writes it. *)
Theorem select_first_by_default w parent target property args o k0 v0 rest :
  container (nodes w) parent → objects w !! target = Some o →
  Object_entries (nth 0 args VUndefined) = inr ((k0, v0) :: rest) →
  Forall (λ kv : string * value,
            strict_eq kv.2 (default VUndefined (o !! property)) = false)
    ((k0, v0) :: rest) →
  json_faithful v0 →
  ∃ this p w1 r,
    new_InputParam classes "Select" parent target property args w = (Ok this, w1) ∧
    params w1 !! this = Some p ∧
    preselected w1 p 0 ∧
    (call_value classes this w1).1 = Ok r ∧ struct_eq r v0 = true ∧
    objects w1 = objects w.
Proof.
  destruct w as [ns os ps pls nr tr rp]. cbn [nodes objects].
  intros Hc Ho He Hno (j & Hj & Hjv).
  set (V := default VUndefined (o !! property)) in *.
  destruct (new_Select_run parent target property args ns os ps pls nr tr rp o _
              Hc Ho He) as (ns' & ids & Hinv & Hrun).
  assert (Hch : chosen V ((k0, v0) :: rest) = 0).
  { apply chosen_from_none. intros i kv Hi. rewrite Forall_forall in Hno.
    apply Hno. by eapply list_elem_of_lookup_2. }
  fold V in Hinv, Hrun. rewrite Hch in Hinv.
  set (p := Param "Select" (length ns) (length ns + 1) (length ns + 2) (length ns + 3)
              None None None) in *.
  assert (Hv : select_value ns' (length ns + 3) = encoded v0).
  { eapply select_value_inv; [exact Hinv|]. reflexivity. }
  rewrite Hv, Hj in Hrun.
  assert (Hlt : 0 < length ids).
  { destruct Hinv as [(_ & _ & _ & _ & Hlen & _) _]. rewrite <- Hlen. cbn. lia. }
  eexists _, p, _, _. split; [exact Hrun|]. split; [apply lookup_new|].
  split; [by eapply (preselected_inv _ _ _ _ _ _ _ p)|].
  split; [|split; [|reflexivity]].
  - erewrite call_value_shows; [reflexivity| |].
    + eapply wired_select; [by eauto|exact Hinv].
    + eapply (shows_selected _ _ _ _ _ _ _ p); [done|exact Hinv|reflexivity|exact Hj].
  - cbn [next_ref]. by rewrite relabel_struct_eq.
Qed.

(** X4.  Once a [Select] is constructed, picking the option of index [i] and
    firing [input] writes to the target a copy of the value of the entry of
    index [i], whatever was selected before: the value is encoded in the
    option by [setup] and decoded by [value()].  A string, a boolean or
    [null] comes back as it is. *)
Theorem select_pick w parent target property args o entries i k v this w1 :
  container (nodes w) parent → objects w !! target = Some o →
  Object_entries (nth 0 args VUndefined) = inr entries →
  entries !! i = Some (k, v) → json_faithful v →
  new_InputParam classes "Select" parent target property args w = (Ok this, w1) →
  ∃ p se oid w2 w3 r o',
    params w1 !! this = Some p ∧
    nodes w1 !! input p = Some se ∧ el_children se !! i = Some oid ∧
    set_property oid "selected" (VBool true) w1 = (Ok tt, w2) ∧
    dispatchEvent classes (input p) "input" w2 = (Ok tt, w3) ∧
    preselected w3 p i ∧
    objects w3 !! target = Some o' ∧ o' !! property = Some r ∧
    struct_eq r v = true ∧
    (match v with VString _ | VBool _ | VNull => r = v | _ => True end).
Proof.
  destruct w as [ns os ps pls nr tr rp]. cbn [nodes objects].
  intros Hc Ho He Hi (j & Hj & Hjv) Hrun.
  destruct (new_Select_built _ _ _ _ _ _ _ _ _ _ _ _ _ _ _ Hc Ho He Hrun)
    as (ns' & ids & j0 & -> & _ & -> & Hinv).
  set (n := length ns) in *. set (this := length ps) in *.
  set (p := Param "Select" n (n + 1) (n + 2) (n + 3) None None None) in *.
  pose proof Hinv as [((se & Hse & _ & Hch & _) & _ & _ & _ & Hlen & _) _].
  assert (Hlt : i < length ids).
  { rewrite <- Hlen, length_map. by eapply lookup_lt_Some. }
  destruct (lookup_lt_is_Some_2 ids i Hlt) as [oid Hoid].
  destruct (sel_inv_pick os (ps ++ [p]) pls (relabel j0 nr).2
              (tr ++ [CallSetup this (default VUndefined (o !! property)) args;
                      CallValue this; CallUpdate this (relabel j0 nr).1]) rp
              _ _ _ _ _ _ _ _ Hinv Hoid) as (ns2 & Hset & Hinv2).
  match type of Hset with _ = (_, ?w) => set (w2 := w) in * end.
  assert (Hw2 : wired w2 this p target property).
  { eapply wired_select; [by eauto|exact Hinv2]. }
  assert (Hs2 : shows w2 p (relabel j (next_ref w2)).1).
  { eapply (shows_selected _ _ _ _ _ _ _ p); [done|exact Hinv2|exact Hi|exact Hj]. }
  destruct (input_event_ok _ _ _ _ _ _ Hw2 Hs2)
    as (w3 & o2 & Hd & Ho2 & Hos & _ & _ & _ & Hns & _).
  assert (Hr : struct_eq (relabel j (next_ref w2)).1 v = true)
    by (by rewrite relabel_struct_eq).
  exists p, se, oid, w2, w3, (relabel j (next_ref w2)).1, (<[property := (relabel j (next_ref w2)).1]> o2).
  split; [apply lookup_new|]. split; [exact Hse|]. split; [by rewrite Hch|].
  split; [exact Hset|]. split; [exact Hd|]. split_and!.
  - destruct w3 as [ns3 os3 ps3 pls3 nr3 tr3 rp3]. cbn [nodes] in Hns.
    eapply (preselected_inv _ _ _ _ _ _ _ p); [|exact Hlt].
    rewrite Hns. unfold updated. rewrite bool_decide_eq_false_2 by done. exact Hinv2.
  - rewrite Hos. apply list_lookup_insert_eq. by eapply lookup_lt_Some.
  - by rewrite lookup_insert_eq.
  - exact Hr.
  - destruct v as [| |b|z|s|? ?|? ?]; try done;
      destruct (relabel j (next_ref w2)).1 as [| |b'|z'|s'|? ?|? ?]; try done.
    + cbn in Hr. by apply bool_decide_eq_true in Hr as ->.
    + cbn in Hr. by apply bool_decide_eq_true in Hr as ->.
Qed.

(** ** The binding goes from the control to the target *)

Lemma no_write_in (evs : list event) :
  Forall (λ e, match e with SetProperty _ _ _ => False | _ => True end) evs →
  ∀ t k v, SetProperty t k v ∉ evs.
Proof.
  intros H t k v Hin. rewrite Forall_forall in H. by apply (H _ Hin).
Qed.

(** X5.  The constructor of a bound widget reads the target and never writes
    it: whatever the constructor does (return or throw), the targets are
    what they were and no write is among the events, so a value the control
    coerces (a number parsed from a string, the first option of a Select)
    reaches the target only with the first [input] event. *)
Theorem construction_leaves_target w c parent target property args o r w1 :
  bindable c → container (nodes w) parent → container (nodes w) head →
  objects w !! target = Some o →
  new_InputParam classes c parent target property args w = (r, w1) →
  objects w1 = objects w ∧
  ∃ evs, trace w1 = trace w ++ evs ∧ ∀ t k v, SetProperty t k v ∉ evs.
Proof.
  destruct w as [ns os ps pls nr tr rp]. cbn [nodes objects trace].
  intros Hb Hc Hh Ho Hrun.
  unfold bindable in Hb. repeat (apply elem_of_cons in Hb as [->|Hb]);
    [| | | |by apply elem_of_nil in Hb].
  - rewrite (new_Boolean_ok _ _ _ _ _ _ _ _ _ _ _ o) in Hrun by done.
    injection Hrun as <- <-. split; [done|]. eexists. split; [done|].
    apply no_write_in. by repeat constructor.
  - rewrite (new_Number_ok _ _ _ _ _ _ _ _ _ _ _ o) in Hrun by done.
    injection Hrun as <- <-. split; [done|]. eexists. split; [done|].
    apply no_write_in. by repeat constructor.
  - rewrite (new_Range_ok _ _ _ _ _ _ _ _ _ _ _ o) in Hrun by done.
    injection Hrun as <- <-. split; [done|]. eexists. split; [done|].
    apply no_write_in. by repeat constructor.
  - destruct (Object_entries (nth 0 args VUndefined)) as [e|entries] eqn:He.
    + rewrite (new_Select_prologue _ _ _ _ _ _ _ _ _ _ _ o) in Hrun by done.
      rewrite He in Hrun. injection Hrun as <- <-. split; [done|].
      eexists. split; [done|]. apply no_write_in. by repeat constructor.
    + destruct (new_Select_run parent target property args ns os ps pls nr tr rp o
                  entries Hc Ho He) as (ns' & ids & _ & Hrun').
      rewrite Hrun' in Hrun.
      destruct (JSON_parse _); injection Hrun as <- <-; (split; [done|]);
        eexists; (split; [done|]); apply no_write_in; by repeat constructor.
Qed.

(** X6.  The binding is one way: when two widgets are bound to the same
    property, an [input] event on the first writes its value to the target
    and leaves the second as it is, still showing its former value. *)
Theorem one_way_binding w a pa b pb target property v u :
  wired w a pa target property → wired w b pb target property →
  shows w pa v → shows w pb u → cls pb ≠ "Select" →
  (∀ span, valueSpan pa = Some span → span ≠ input pb) →
  ∃ w' o',
    dispatchEvent classes (input pa) "input" w = (Ok tt, w') ∧
    objects w' !! target = Some o' ∧ o' !! property = Some v ∧
    nodes w' !! input pb = nodes w !! input pb ∧
    shows w' pb u.
Proof.
  intros Ha Hb Hsa Hsb Hc Hspan.
  destruct (input_event_ok _ _ _ _ _ _ Ha Hsa)
    as (w' & o & Hd & Ho & Hos & _ & _ & _ & Hns & _).
  assert (Hin : nodes w' !! input pb = nodes w !! input pb).
  { rewrite Hns. unfold updated. case_bool_decide; [|done].
    destruct (valueSpan pa) as [span|] eqn:Hs; [|done].
    rewrite list_lookup_alter_ne; [done|]. by apply Hspan. }
  exists w', (<[property := v]> o). split; [exact Hd|].
  split; [rewrite Hos; apply list_lookup_insert_eq; by eapply lookup_lt_Some|].
  split; [by rewrite lookup_insert_eq|]. split; [exact Hin|].
  destruct Hsb as [ie x Hcb Hi Hp|ie s Hcb Hi Hp|ie s Hcb Hi Hp|j Hcb _]; [..|done].
  - apply (shows_Boolean _ _ ie); [done|by rewrite Hin|done].
  - apply (shows_Number _ _ ie); [done|by rewrite Hin|done].
  - apply (shows_Range _ _ ie); [done|by rewrite Hin|done].
Qed.

(** ** The chainable methods *)

Lemma prop_of_with_prop_ne k v e key :
  key ≠ k → prop_of (with_prop k v e) key = prop_of e key.
Proof. intros. unfold prop_of, with_prop. cbn. by rewrite lookup_insert_ne. Qed.

(** X7.  The live callback and the commit callback are two fields:
    registering one leaves the other, in either order, and afterwards an
    [input] event calls the live callback alone and a [change] event the
    commit callback alone. *)
Theorem callbacks_independent w this p target property f g :
  wired w this p target property →
  ∃ w1 w2 p2,
    InputParam_onInput this f w = (Ok this, w1) ∧
    InputParam_onChange this g w1 = (Ok this, w2) ∧
    (InputParam_onChange this g ;;; InputParam_onInput this f) w = (Ok this, w2) ∧
    params w2 !! this = Some p2 ∧ _onInput p2 = Some f ∧ _onChange p2 = Some g ∧
    wired w2 this p2 target property ∧
    ∀ v, shows w2 p2 v →
      (∃ w3 evs, dispatchEvent classes (input p) "input" w2 = (Ok tt, w3) ∧
                 trace w3 = trace w2 ++ evs ∧ calls evs = [(f, v)]) ∧
      (∃ w3 evs, dispatchEvent classes (input p) "change" w2 = (Ok tt, w3) ∧
                 trace w3 = trace w2 ++ evs ∧ calls evs = [(g, v)]).
Proof.
  destruct w as [ns os ps pls nr tr rp]. intros Hw.
  pose proof Hw as (Hp & _). cbn in Hp.
  set (p2 := with_onChange g (with_onInput f p)).
  assert (Hw2 : wired (World ns os (alter (with_onChange g ∘ with_onInput f) this ps)
                         pls nr tr rp) this p2 target property).
  { by apply (wired_params _ _ _ _ _ _ _ _ _ _ _ (with_onChange g ∘ with_onInput f)). }
  eexists _, _, p2. split; [by eapply onInput_ok|]. split.
  { erewrite onChange_ok by (by rewrite list_lookup_alter_eq, Hp).
    by rewrite list_alter_alter_eq. }
  split.
  { erewrite bind_ok by (by eapply onChange_ok).
    erewrite onInput_ok by (by rewrite list_lookup_alter_eq, Hp).
    rewrite list_alter_alter_eq. reflexivity. }
  cbn [params]. split; [by rewrite list_lookup_alter_eq, Hp|].
  split; [done|]. split; [done|]. split; [exact Hw2|].
  intros v Hs. split.
  - destruct (input_event_ok _ _ _ _ _ _ Hw2 Hs) as (w3 & o & Hd & _ & _ & Ht & _).
    exists w3. eexists. split; [exact Hd|]. split; [exact Ht|]. done.
  - destruct (change_event_calls _ _ _ _ _ g v Hw2 eq_refl Hs) as (w3 & Hd & Ht).
    exists w3. eexists. split; [exact Hd|]. split; [exact Ht|]. done.
Qed.

(** X8.  [readOnly()] disables the control and returns the widget; it does
    not take the listeners away: the widget stays bound, keeps its value, and
    an [input] event dispatched on it still writes the target. *)
Theorem readOnly_keeps_binding w this p target property :
  wired w this p target property →
  ∃ w1 ie,
    InputParam_readOnly this w = (Ok this, w1) ∧
    nodes w1 !! input p = Some ie ∧ prop_of ie "disabled" = VBool true ∧
    objects w1 = objects w ∧ trace w1 = trace w ∧
    wired w1 this p target property ∧
    ∀ v, cls p ≠ "Select" → shows w p v →
      shows w1 p v ∧
      ∃ w2 o', dispatchEvent classes (input p) "input" w1 = (Ok tt, w2) ∧
               objects w2 !! target = Some o' ∧ o' !! property = Some v.
Proof.
  destruct w as [ns os ps pls nr tr rp]. intros Hw.
  pose proof Hw as (Hp & Ho & (ie & Hi & Htag & Hli & Hlc) & Hr). cbn in Hp, Ho, Hi.
  set (ie' := with_prop "disabled" (VBool true) ie).
  set (w1 := World (alter (with_prop "disabled" (VBool true)) (input p) ns)
               os ps pls nr tr rp).
  assert (Hrun : InputParam_readOnly this (World ns os ps pls nr tr rp) = (Ok this, w1)).
  { unfold InputParam_readOnly. step get_param_ok.
    erewrite bind_ok; [reflexivity|].
    erewrite set_property_plain; [reflexivity|exact Hi|].
    unfold plain_key. rewrite !bool_decide_eq_false_2 by done. by rewrite andb_false_r. }
  assert (Hi' : nodes w1 !! input p = Some ie').
  { cbn. by rewrite list_lookup_alter_eq, Hi. }
  assert (Hw1 : wired w1 this p target property).
  { split_and!; try done.
    - exists ie'. split; [exact Hi'|]. done.
    - intros Hc. destruct (Hr Hc) as (span & se & Hs & Hne & Hse & Hch).
      exists span, se. split_and!; try done. cbn. by rewrite list_lookup_alter_ne. }
  assert (Hsh : ∀ v, cls p ≠ "Select" → shows (World ns os ps pls nr tr rp) p v →
                     shows w1 p v).
  { intros v Hc Hs. cbn in Hs.
    destruct Hs as [x y Hcb Hx Hp'|x s Hcb Hx Hp'|x s Hcb Hx Hp'|j Hcb _]; [..|done];
      cbn in Hx; rewrite Hi in Hx; injection Hx as <-.
    - apply (shows_Boolean _ _ ie'); [done|exact Hi'|].
      unfold ie'. by rewrite prop_of_with_prop_ne.
    - apply (shows_Number _ _ ie'); [done|exact Hi'|].
      unfold ie'. by rewrite prop_of_with_prop_ne.
    - apply (shows_Range _ _ ie'); [done|exact Hi'|].
      unfold ie'. by rewrite prop_of_with_prop_ne. }
  exists w1, ie'. split; [exact Hrun|]. split; [exact Hi'|].
  split; [unfold prop_of, ie', with_prop; cbn; by rewrite lookup_insert_eq|].
  split; [done|]. split; [done|]. split; [exact Hw1|].
  intros v Hc Hs. split; [by apply Hsh|].
  destruct (input_event_ok _ _ _ _ _ _ Hw1 (Hsh v Hc Hs))
    as (w2 & o & Hd & Ho2 & Hos & _).
  exists w2, (<[property := v]> o). split; [exact Hd|].
  split; [rewrite Hos; apply list_lookup_insert_eq; by eapply lookup_lt_Some|].
  by rewrite lookup_insert_eq.
Qed.

(** X9.  [legend(name)] writes the text of [name] (none for [null] and
    [undefined]) in the label of the widget and returns the widget; every
    other node is as it was, no target is touched, and a bound widget stays
    bound. *)
Theorem legend_labels w this p le name :
  params w !! this = Some p → nodes w !! label p = Some le → el_children le = [] →
  ∃ w1 le',
    Param_legend this name w = (Ok this, w1) ∧
    nodes w1 !! label p = Some le' ∧
    prop_of le' "textContent" = VString (text_of name) ∧ el_children le' = [] ∧
    (∀ n, n ≠ label p → nodes w1 !! n = nodes w !! n) ∧
    objects w1 = objects w ∧ trace w1 = trace w ∧ params w1 = params w ∧
    ∀ target property,
      wired w this p target property → wired w1 this p target property.
Proof.
  destruct w as [ns os ps pls nr tr rp]. cbn [params nodes]. intros Hp Hl Hch.
  set (w1 := World (alter (with_text (text_of name)) (label p) ns) os ps pls nr tr rp).
  exists w1, (with_text (text_of name) le).
  split.
  { unfold Param_legend. step get_param_ok. by step set_textContent_leaf. }
  split; [cbn; by rewrite list_lookup_alter_eq, Hl|].
  split; [unfold prop_of, with_text, with_prop; cbn; by rewrite lookup_insert_eq|].
  split; [done|].
  split; [intros n Hn; cbn; by rewrite list_lookup_alter_ne|].
  split; [done|]. split; [done|]. split; [done|].
  intros target property (_ & Ho & (ie & Hi & Htag & Hli & Hlc) & Hr). cbn in Ho, Hi.
  split_and!; try done.
  - destruct (decide (input p = label p)) as [Heq|Hne].
    + exists (with_text (text_of name) ie). cbn.
      rewrite Heq, list_lookup_alter_eq. rewrite <- Heq, Hi. done.
    + exists ie. cbn. by rewrite list_lookup_alter_ne.
  - intros Hc. destruct (Hr Hc) as (span & se & Hs & Hne & Hse & Hchs). cbn in Hse.
    destruct (decide (span = label p)) as [Heq|Hne'].
    + exists span, (with_text (text_of name) se). split_and!; try done.
      cbn. by rewrite <- Heq, list_lookup_alter_eq, Hse.
    + exists span, se. split_and!; try done. cbn. by rewrite list_lookup_alter_ne.
Qed.

(** ** spawn *)

(** X10.  [spawn(tag, parent, style)] under a node that is not a [<select>]
    returns a new node with the tag and the style, no property and no
    listener, makes it the last child of [parent], and leaves every other
    node and the rest of the state as they are.  When [parent] is no node
    the call throws a [TypeError]; the element is created and styled all the
    same, and stays outside the tree. *)
Theorem spawn_appends w tag parent style :
  (∀ pe, nodes w !! parent = Some pe → el_tag pe ≠ "select" →
     ∃ w', spawn tag parent style w = (Ok (length (nodes w)), w') ∧
           nodes w' !! length (nodes w)
           = Some (Element tag (Some parent) [] (style_of style) ∅ []) ∧
           nodes w' !! parent = Some (add_child (length (nodes w)) pe) ∧
           length (nodes w') = S (length (nodes w)) ∧
           (∀ m, m ≠ parent → m < length (nodes w) → nodes w' !! m = nodes w !! m) ∧
           objects w' = objects w ∧ params w' = params w ∧ panels w' = panels w ∧
           trace w' = trace w) ∧
  (length (nodes w) < parent →
     ∃ msg w', spawn tag parent style w = (Throw (TypeError msg), w') ∧
               nodes w' = nodes w ++ [Element tag None [] (style_of style) ∅ []]).
Proof.
  destruct w as [ns os ps pls nr tr rp]. cbn [nodes objects params panels trace]. split.
  - intros pe Hp Ht. rewrite spawn_ok by (by exists pe).
    eexists. split; [reflexivity|]. cbn [nodes objects params panels trace].
    assert (Hlt : parent < length ns) by (by eapply lookup_lt_Some).
    split; [by rewrite lookup_at0 by solve_len|].
    split; [apply lookup_base; by rewrite list_lookup_alter_eq, Hp|].
    split; [rewrite length_app, length_alter; cbn; lia|].
    split; [|done]. intros m Hm Hlt'.
    rewrite lookup_app_l by (by rewrite length_alter). by rewrite list_lookup_alter_ne.
  - intros Hp. unfold spawn.
    unfold bind at 1, createElement at 1. wsimpl.
    set (c := match style with
              | Some attrs => restyle attrs (blank tag)
              | None => blank tag
              end).
    assert (Hc : c = Element tag None [] (style_of style) ∅ []) by (by destruct style).
    erewrite (bind_ok _ _ _ tt (World (ns ++ [c]) os ps pls nr tr rp)).
    + unfold appendChild, bind at 1, bind at 1, get_node. cbn [nodes].
      rewrite lookup_ge_None_2 by (rewrite length_app; cbn; lia).
      eexists _, _. split; [reflexivity|]. cbn [nodes]. by rewrite Hc.
    + unfold c. destruct style as [attrs|]; [|done].
      unfold css. erewrite assign_style_ok by apply lookup_new.
      by rewrite alter_new.
Qed.

(** ** The nodes of a folder *)

Lemma remove_last_but_one (ch : list nat) n :
  Forall (λ c, c < n) ch →
  List.filter (λ x, negb (x =? n)) ((ch ++ [n]) ++ [n + 1]) = ch ++ [n + 1].
Proof.
  intros H. rewrite !List.filter_app. cbn [List.filter].
  rewrite Nat.eqb_refl. cbn [negb app].
  replace (n + 1 =? n) with false by (symmetry; apply Nat.eqb_neq; lia).
  cbn [negb]. rewrite app_nil_r. f_equal.
  apply filter_all. intros x Hx. rewrite Forall_forall in H. apply H in Hx.
  apply negb_true_iff, Nat.eqb_neq. lia.
Qed.

(** The nodes and the instance [new Folder(name, parent)] leaves. *)
Lemma new_Folder_exact name parent pe ns os ps pls nr tr rp :
  ns !! parent = Some pe → el_tag pe ≠ "select" →
  Forall (λ c, c < length ns) (el_children pe) →
  let n := length ns in
  new_Folder name parent (World ns os ps pls nr tr rp) =
  (Ok (length pls),
   World (alter (with_children (el_children pe ++ [n + 1])) parent ns
          ++ [Element "div" (Some (n + 1)) [] (style_of (Some [("marginLeft", "10px")])) ∅ [];
              Element "details" (Some parent) [n + 2; n] (style_of (Some details_style))
                (<["open" := VBool true]> ∅) [];
              Element "summary" (Some (n + 1)) [] (style_of (Some summary_style))
                (<["textContent" := VString name]> ∅) []])
     os ps (pls ++ [Panel n [] (Some name) (Some (n + 1))]) nr tr rp).
Proof.
  intros Hp Ht Hch n.
  assert (Hc : container ns parent) by (by exists pe).
  assert (Hlt : parent < n) by (by eapply lookup_lt_Some).
  unfold new_Folder, new_Panel.
  step spawn_ok. fold n. unfold bind at 1. wsimpl.
  set (B := alter (add_child n) parent ns).
  assert (HB : length B = n) by (unfold B; solve_len).
  assert (HcB : container B parent) by (by apply container_alter).
  rewrite ?bind_assoc. erewrite bind_ok by (apply spawn_ok; by apply container_base).
  destruct HcB as (pe1 & Hpe1 & Hpt1).
  tail_norm. erewrite alter_base by done.
  set (B1 := alter _ parent B).
  assert (HB1 : length B1 = n) by (unfold B1; solve_len). clear HB.
  rewrite <- ?app_assoc. cbn [app].
  step alter_panel_ok. rewrite (alter_new _ pls). cbn [_elt folders title details].
  step set_property_plain. tail_norm.
  rewrite ?bind_assoc.
  erewrite bind_ok.
  2:{ apply spawn_ok. eapply (container_at _ _ _ 1); [solve_len | reflexivity | done]. }
  tail_norm.
  step set_textContent_leaf. tail_norm.
  step alter_panel_ok. rewrite (alter_new _ pls). cbn [_elt folders title details].
  step get_panel_ok. cbn [_elt].
  rewrite ?bind_assoc.
  erewrite bind_ok.
  2:{ eapply (appendChild_ok (n + 1) n).
      - rewrite lookup_at by done. reflexivity.
      - rewrite lookup_at0 by done. reflexivity. }
  assert (HB1p : B1 !! parent = Some (add_child (n + 1) (add_child n pe))).
  { unfold B1, B. by rewrite !list_lookup_alter_eq, Hp. }
  unfold moved, detach. rewrite lookup_at0 by done. cbn [lookup list_lookup el_parent].
  erewrite (alter_base _ B1) by exact HB1p.
  set (B2 := alter _ parent B1).
  assert (HB2 : length B2 = n) by (unfold B2; solve_len). clear HB1.
  tail_norm. tail_norm.
  unfold is_select. rewrite (lookup_at _ _ n 1) by done. cbn [lookup list_lookup el_tag].
  rewrite bool_decide_eq_false_2 by done.
  assert (HB2e : B2 = alter (with_children (el_children pe ++ [n + 1])) parent ns).
  { unfold B2, B1, B. rewrite !list_alter_alter_eq.
    apply list_alter_ext; [|done]. intros e He.
    replace e with pe by congruence.
    unfold remove_child, add_child, with_children. cbn.
    by rewrite remove_last_but_one. }
  rewrite HB2e. reflexivity.
Qed.

(** The world [addFolder(name)] leaves. *)
Lemma Panel_addFolder_ok this pp pe name ns os ps pls nr tr rp :
  pls !! this = Some pp → ns !! _elt pp = Some pe → el_tag pe ≠ "select" →
  Forall (λ c, c < length ns) (el_children pe) →
  let n := length ns in
  Panel_addFolder this name (World ns os ps pls nr tr rp) =
  (Ok (length pls),
   World (alter (with_children (el_children pe ++ [n + 1])) (_elt pp) ns
          ++ [Element "div" (Some (n + 1)) [] (style_of (Some [("marginLeft", "10px")])) ∅ [];
              Element "details" (Some (_elt pp)) [n + 2; n] (style_of (Some details_style))
                (<["open" := VBool true]> ∅) [];
              Element "summary" (Some (n + 1)) [] (style_of (Some summary_style))
                (<["textContent" := VString name]> ∅) []])
     os ps
     (alter (λ p, Panel (_elt p) (folders p ++ [length pls]) (title p) (details p)) this pls
      ++ [Panel n [] (Some name) (Some (n + 1))])
     nr tr rp).
Proof.
  intros Hpp Hpe Ht Hch n.
  assert (Hlt : this < length pls) by (by eapply lookup_lt_Some).
  unfold Panel_addFolder. step get_panel_ok.
  erewrite bind_ok by (by eapply new_Folder_exact). fold n.
  erewrite bind_ok.
  2:{ eapply alter_panel_ok. by apply lookup_app_l_Some. }
  unfold ret. by rewrite alter_app_l by done.
Qed.

(** X11.  [addFolder(name)] on a panel returns a new folder and pushes it
    last on [folders].  In the document the element of the panel gains one
    child, the [<details>] of the folder, whose children are the summary
    showing [name] and then the element of the folder itself: the element
    is moved from the panel into the [<details>], so that what is added to
    the folder later lies inside it.  Nothing else changes. *)
Theorem addFolder_structure w this pp pe name :
  panels w !! this = Some pp → nodes w !! _elt pp = Some pe → el_tag pe ≠ "select" →
  Forall (λ c, c < length (nodes w)) (el_children pe) →
  let n := length (nodes w) in
  let f := length (panels w) in
  ∃ w1 pe' d s e,
    Panel_addFolder this name w = (Ok f, w1) ∧
    panels w1 !! this = Some (Panel (_elt pp) (folders pp ++ [f]) (title pp) (details pp)) ∧
    panels w1 !! f = Some (Panel n [] (Some name) (Some (n + 1))) ∧
    nodes w1 !! _elt pp = Some pe' ∧ el_children pe' = el_children pe ++ [n + 1] ∧
    nodes w1 !! (n + 1) = Some d ∧ el_tag d = "details" ∧
    el_parent d = Some (_elt pp) ∧ el_children d = [n + 2; n] ∧
    nodes w1 !! (n + 2) = Some s ∧ el_tag s = "summary" ∧
    prop_of s "textContent" = VString name ∧
    nodes w1 !! n = Some e ∧ el_tag e = "div" ∧ el_parent e = Some (n + 1) ∧
    el_children e = [] ∧
    (∀ m, m ≠ _elt pp → m < n → nodes w1 !! m = nodes w !! m) ∧
    objects w1 = objects w ∧ params w1 = params w ∧ trace w1 = trace w.
Proof.
  destruct w as [ns os ps pls nr tr rp]. cbn [nodes objects params panels trace].
  intros Hpp Hpe Ht Hch. cbv zeta. set (n := length ns). set (f := length pls).
  assert (Hlt : this < length pls) by (by eapply lookup_lt_Some).
  assert (Hlte : _elt pp < n) by (by eapply lookup_lt_Some).
  rewrite (Panel_addFolder_ok this pp pe) by done. fold n f.
  set (B := alter (with_children (el_children pe ++ [n + 1])) (_elt pp) ns).
  assert (HB : length B = n) by (unfold B; solve_len).
  eexists _, (with_children (el_children pe ++ [n + 1]) pe), _, _, _.
  split; [reflexivity|]. cbn [nodes objects params panels trace].
  split.
  { apply lookup_app_l_Some. by rewrite list_lookup_alter_eq, Hpp. }
  split.
  { rewrite lookup_app_r by (rewrite length_alter; lia).
    rewrite length_alter. by replace (f - length pls) with 0 by (unfold f; lia). }
  split; [apply lookup_base; unfold B; by rewrite list_lookup_alter_eq, Hpe|].
  split; [done|].
  split; [rewrite (lookup_at _ _ n 1) by done; reflexivity|].
  split; [done|]. split; [done|]. split; [done|].
  split; [rewrite (lookup_at _ _ n 2) by done; reflexivity|].
  split; [done|]. split; [apply prop_of_insert|].
  split; [rewrite lookup_at0 by done; reflexivity|].
  split; [done|]. split; [done|]. split; [done|].
  split; [|done].
  intros m Hm Hmn. rewrite lookup_app_l by (rewrite HB; lia).
  unfold B. by rewrite list_lookup_alter_ne.
Qed.

(** ** The highlight of a Number *)

Lemma on_focus_ok ns os ps pls nr tr rp this p ie :
  ps !! this = Some p → ns !! input p = Some ie →
  on_focus this (World ns os ps pls nr tr rp) =
  (Ok tt,
   World (alter (restyle [("borderColor", "#ff6b6b");
                          ("boxShadow", "0 0 10px rgba(255, 107, 107, 0.5)")])
            (input p) ns) os ps pls nr tr rp).
Proof.
  intros Hp Hi. unfold on_focus. step get_param_ok.
  step assign_style_ok.
  erewrite assign_style_ok by (by rewrite list_lookup_alter_eq, Hi).
  by rewrite list_alter_alter_eq.
Qed.

Lemma on_blur_ok ns os ps pls nr tr rp this p ie :
  ps !! this = Some p → ns !! input p = Some ie →
  on_blur this (World ns os ps pls nr tr rp) =
  (Ok tt,
   World (alter (restyle [("borderColor", "rgba(255, 255, 255, 0.3)");
                          ("boxShadow", "none")])
            (input p) ns) os ps pls nr tr rp).
Proof.
  intros Hp Hi. unfold on_blur. step get_param_ok.
  step assign_style_ok.
  erewrite assign_style_ok by (by rewrite list_lookup_alter_eq, Hi).
  by rewrite list_alter_alter_eq.
Qed.

Lemma restyle_twice a b c d e :
  restyle [("borderColor", a); ("boxShadow", b)]
    (restyle [("borderColor", c); ("boxShadow", d)] e)
  = restyle [("borderColor", a); ("boxShadow", b)] e.
Proof.
  unfold restyle, with_style, apply_style. cbn. f_equal.
  rewrite (insert_insert_ne _ "boxShadow" "borderColor") by done.
  rewrite insert_insert_eq.
  rewrite (insert_insert_ne _ "borderColor" "boxShadow") by done.
  by rewrite insert_insert_eq.
Qed.

(** X12.  On a [Number], whose control has the [focus] and [blur] listeners
    of [setup]: a [focus] event sets the border colour and the shadow of the
    highlight, a [blur] event sets the resting ones, and neither touches
    anything but these two style properties of the control (not its value,
    not the target, no hook, no callback).  The last event decides:
    [focus] then [blur] leaves what [blur] alone leaves, and conversely. *)
Theorem focus_blur_highlight w this p ie :
  params w !! this = Some p → nodes w !! input p = Some ie →
  listeners_for "focus" ie = [FocusListener this] →
  listeners_for "blur" ie = [BlurListener this] →
  let lit := restyle [("borderColor", "#ff6b6b");
                      ("boxShadow", "0 0 10px rgba(255, 107, 107, 0.5)")] in
  let rest := restyle [("borderColor", "rgba(255, 255, 255, 0.3)");
                       ("boxShadow", "none")] in
  dispatchEvent classes (input p) "focus" w
  = (Ok tt, set_nodes (alter lit (input p)) w) ∧
  dispatchEvent classes (input p) "blur" w
  = (Ok tt, set_nodes (alter rest (input p)) w) ∧
  (dispatchEvent classes (input p) "focus" ;;; dispatchEvent classes (input p) "blur") w
  = dispatchEvent classes (input p) "blur" w ∧
  (dispatchEvent classes (input p) "blur" ;;; dispatchEvent classes (input p) "focus") w
  = dispatchEvent classes (input p) "focus" w ∧
  el_props (lit ie) = el_props ie ∧ el_props (rest ie) = el_props ie.
Proof.
  destruct w as [ns os ps pls nr tr rp].
  intros Hp Hi Hf Hb lit rest. cbn [params nodes] in Hp, Hi. cbn [input].
  assert (Hfocus : ∀ ns' ie', ns' !! input p = Some ie' →
            listeners_for "focus" ie' = [FocusListener this] →
            dispatchEvent classes (input p) "focus" (World ns' os ps pls nr tr rp)
            = (Ok tt, World (alter lit (input p) ns') os ps pls nr tr rp)).
  { intros ns' ie' Hi' Hf'. erewrite dispatchEvent_closures by exact Hi'.
    rewrite Hf'. cbn [run_closures run_closure].
    erewrite bind_ok; [reflexivity|]. apply reporting_ok. by eapply on_focus_ok. }
  assert (Hblur : ∀ ns' ie', ns' !! input p = Some ie' →
            listeners_for "blur" ie' = [BlurListener this] →
            dispatchEvent classes (input p) "blur" (World ns' os ps pls nr tr rp)
            = (Ok tt, World (alter rest (input p) ns') os ps pls nr tr rp)).
  { intros ns' ie' Hi' Hb'. erewrite dispatchEvent_closures by exact Hi'.
    rewrite Hb'. cbn [run_closures run_closure].
    erewrite bind_ok; [reflexivity|]. apply reporting_ok. by eapply on_blur_ok. }
  unfold set_nodes. cbn [nodes objects params panels next_ref trace reported].
  split; [by eapply Hfocus|]. split; [by eapply Hblur|]. split; [|split; [|done]].
  - erewrite bind_ok by (by eapply Hfocus).
    erewrite (Hblur _ (lit ie)); [|by rewrite list_lookup_alter_eq, Hi|done].
    erewrite (Hblur ns) by done. rewrite list_alter_alter_eq.
    do 2 f_equal. apply list_alter_ext; [|done]. intros e _. apply restyle_twice.
  - erewrite bind_ok by (by eapply Hblur).
    erewrite (Hfocus _ (rest ie)); [|by rewrite list_lookup_alter_eq, Hi|done].
    erewrite (Hfocus ns) by done. rewrite list_alter_alter_eq.
    do 2 f_equal. apply list_alter_ext; [|done]. intros e _. apply restyle_twice.
Qed.

(** ** ReadOnly *)

Lemma ReadOnly_style_twice :
  apply_style (apply_style ∅ ReadOnly_style) ReadOnly_style = apply_style ∅ ReadOnly_style.
Proof. vm_compute. reflexivity. Qed.

(** The world [new ReadOnly(parent, content)] leaves. *)
Lemma new_ReadOnly_ok parent content ns os ps pls nr tr rp :
  container ns parent →
  let n := length ns in
  new_ReadOnly parent content (World ns os ps pls nr tr rp) =
  (Ok (length ps),
   World (alter (add_child n) parent ns
          ++ row_nodes parent n [n + 3]
               (Element "label" (Some (n + 2)) [] (apply_style ∅ ReadOnly_style)
                  (<["textContent" := VString (text_of content)]> ∅) []))
     os (ps ++ [Param "ReadOnly" n (n + 1) (n + 2) (n + 3) None None None]) pls nr tr rp).
Proof.
  intros Hc n.
  set (B := alter (add_child n) parent ns).
  assert (HB : length B = n) by (unfold B; solve_len).
  unfold new_ReadOnly. erewrite bind_ok by (by apply new_Param_ok). fold n B.
  unfold ReadOnly_update, row_nodes.
  step get_param_ok. cbn [input].
  step set_textContent_leaf. tail_norm.
  unfold css. step assign_style_ok. tail_norm. reflexivity.
Qed.

(** X13.  [new ReadOnly(parent, content)] appends a row whose control is a
    [<label>] showing the text of [content] (none for [null] and
    [undefined]) in the style of the class.  The control has no listener, so
    no event does anything on it, and no target is read or written.
    [update(content)] replaces the text and leaves the style as it is. *)
Theorem readOnly_widget w parent content :
  container (nodes w) parent →
  let n := length (nodes w) in
  let this := length (params w) in
  ∃ w1 ie,
    new_ReadOnly parent content w = (Ok this, w1) ∧
    params w1 !! this = Some (Param "ReadOnly" n (n + 1) (n + 2) (n + 3) None None None) ∧
    nodes w1 !! (n + 3) = Some ie ∧
    ie = Element "label" (Some (n + 2)) [] (apply_style ∅ ReadOnly_style)
           (<["textContent" := VString (text_of content)]> ∅) [] ∧
    objects w1 = objects w ∧ trace w1 = trace w ∧
    (∀ type, dispatchEvent classes (n + 3) type w1 = (Ok tt, w1)) ∧
    ∀ c2, ∃ w2 ie2,
      ReadOnly_update this c2 w1 = (Ok tt, w2) ∧
      nodes w2 !! (n + 3) = Some ie2 ∧
      prop_of ie2 "textContent" = VString (text_of c2) ∧
      el_style ie2 = el_style ie ∧
      (∀ m, m ≠ n + 3 → nodes w2 !! m = nodes w1 !! m) ∧
      objects w2 = objects w ∧ trace w2 = trace w.
Proof.
  destruct w as [ns os ps pls nr tr rp]. intros Hc n this.
  cbn [nodes params] in Hc, n, this. cbn [objects trace].
  set (B := alter (add_child n) parent ns).
  assert (HB : length B = n) by (unfold B; solve_len).
  set (ie := Element "label" (Some (n + 2)) [] (apply_style ∅ ReadOnly_style)
               (<["textContent" := VString (text_of content)]> ∅) []).
  set (p := Param "ReadOnly" n (n + 1) (n + 2) (n + 3) None None None).
  set (w1 := World (B ++ row_nodes parent n [n + 3] ie) os (ps ++ [p]) pls nr tr rp).
  assert (Hrun : new_ReadOnly parent content (World ns os ps pls nr tr rp) = (Ok this, w1)).
  { by apply new_ReadOnly_ok. }
  assert (Hi : nodes w1 !! (n + 3) = Some ie).
  { unfold w1, row_nodes. cbn [nodes]. by rewrite lookup_at by done. }
  exists w1, ie. split; [exact Hrun|]. split; [apply lookup_new|]. split; [exact Hi|].
  split; [done|]. split; [done|]. split; [done|]. split.
  - intros type. unfold w1 in *. cbn [nodes] in Hi.
    erewrite dispatchEvent_closures by exact Hi. reflexivity.
  - intros c2.
    exists (World (B ++ row_nodes parent n [n + 3]
                     (restyle ReadOnly_style (with_text (text_of c2) ie)))
              os (ps ++ [p]) pls nr tr rp).
    eexists. split.
    { unfold ReadOnly_update, w1, row_nodes.
      step get_param_ok. cbn [input p].
      step set_textContent_leaf. tail_norm.
      unfold css. erewrite assign_style_ok by (rewrite lookup_at by solve_len; reflexivity).
      tail_norm. reflexivity. }
    cbn [nodes objects trace].
    split; [unfold row_nodes; by rewrite lookup_at by done|].
    split; [unfold prop_of, restyle, with_style, with_text, with_prop; cbn;
            by rewrite lookup_insert_eq|].
    split; [apply ReadOnly_style_twice|]. split; [|done].
    intros m Hm. unfold w1, row_nodes. cbn [nodes].
    destruct (decide (m < n)) as [Hlt|Hge].
    + by rewrite !lookup_app_l by lia.
    + rewrite !lookup_app_r by lia. rewrite HB.
      destruct (m - n) as [|[|[|[|k]]]] eqn:E; try done. lia.
Qed.

(** ** The readout of a Range *)


(** ** What the options of a Select leave alone *)

Lemma sel_gen_not_option (ns : list element) sel ls ids ss f j e :
  sel_gen ns sel ls ids ss f → ns !! j = Some e → el_tag e ≠ "option" → j ∉ ids.
Proof.
  intros (_ & _ & _ & _ & _ & Hall) Hj Ht [i Hi]%list_elem_of_lookup.
  destruct (Hall i j Hi) as (oe & s & Hoe & _ & Hto & _). congruence.
Qed.

Section Frame.
Context (os : list (gmap string value)) (ps : list param) (pls : list panel)
        (nr : nat) (tr : list event) (rp : list error).
Local Abbreviation W ns := (World ns os ps pls nr tr rp).
Implicit Types (ns : list element).

(** One turn of the loop creates one node and touches only the [<select>]
    and its options. *)
Lemma Select_add_option_frame ns sel ls ids ss ci initial key v ns' :
  sel_inv ns sel ls ids ss ci →
  Select_add_option sel initial key v (W ns) = (Ok tt, W ns') →
  length ns' = S (length ns) ∧
  ∀ j e, ns !! j = Some e → el_tag e ≠ "option" → j ≠ sel → ns' !! j = Some e.
Proof.
  intros Hinv0 Hrun.
  pose proof Hinv0 as [((se & Hse & Ht & _) & _ & _ & _ & Hlen & _) _].
  pose proof (sel_inv_append _ _ _ _ _ _ Hinv0) as Hinv. set (m := length ns) in *.
  set (k := length ids).
  assert (Hk : (ids ++ [m]) !! k = Some m) by (unfold k; apply lookup_new).
  unfold Select_add_option in Hrun.
  erewrite bind_ok in Hrun by (by eapply spawn_option). fold m in Hrun.
  set (ns1 := reset_selectedness _ _) in *.
  assert (Hl1 : length ns1 = S m).
  { unfold ns1. rewrite reset_selectedness_length, length_app, length_alter. cbn. lia. }
  assert (Hf1 : ∀ j e, ns !! j = Some e → el_tag e ≠ "option" → j ≠ sel →
                       ns1 !! j = Some e).
  { intros j e Hj Hte Hne. apply reset_selectedness_other; [|done].
    apply lookup_base. by rewrite list_lookup_alter_ne. }
  assert (Halt : ∀ (h : element → element) (l : list element), (∀ j e, ns !! j = Some e → el_tag e ≠ "option" → j ≠ sel →
                                l !! j = Some e) →
                        ∀ j e, ns !! j = Some e → el_tag e ≠ "option" → j ≠ sel →
                               alter h m l !! j = Some e).
  { intros h l Hl j e Hj Hte Hne.
    rewrite list_lookup_alter_ne; [by apply Hl|].
    apply lookup_lt_Some in Hj. unfold m. lia. }
  destruct Hinv as [Hinv Hci].
  destruct (sel_gen_lookup _ _ _ _ _ _ _ _ Hinv Hk) as (e1 & He1 & Ht1 & Hp1).
  erewrite bind_ok in Hrun
    by (eapply set_property_plain; [exact He1|rewrite Ht1; reflexivity]).
  eapply (sel_gen_alter (with_prop "text" (convert (el_tag e1) "text" (VString key)))
            _ _ _ _ _ _ k m
            (option_value (with_prop "text" (convert "option" "text" (VString key)) e1)))
    in Hinv;
    [|done|intros e; by apply with_prop_keeps
     |intros e' ?; rewrite Ht1; by replace e' with e1 by congruence].
  pose proof (Halt (with_prop "text" (convert (el_tag e1) "text" (VString key))) _ Hf1) as Hf1'; clear Hf1; rename Hf1' into Hf1.
  set (ns2 := alter _ m ns1) in *.
  destruct (sel_gen_lookup _ _ _ _ _ _ _ _ Hinv Hk) as (e2 & He2 & Ht2 & Hp2).
  erewrite bind_ok in Hrun
    by (eapply set_property_plain; [exact He2|rewrite Ht2; reflexivity]).
  rewrite Ht2, convert_option_value in Hrun.
  eapply (sel_gen_alter (with_prop "value" (VString (encoded v)))
            _ _ _ _ _ _ k m (encoded v)) in Hinv;
    [|done|intros e; by apply with_prop_keeps|intros e' _; apply option_value_value].
  pose proof (Halt (with_prop "value" (VString (encoded v))) _ Hf1) as Hf1'; clear Hf1; rename Hf1' into Hf1.
  set (ns3 := alter _ m ns2) in *.
  destruct (sel_gen_lookup _ _ _ _ _ _ _ _ Hinv Hk) as (e3 & He3 & Ht3 & Hp3).
  erewrite bind_ok in Hrun by (eapply assign_style_ok; exact He3).
  eapply (sel_gen_alter (restyle [("background", "#764ba2")]) _ _ _ _ _ _ k m
            (option_value e3))
    in Hinv; [|done|intros e; by apply restyle_keeps
              |intros e' ?; by replace e' with e3 by congruence].
  pose proof (Halt (restyle [("background", "#764ba2")]) _ Hf1) as Hf1'; clear Hf1; rename Hf1' into Hf1.
  set (ns4 := alter _ m ns3) in *.
  destruct (sel_gen_lookup _ _ _ _ _ _ _ _ Hinv Hk) as (e4 & He4 & Ht4 & Hp4).
  erewrite bind_ok in Hrun by (eapply assign_style_ok; exact He4).
  eapply (sel_gen_alter (restyle [("color", "#fff")]) _ _ _ _ _ _ k m (option_value e4))
    in Hinv; [|done|intros e; by apply restyle_keeps
              |intros e' ?; by replace e' with e4 by congruence].
  pose proof (Halt (restyle [("color", "#fff")]) _ Hf1) as Hf1'; clear Hf1; rename Hf1' into Hf1.
  set (ns5 := alter _ m ns4) in *.
  assert (Hl5 : length ns5 = S m).
  { unfold ns5, ns4, ns3, ns2. by rewrite !length_alter. }
  destruct (strict_eq v initial).
  - destruct (sel_gen_lookup _ _ _ _ _ _ _ _ Hinv Hk) as (e5 & He5 & Ht5 & Hp5).
    pose proof (sel_gen_select _ _ _ _ _ _ _ _ Hinv Hk) as Hinv1.
    erewrite set_property_selected in Hrun;
      [|exact He5|exact Hp5|by eapply is_select_inv].
    injection Hrun as <-. cbn zeta.
    erewrite options_of_all by exact Hinv1.
    split.
    + by rewrite reset_selectedness_length, select_only_length, length_alter.
    + intros j e Hj Hte Hne. apply reset_selectedness_other; [|done].
      rewrite select_only_other.
      * by apply Halt.
      * intros [Hin| ->%list_elem_of_singleton]%elem_of_app.
        -- destruct Hinv0 as [Hg _]. by eapply (sel_gen_not_option ns).
        -- apply lookup_lt_Some in Hj. unfold m in Hj. lia.
  - injection Hrun as <-. split; [exact Hl5|exact Hf1].
Qed.

Lemma Select_add_options_frame initial entries : ∀ ns sel ls ids ss ci ns',
  sel_inv ns sel ls ids ss ci →
  Select_add_options sel initial entries (W ns) = (Ok tt, W ns') →
  length ns' = length ns + length entries ∧
  ∀ j e, ns !! j = Some e → el_tag e ≠ "option" → j ≠ sel → ns' !! j = Some e.
Proof.
  induction entries as [|[key v] rest IH]; intros ns sel ls ids ss ci ns' Hinv Hrun.
  - cbn in Hrun. injection Hrun as <-. split; [cbn; lia|done].
  - cbn [Select_add_options] in Hrun.
    destruct (Select_add_option_ok os ps pls nr tr rp ns sel ls ids ss ci initial key v
                Hinv) as (ns1 & Hrun1 & Hinv1).
    destruct (Select_add_option_frame _ _ _ _ _ _ _ _ _ _ Hinv Hrun1) as [Hl1 Hf1].
    erewrite bind_ok in Hrun by exact Hrun1.
    destruct (IH _ _ _ _ _ _ _ Hinv1 Hrun) as [Hl Hf].
    split; [cbn [length]; lia|].
    intros j e Hj Hte Hne. apply Hf; [by apply Hf1|done..].
Qed.

End Frame.

(** ** The rows of a panel *)

(** The nodes a Select leaves, whether its constructor returns or throws in
    [value()]: those of the row, and one option for each entry. *)
Lemma new_Select_nodes parent target property args ns os ps pls nr tr rp o entries :
  container ns parent → os !! target = Some o →
  Object_entries (nth 0 args VUndefined) = inr entries →
  let n := length ns in
  let this := length ps in
  ∃ r w1,
    new_InputParam classes "Select" parent target property args
      (World ns os ps pls nr tr rp) = (r, w1) ∧
    length (nodes w1) = n + 4 + length entries ∧
    ∀ j e,
      (alter (add_child n) parent ns
       ++ row_nodes parent n [n + 3]
            (control "select" n this target property
               (apply_style ∅ select_style) ∅ [])) !! j = Some e →
      el_tag e ≠ "option" → j ≠ n + 3 → nodes w1 !! j = Some e.
Proof.
  intros Hc Ho He n this.
  rewrite (new_Select_prologue _ _ _ _ _ _ _ _ _ _ _ o) by done. rewrite He.
  fold n this.
  set (B := alter (add_child n) parent ns).
  assert (HB : length B = n) by (unfold B; solve_len).
  set (ls := [("input", InputListener this target property); ("change", ChangeListener this)]).
  set (ns0 := B ++ row_nodes parent n [n + 3]
                     (control "select" n this target property
                        (apply_style ∅ select_style) ∅ [])).
  assert (Hl0 : length ns0 = n + 4).
  { unfold ns0. rewrite length_app, HB. reflexivity. }
  assert (Hinv0 : sel_inv ns0 (n + 3) ls [] [] 0).
  { split; [|cbn; lia]. split_and!.
    - eexists. split; [unfold ns0; rewrite lookup_at by done; reflexivity|]. done.
    - apply NoDup_nil_2.
    - apply not_elem_of_nil.
    - apply Forall_nil_2.
    - done.
    - intros i o' Hi. by rewrite lookup_nil in Hi. }
  set (p := Param "Select" n (n + 1) (n + 2) (n + 3) None None None).
  destruct (Select_add_options_ok os (ps ++ [p]) pls nr
              (tr ++ [CallSetup this (default VUndefined (o !! property)) args]) rp
              (default VUndefined (o !! property)) entries
              _ _ _ _ _ _ Hinv0) as (ns' & ids & Hrun & Hlen & Hinv).
  destruct (Select_add_options_frame _ _ _ _ _ _ _ _ _ _ _ _ _ _ _ Hinv0 Hrun) as [Hl Hf].
  erewrite bind_ok by exact Hrun. subst p.
  pose proof Hinv as [((se & Hse & Hts & _) & _) _].
  unfold call_value. enter_hook classes_Select. unfold Select_value.
  step get_param_ok. cbn [input].
  rewrite ?bind_assoc.
  erewrite bind_ok by (by eapply get_property_select). cbn [ToString].
  destruct (JSON_parse (select_value ns' (n + 3))) as [e|j].
  - eexists _, _. split; [reflexivity|]. cbn [nodes]. split; [lia|exact Hf].
  - unfold fresh at 1. unfold bind at 1. cbn [next_ref].
    destruct (relabel j nr) as [j' nr'] eqn:Hj. wsimpl.
    unfold call_update. enter_hook classes_Select. unfold InputParam_update.
    rewrite bind_ret. unfold ret.
    eexists _, _. split; [reflexivity|]. cbn [nodes]. split; [lia|exact Hf].
Qed.

(** X15.  Each method of [Panel] that creates something appends one child to
    the element of the panel, after those it has: the box of the row for
    [bool], [number], [range], [select] and [readOnly], the [<details>] for
    [addFolder].  For [select] this holds whatever the options are, also
    when the constructor throws.  The children of a panel are thus in the
    order of the calls. *)
Theorem panel_children_in_order w this pp pe c :
  panels w !! this = Some pp → nodes w !! _elt pp = Some pe → el_tag pe = "div" →
  _elt pp ≠ head → container (nodes w) head →
  Forall (λ x, x < length (nodes w)) (el_children pe) →
  (match c with
   | AddFolder t _ | AddReadOnly t _ => t = this
   | AddBool t target _ | AddNumber t target _ | AddRange t target _ _ _ _
   | AddSelect t target _ _ => t = this ∧ is_Some (objects w !! target)
   | _ => False
   end) →
  ∃ r w1 pe1 child ce,
    run_call c w = (r, w1) ∧
    nodes w1 !! _elt pp = Some pe1 ∧
    el_children pe1 = el_children pe ++ [child] ∧
    length (nodes w) ≤ child ∧
    nodes w1 !! child = Some ce ∧ el_parent ce = Some (_elt pp).
Proof.
  destruct w as [ns os ps pls nr tr rp]. cbn [nodes objects panels].
  intros Hpp Hpe Ht Hnh Hh Hch Hcall.
  set (n := length ns).
  assert (Hc : container ns (_elt pp)) by (exists pe; by rewrite Ht).
  assert (Hlt : _elt pp < n) by (by eapply lookup_lt_Some).
  assert (Hpar : ∀ T, (alter (add_child n) (_elt pp) ns ++ T) !! _elt pp
                      = Some (add_child n pe)).
  { intros T. apply lookup_base. by rewrite list_lookup_alter_eq, Hpe. }
  destruct c; try done.
  - (* addFolder *)
    subst this0. cbn [run_call].
    erewrite bind_ok.
    2:{ apply (Panel_addFolder_ok this pp pe); [done|done|by rewrite Ht|done]. }
    fold n. eexists _, _, _, (n + 1), _. split; [reflexivity|]. cbn [nodes].
    split; [apply lookup_base; by rewrite list_lookup_alter_eq, Hpe|].
    split; [done|]. split; [lia|].
    split; [rewrite (lookup_at _ _ n 1) by solve_len; reflexivity|done].
  - (* bool *)
    destruct Hcall as [-> [o Ho]]. cbn [run_call]. unfold Panel_bool.
    step get_panel_ok.
    erewrite bind_ok by (by apply (new_Boolean_ok _ _ _ _ _ _ _ _ _ _ _ o)). fold n.
    eexists _, _, _, n, _. split; [reflexivity|]. cbn [nodes].
    split; [apply Hpar|]. split; [done|]. split; [lia|].
    split; [rewrite lookup_at0 by solve_len; reflexivity|done].
  - (* number *)
    destruct Hcall as [-> [o Ho]]. cbn [run_call]. unfold Panel_number.
    step get_panel_ok.
    erewrite bind_ok by (by apply (new_Number_ok _ _ _ _ _ _ _ _ _ _ _ o)). fold n.
    eexists _, _, _, n, _. split; [reflexivity|]. cbn [nodes].
    split; [apply Hpar|]. split; [done|]. split; [lia|].
    split; [rewrite lookup_at0 by solve_len; reflexivity|done].
  - (* range *)
    destruct Hcall as [-> [o Ho]]. cbn [run_call]. unfold Panel_range.
    step get_panel_ok.
    erewrite bind_ok by (by apply (new_Range_ok _ _ _ _ _ _ _ _ _ _ _ o)). fold n.
    eexists _, _, _, n, _. split; [reflexivity|]. cbn [nodes].
    split.
    { apply lookup_base. rewrite list_lookup_alter_ne by done.
      by rewrite list_lookup_alter_eq, Hpe. }
    split; [done|]. split; [lia|].
    split; [rewrite lookup_at0 by solve_len; reflexivity|done].
  - (* select *)
    destruct Hcall as [-> [o Ho]]. cbn [run_call]. unfold Panel_select.
    step get_panel_ok.
    destruct (Object_entries (nth 0 [options] VUndefined)) as [e|entries] eqn:He.
    + unfold bind at 1.
      rewrite (new_Select_prologue _ _ _ _ _ _ _ _ _ _ _ o) by done. rewrite He.
      fold n. eexists _, _, _, n, _. split; [reflexivity|]. cbn [nodes].
      split; [apply Hpar|]. split; [done|]. split; [lia|].
      split; [rewrite lookup_at0 by solve_len; reflexivity|done].
    + destruct (new_Select_nodes (_elt pp) target property [options] ns os ps pls nr tr rp
                  o entries Hc Ho He) as (r & w1 & Hrun & _ & Hf).
      fold n in Hf. unfold bind at 1. rewrite Hrun.
      eexists (match r with Ok _ => Ok tt | Throw e => Throw e end), w1,
        (add_child n pe), n, _.
      split; [by destruct r|].
      split; [apply Hf; [apply Hpar|cbn; by rewrite Ht|lia]|].
      split; [done|]. split; [lia|].
      split; [apply Hf; [rewrite lookup_at0 by solve_len; reflexivity|done|lia]|done].
  - (* readOnly *)
    subst this0. cbn [run_call]. unfold Panel_readOnly.
    step get_panel_ok.
    erewrite bind_ok by (by apply new_ReadOnly_ok). fold n.
    eexists _, _, _, n, _. split; [reflexivity|]. cbn [nodes].
    split; [apply Hpar|]. split; [done|]. split; [lia|].
    split; [rewrite lookup_at0 by solve_len; reflexivity|done].
Qed.

(** ** A constructor that throws *)

(** X16.  The constructor of [InputParam] does not undo what it has done when
    [setup] is missing: the error leaves it after the constructor of [Param]
    has appended the row to [parent] and the two listeners have been
    registered on the control, and the row stays in the document.  The target
    has been read, not written. *)
Theorem failed_construction_leaves_row ct c parent target property args w o :
  container (nodes w) parent → objects w !! target = Some o →
  setup_hook (ct c) = None →
  let n := length (nodes w) in
  let this := length (params w) in
  ∃ w',
    new_InputParam ct c parent target property args w
    = (Throw (not_implemented "setup()"), w') ∧
    nodes w' = alter (add_child n) parent (nodes w)
               ++ row_nodes parent n [n + 3]
                    (control (call_tag ct c) n this target property ∅ ∅ []) ∧
    objects w' = objects w.
Proof.
  destruct w as [ns os ps pls nr tr rp]. cbn [nodes objects params].
  intros (pe & Hp & Ht) Ho Hs. cbv zeta.
  destruct (new_InputParam_prologue ct c parent target property args
              ns pe o os ps pls nr tr rp Hp Ho) as (B & HB & HBc & ->).
  rewrite (HBc Ht).
  unfold call_setup. step get_param_ok. step_log. cbn [cls]. rewrite Hs.
  eexists. split; [reflexivity|]. done.
Qed.

(** ** GUI *)

(** X17.  [new GUI()] appends to [document.body] a [<div>] in the style of
    the GUI and makes it the element of a new panel without folders.  There
    is no single instance: each call adds a panel of its own, and two calls
    leave two elements under the body, in the order of the calls. *)
Theorem new_GUI_panels w be :
  nodes w !! body = Some be → el_tag be ≠ "select" →
  let n := length (nodes w) in
  let g := length (panels w) in
  ∃ w1 w2 be2,
    new_GUI w = (Ok g, w1) ∧
    panels w1 = panels w ++ [Panel n [] None None] ∧
    nodes w1 !! n = Some (Element "div" (Some body) [] (style_of (Some GUI_style)) ∅ []) ∧
    objects w1 = objects w ∧ trace w1 = trace w ∧
    new_GUI w1 = (Ok (S g), w2) ∧
    panels w2 = panels w ++ [Panel n [] None None; Panel (S n) [] None None] ∧
    nodes w2 !! body = Some be2 ∧ el_children be2 = el_children be ++ [n; S n].
Proof.
  destruct w as [ns os ps pls nr tr rp]. cbn [nodes objects panels trace].
  intros Hb Ht. cbv zeta. set (n := length ns).
  assert (Hc : container ns body) by (by exists be).
  assert (Hlt : body < n) by (by eapply lookup_lt_Some).
  set (B := alter (add_child n) body ns).
  assert (HB : length B = n) by (unfold B; solve_len).
  set (d := spawned "div" body (Some GUI_style)).
  assert (H1 : new_GUI (World ns os ps pls nr tr rp)
               = (Ok (length pls),
                  World (B ++ [d]) os ps (pls ++ [Panel n [] None None]) nr tr rp)).
  { unfold new_GUI, new_Panel. by step spawn_ok. }
  assert (Hc1 : container (B ++ [d]) body).
  { apply container_base. by apply container_alter. }
  assert (H2 : new_GUI (World (B ++ [d]) os ps (pls ++ [Panel n [] None None]) nr tr rp)
               = (Ok (S (length pls)),
                  World (alter (add_child (S n)) body (B ++ [d]) ++ [d]) os ps
                    ((pls ++ [Panel n [] None None]) ++ [Panel (S n) [] None None])
                    nr tr rp)).
  { unfold new_GUI, new_Panel. step spawn_ok. wsimpl.
    rewrite !length_app, HB. cbn [length]. rewrite !Nat.add_1_r. reflexivity. }
  eexists _, _, (add_child (S n) (add_child n be)).
  split; [exact H1|]. cbn [nodes objects panels trace].
  split; [done|]. split; [by rewrite lookup_at0 by done|].
  split; [done|]. split; [done|]. split; [exact H2|].
  split; [by rewrite <- app_assoc|]. split.
  - apply lookup_base. rewrite list_lookup_alter_eq.
    erewrite lookup_base; [reflexivity|]. unfold B. by rewrite list_lookup_alter_eq, Hb.
  - unfold add_child. cbn. by rewrite <- app_assoc.
Qed.

(** ** What a folder hides *)

(** A change of a node that keeps its tag, its children, its listeners and
    its properties other than [open]. *)
Lemma lookup_alter_cases (h : element → element) n (ns : list element) o :
  alter h n ns !! o = ns !! o ∨
  ∃ e, ns !! o = Some e ∧ alter h n ns !! o = Some (h e).
Proof.
  destruct (decide (n = o)) as [->|Hne].
  - rewrite list_lookup_alter_eq. destruct (ns !! o) as [e|]; [|by left].
    right. by exists e.
  - left. by rewrite list_lookup_alter_ne.
Qed.

Section Visual.
Context (h : element → element).
Hypothesis h_tag : ∀ e, el_tag (h e) = el_tag e.
Hypothesis h_children : ∀ e, el_children (h e) = el_children e.
Hypothesis h_listeners : ∀ e, el_listeners (h e) = el_listeners e.
Hypothesis h_props : ∀ e key, key ≠ "open" → el_props (h e) !! key = el_props e !! key.

Lemma visual_is_option n (ns : list element) o :
  is_option (alter h n ns) o = is_option ns o.
Proof.
  unfold is_option.
  destruct (lookup_alter_cases h n ns o) as [->|(e & He & ->)]; [done|].
  by rewrite He, h_tag.
Qed.

Lemma visual_is_selected n (ns : list element) o :
  is_selected (alter h n ns) o = is_selected ns o.
Proof.
  unfold is_selected.
  destruct (lookup_alter_cases h n ns o) as [->|(e & He & ->)]; [done|].
  by rewrite He, h_props.
Qed.

Lemma visual_option_value_of n (ns : list element) o :
  option_value_of (alter h n ns) o = option_value_of ns o.
Proof.
  unfold option_value_of.
  destruct (lookup_alter_cases h n ns o) as [->|(e & He & ->)]; [done|].
  rewrite He. unfold option_value. by rewrite !h_props.
Qed.

Lemma visual_select_value n (ns : list element) sel :
  select_value (alter h n ns) sel = select_value ns sel.
Proof.
  unfold select_value.
  assert (Ho : options_of (alter h n ns) sel = options_of ns sel).
  { unfold options_of.
    destruct (lookup_alter_cases h n ns sel) as [->|(e & He & ->)].
    - destruct (ns !! sel); [|done]. apply List.filter_ext. intros o.
      apply visual_is_option.
    - rewrite He, h_children. apply List.filter_ext. intros o. apply visual_is_option. }
  rewrite Ho.
  rewrite (List.filter_ext _ (is_selected ns)) by (intros o; apply visual_is_selected).
  destruct (List.filter _ _); [done|]. apply visual_option_value_of.
Qed.

Lemma visual_wired n ns os ps pls nr tr rp this p target property :
  wired (World ns os ps pls nr tr rp) this p target property →
  wired (World (alter h n ns) os ps pls nr tr rp) this p target property.
Proof.
  intros (Hp & Ho & (ie & Hi & Htag & Hli & Hlc) & Hr). cbn [nodes] in Hi.
  split_and!; try done.
  - cbn [nodes]. destruct (lookup_alter_cases h n ns (input p)) as [Heq|(e & He & Heq)].
    + exists ie. by rewrite Heq.
    + exists (h e). split; [done|]. replace e with ie in * by congruence.
      unfold listeners_for in *. by rewrite h_tag, h_listeners.
  - intros Hc. destruct (Hr Hc) as (span & se & Hs & Hne & Hse & Hch). cbn [nodes] in Hse.
    cbn [nodes]. destruct (lookup_alter_cases h n ns span) as [Heq|(e & He & Heq)].
    + exists span, se. by rewrite Heq.
    + exists span, (h e). replace e with se in * by congruence.
      by rewrite h_children.
Qed.

Lemma visual_shows n ns os ps pls nr tr rp p v :
  shows (World ns os ps pls nr tr rp) p v →
  shows (World (alter h n ns) os ps pls nr tr rp) p v.
Proof.
  assert (Hpr : ∀ e key, key ≠ "open" → prop_of (h e) key = prop_of e key).
  { intros e key Hk. unfold prop_of. by rewrite h_props. }
  intros Hs. inversion Hs as [ie b Hc Hi Hp|ie s Hc Hi Hp|ie s Hc Hi Hp|j Hc Hj];
    subst; cbn [nodes next_ref] in *.
  - destruct (lookup_alter_cases h n ns (input p)) as [Heq|(e & He & Heq)].
    + apply (shows_Boolean _ _ ie); [done|cbn [nodes]; by rewrite Heq|done].
    + replace e with ie in * by congruence.
      apply (shows_Boolean _ _ (h ie)); [done|done|by rewrite Hpr].
  - destruct (lookup_alter_cases h n ns (input p)) as [Heq|(e & He & Heq)].
    + apply (shows_Number _ _ ie); [done|cbn [nodes]; by rewrite Heq|done].
    + replace e with ie in * by congruence.
      apply (shows_Number _ _ (h ie)); [done|done|by rewrite Hpr].
  - destruct (lookup_alter_cases h n ns (input p)) as [Heq|(e & He & Heq)].
    + apply (shows_Range _ _ ie); [done|cbn [nodes]; by rewrite Heq|done].
    + replace e with ie in * by congruence.
      apply (shows_Range _ _ (h ie)); [done|done|by rewrite Hpr].
  - apply (shows_Select (World (alter h n ns) os ps pls nr tr rp) p j Hc).
    cbn [nodes]. by rewrite visual_select_value.
Qed.

End Visual.

Lemma visual_open b tag :
  (∀ e, el_tag (with_prop "open" (convert tag "open" (VBool b)) e) = el_tag e) ∧
  (∀ e, el_children (with_prop "open" (convert tag "open" (VBool b)) e) = el_children e) ∧
  (∀ e, el_listeners (with_prop "open" (convert tag "open" (VBool b)) e) = el_listeners e) ∧
  (∀ e key, key ≠ "open" →
     el_props (with_prop "open" (convert tag "open" (VBool b)) e) !! key = el_props e !! key).
Proof.
  split_and!; try done. intros e key Hk. cbn. by rewrite lookup_insert_ne.
Qed.

(** X18 (gui.js:167-170): [show], [hide], [open] and [close] of a folder are
    visual only.  Each returns the folder, writes to no target and calls no
    hook or callback; every widget stays wired and shows the value it showed,
    so an [input] event on a widget, also one in a hidden or closed folder,
    still writes the value shown into the target. *)
Theorem folder_methods_visual w f x v m this p target property val :
  folder_state w f = Some (x, v) →
  m ∈ [Folder_show; Folder_hide; Folder_open; Folder_close] →
  wired w this p target property → shows w p val →
  ∃ w1 w2 o,
    m f w = (Ok f, w1) ∧ objects w1 = objects w ∧ trace w1 = trace w ∧
    params w1 = params w ∧ panels w1 = panels w ∧
    wired w1 this p target property ∧ shows w1 p val ∧
    dispatchEvent classes (input p) "input" w1 = (Ok tt, w2) ∧
    objects w !! target = Some o ∧
    objects w2 = <[target := <[property := val]> o]> (objects w).
Proof.
  intros (pf & d & e & Hp & Hd & He & Hf)%folder_state_inv Hm Hw Hs.
  destruct w as [ns os ps pls nr tr rp]. cbn [panels nodes] in Hp, He.
  assert (Hrun : ∃ h,
    m f (World ns os ps pls nr tr rp) = (Ok f, World (alter h d ns) os ps pls nr tr rp) ∧
    (∀ e, el_tag (h e) = el_tag e) ∧ (∀ e, el_children (h e) = el_children e) ∧
    (∀ e, el_listeners (h e) = el_listeners e) ∧
    (∀ e key, key ≠ "open" → el_props (h e) !! key = el_props e !! key)).
  { assert (Hst : ∀ s, ∃ h,
      (d <- get_details f ;; assign_style d [("display", s)] ;;; ret f)
        (World ns os ps pls nr tr rp) = (Ok f, World (alter h d ns) os ps pls nr tr rp) ∧
      (∀ e, el_tag (h e) = el_tag e) ∧ (∀ e, el_children (h e) = el_children e) ∧
      (∀ e, el_listeners (h e) = el_listeners e) ∧
      (∀ e key, key ≠ "open" → el_props (h e) !! key = el_props e !! key)).
    { intros s. exists (restyle [("display", s)]). split; [|done].
      erewrite bind_ok by (by eapply get_details_ok).
      by erewrite bind_ok by (by eapply assign_style_ok). }
    assert (Hop : ∀ b, ∃ h,
      (d <- get_details f ;; set_property d "open" (VBool b) ;;; ret f)
        (World ns os ps pls nr tr rp) = (Ok f, World (alter h d ns) os ps pls nr tr rp) ∧
      (∀ e, el_tag (h e) = el_tag e) ∧ (∀ e, el_children (h e) = el_children e) ∧
      (∀ e, el_listeners (h e) = el_listeners e) ∧
      (∀ e key, key ≠ "open" → el_props (h e) !! key = el_props e !! key)).
    { intros b. exists (with_prop "open" (convert (el_tag e) "open" (VBool b))).
      split; [|apply visual_open].
      erewrite bind_ok by (by eapply get_details_ok).
      by erewrite bind_ok by (eapply set_property_plain; [done|apply plain_open]). }
    rewrite !elem_of_cons in Hm. destruct Hm as [->|[->|[->|[->|Hm]]]].
    - apply (Hst EmptyString).
    - apply (Hst "none").
    - apply (Hop true).
    - apply (Hop false).
    - by apply elem_of_nil in Hm. }
  destruct Hrun as (h & Hrun & Ht & Hc & Hl & Hpr).
  assert (Hw1 : wired (World (alter h d ns) os ps pls nr tr rp) this p target property)
    by (by apply visual_wired).
  assert (Hs1 : shows (World (alter h d ns) os ps pls nr tr rp) p val)
    by (by apply visual_shows).
  destruct (input_event_ok _ _ _ _ _ _ Hw1 Hs1) as (w2 & o & Hev & Ho & Hos & _).
  exists (World (alter h d ns) os ps pls nr tr rp), w2, o.
  split_and!; try done.
Qed.

(** ** From an edit to the target *)



(** ** The further properties on the example document *)

Lemma example_body : container (nodes example_world) body.
Proof. eexists. split; [reflexivity|discriminate]. Qed.

Lemma example_head : container (nodes example_world) head.
Proof. eexists. split; [reflexivity|discriminate]. Qed.

Lemma select_first_by_default_witness :
  let options := VObject 0 [("A", num 1); ("B", VString "y")] in
  json_faithful (num 1) ∧
  ∃ this p w1 r,
    new_InputParam classes "Select" body 0 "mode" [options] example_world = (Ok this, w1) ∧
    params w1 !! this = Some p ∧ preselected w1 p 0 ∧
    (call_value classes this w1).1 = Ok r ∧ struct_eq r (num 1) = true ∧
    objects w1 = objects example_world.
Proof.
  intros options.
  assert (Hj : json_faithful (num 1)) by (eexists; split; by_running).
  split; [exact Hj|].
  apply (select_first_by_default example_world body 0 "mode" [options] example_target
           "A" (num 1) [("B", VString "y")] example_body eq_refl eq_refl).
  - repeat (constructor; [by_running|]). constructor.
  - exact Hj.
Defined.

Lemma select_pick_witness :
  let options := VObject 0 [("A", num 1); ("B", VString "y")] in
  let w1 := after (new_InputParam classes "Select" body 0 "mode" [options]) example_world in
  new_InputParam classes "Select" body 0 "mode" [options] example_world = (Ok 0, w1) ∧
  ∃ p se oid w2 w3 r o',
    params w1 !! 0 = Some p ∧
    nodes w1 !! input p = Some se ∧ el_children se !! 1 = Some oid ∧
    set_property oid "selected" (VBool true) w1 = (Ok tt, w2) ∧
    dispatchEvent classes (input p) "input" w2 = (Ok tt, w3) ∧
    preselected w3 p 1 ∧
    objects w3 !! 0 = Some o' ∧ o' !! "mode" = Some r ∧
    struct_eq r (VString "y") = true ∧ r = VString "y".
Proof.
  intros options w1.
  assert (Hrun : new_InputParam classes "Select" body 0 "mode" [options] example_world
                 = (Ok 0, w1)) by by_running.
  assert (Hj : json_faithful (VString "y")) by (eexists; split; by_running).
  split; [exact Hrun|].
  exact (select_pick example_world body 0 "mode" [options] example_target
           [("A", num 1); ("B", VString "y")] 1 "B" (VString "y") 0 w1
           example_body eq_refl eq_refl eq_refl Hj Hrun).
Defined.

Lemma construction_leaves_target_witness :
  let w1 := after (new_InputParam classes "Number" body 0 "size" []) example_world in
  bindable "Number" ∧
  new_InputParam classes "Number" body 0 "size" [] example_world = (Ok 0, w1) ∧
  objects w1 = objects example_world ∧
  ∃ evs, trace w1 = trace example_world ++ evs ∧ ∀ t k v, SetProperty t k v ∉ evs.
Proof.
  intros w1.
  assert (Hb : bindable "Number") by (by right; left).
  assert (Hrun : new_InputParam classes "Number" body 0 "size" [] example_world
                 = (Ok 0, w1)) by by_running.
  split; [exact Hb|]. split; [exact Hrun|].
  exact (construction_leaves_target example_world "Number" body 0 "size" []
           example_target (Ok 0) w1 Hb example_body example_head eq_refl Hrun).
Defined.

Lemma one_way_binding_witness :
  let w := after (set_property 5 "checked" (VBool false))
             (after (new_InputParam classes "Boolean" body 0 "on" [])
                (after (new_InputParam classes "Boolean" body 0 "on" []) example_world)) in
  let pa := Param "Boolean" 2 3 4 5 None None None in
  let pb := Param "Boolean" 6 7 8 9 None None None in
  wired w 0 pa 0 "on" ∧ wired w 1 pb 0 "on" ∧
  shows w pa (VBool false) ∧ shows w pb (VBool true) ∧
  ∃ w' o',
    dispatchEvent classes 5 "input" w = (Ok tt, w') ∧
    objects w' !! 0 = Some o' ∧ o' !! "on" = Some (VBool false) ∧
    shows w' pb (VBool true).
Proof.
  intros w pa pb.
  assert (Ha : wired w 0 pa 0 "on").
  { wired_by_running. intros H. discriminate H. }
  assert (Hb : wired w 1 pb 0 "on").
  { wired_by_running. intros H. discriminate H. }
  assert (Hsa : shows w pa (VBool false)).
  { eapply shows_Boolean; [reflexivity|by_running|by_running]. }
  assert (Hsb : shows w pb (VBool true)).
  { eapply shows_Boolean; [reflexivity|by_running|by_running]. }
  split; [exact Ha|]. split; [exact Hb|]. split; [exact Hsa|]. split; [exact Hsb|].
  assert (Hc : cls pb ≠ "Select") by discriminate.
  assert (Hv : ∀ span, valueSpan pa = Some span → span ≠ input pb).
  { intros span H. discriminate H. }
  destruct (one_way_binding w 0 pa 1 pb 0 "on" (VBool false) (VBool true)
              Ha Hb Hsa Hsb Hc Hv) as (w' & o' & H1 & H2 & H3 & _ & H5).
  exists w', o'. split; [exact H1|]. split; [exact H2|]. split; [exact H3|exact H5].
Defined.

Lemma callbacks_independent_witness :
  let w := after (new_InputParam classes "Boolean" body 0 "on" []) example_world in
  let p := Param "Boolean" 2 3 4 5 None None None in
  wired w 0 p 0 "on" ∧
  ∃ w1 w2 p2,
    InputParam_onInput 0 7 w = (Ok 0, w1) ∧
    InputParam_onChange 0 8 w1 = (Ok 0, w2) ∧
    (InputParam_onChange 0 8 ;;; InputParam_onInput 0 7) w = (Ok 0, w2) ∧
    params w2 !! 0 = Some p2 ∧ _onInput p2 = Some 7 ∧ _onChange p2 = Some 8.
Proof.
  intros w p.
  assert (Hw : wired w 0 p 0 "on").
  { wired_by_running. intros H. discriminate H. }
  split; [exact Hw|].
  destruct (callbacks_independent w 0 p 0 "on" 7 8 Hw)
    as (w1 & w2 & p2 & H1 & H2 & H3 & H4 & H5 & H6 & _).
  exists w1, w2, p2. split; [exact H1|]. split; [exact H2|]. split; [exact H3|].
  split; [exact H4|]. split; [exact H5|exact H6].
Defined.

Lemma readOnly_keeps_binding_witness :
  let w := after (new_InputParam classes "Boolean" body 0 "on" []) example_world in
  let p := Param "Boolean" 2 3 4 5 None None None in
  wired w 0 p 0 "on" ∧
  ∃ w1 ie,
    InputParam_readOnly 0 w = (Ok 0, w1) ∧
    nodes w1 !! 5 = Some ie ∧ prop_of ie "disabled" = VBool true ∧
    wired w1 0 p 0 "on".
Proof.
  intros w p.
  assert (Hw : wired w 0 p 0 "on").
  { wired_by_running. intros H. discriminate H. }
  split; [exact Hw|].
  destruct (readOnly_keeps_binding w 0 p 0 "on" Hw)
    as (w1 & ie & H1 & H2 & H3 & _ & _ & H6 & _).
  exists w1, ie. split; [exact H1|]. split; [exact H2|]. split; [exact H3|exact H6].
Defined.

Lemma legend_labels_witness :
  let w := after (new_InputParam classes "Boolean" body 0 "on" []) example_world in
  let p := Param "Boolean" 2 3 4 5 None None None in
  params w !! 0 = Some p ∧
  ∃ w1 le',
    Param_legend 0 (VString "Sound") w = (Ok 0, w1) ∧
    nodes w1 !! 3 = Some le' ∧
    prop_of le' "textContent" = VString "Sound" ∧
    objects w1 = objects w.
Proof.
  intros w p.
  assert (Hp : params w !! 0 = Some p) by by_running.
  assert (Hl : ∃ le, nodes w !! label p = Some le ∧ el_children le = []).
  { eexists. split; by_running. }
  destruct Hl as (le & Hl & Hc).
  split; [exact Hp|].
  destruct (legend_labels w 0 p le (VString "Sound") Hp Hl Hc)
    as (w1 & le' & H1 & H2 & H3 & _ & _ & H6 & _).
  exists w1, le'. split; [exact H1|]. split; [exact H2|]. split; [exact H3|exact H6].
Defined.
Lemma spawn_appends_witness :
  ∃ w', spawn "div" body None example_world = (Ok 2, w') ∧
        nodes w' !! 2 = Some (Element "div" (Some body) [] ∅ ∅ []) ∧
        nodes w' !! body = Some (add_child 2 (blank "body")) ∧
        objects w' = objects example_world.
Proof.
  destruct (spawn_appends example_world "div" body None) as [H _].
  assert (Hb : el_tag (blank "body") ≠ "select") by discriminate.
  destruct (H (blank "body") eq_refl Hb) as (w' & H1 & H2 & H3 & _ & _ & H6 & _).
  exists w'. split; [exact H1|]. split; [exact H2|]. split; [exact H3|exact H6].
Defined.

Lemma addFolder_structure_witness :
  let w := after new_GUI example_world in
  let pp := Panel 2 [] None None in
  panels w !! 0 = Some pp ∧
  ∃ w1 d,
    Panel_addFolder 0 "Settings" w = (Ok (length (panels w)), w1) ∧
    panels w1 !! 0 = Some (Panel 2 [length (panels w)] None None) ∧
    nodes w1 !! (length (nodes w) + 1) = Some d ∧ el_tag d = "details" ∧
    el_children d = [length (nodes w) + 2; length (nodes w)].
Proof.
  intros w pp.
  assert (Hp : panels w !! 0 = Some pp) by by_running.
  assert (He : nodes w !! _elt pp
               = Some (Element "div" (Some body) [] (style_of (Some GUI_style)) ∅ []))
    by by_running.
  assert (Ht : el_tag (Element "div" (Some body) [] (style_of (Some GUI_style)) ∅ [])
               ≠ "select") by discriminate.
  split; [exact Hp|].
  pose proof (addFolder_structure w 0 pp _ "Settings" Hp He Ht (Forall_nil_2 _)) as H.
  cbv zeta in H.
  destruct H as (w1 & pe' & d & s & e & H1 & H2 & _ & _ & _ & H6 & H7 & _ & H9 & _).
  exists w1, d. split; [exact H1|]. split; [exact H2|]. split; [exact H6|].
  split; [exact H7|exact H9].
Defined.

Lemma focus_blur_highlight_witness :
  let w := after (new_InputParam classes "Number" body 0 "level" []) example_world in
  let p := Param "Number" 2 3 4 5 None None None in
  params w !! 0 = Some p ∧
  dispatchEvent classes 5 "focus" w
  = (Ok tt, set_nodes (alter (restyle [("borderColor", "#ff6b6b");
                                       ("boxShadow", "0 0 10px rgba(255, 107, 107, 0.5)")])
                         5) w) ∧
  (dispatchEvent classes 5 "focus" ;;; dispatchEvent classes 5 "blur") w
  = dispatchEvent classes 5 "blur" w.
Proof.
  intros w p.
  assert (Hp : params w !! 0 = Some p) by by_running.
  assert (Hi : ∃ ie, nodes w !! input p = Some ie ∧
                     listeners_for "focus" ie = [FocusListener 0] ∧
                     listeners_for "blur" ie = [BlurListener 0]).
  { eexists. split; [by_running|]. split; by_running. }
  destruct Hi as (ie & Hi & Hf & Hb).
  split; [exact Hp|].
  pose proof (focus_blur_highlight w 0 p ie Hp Hi Hf Hb) as H. cbv zeta in H.
  destruct H as (H1 & _ & H3 & _).
  split; [exact H1|exact H3].
Defined.

Lemma readOnly_widget_witness :
  ∃ w1 ie,
    new_ReadOnly body (VString "ready") example_world
    = (Ok (length (params example_world)), w1) ∧
    nodes w1 !! (length (nodes example_world) + 3) = Some ie ∧
    el_tag ie = "label" ∧ prop_of ie "textContent" = VString "ready" ∧
    el_listeners ie = [] ∧
    objects w1 = objects example_world ∧ trace w1 = trace example_world.
Proof.
  pose proof (readOnly_widget example_world body (VString "ready") example_body) as H.
  cbv zeta in H.
  destruct H as (w1 & ie & H1 & _ & H3 & H4 & H5 & H6 & _).
  exists w1, ie. split; [exact H1|]. split; [exact H3|].
  rewrite H4. split; [reflexivity|]. split; [reflexivity|]. split; [reflexivity|].
  split; [exact H5|exact H6].
Defined.


Lemma panel_children_in_order_witness :
  let w := after new_GUI example_world in
  let pp := Panel 2 [] None None in
  panels w !! 0 = Some pp ∧
  ∃ r w1 pe1 child ce,
    run_call (AddSelect 0 0 "mode" VUndefined) w = (r, w1) ∧
    nodes w1 !! 2 = Some pe1 ∧
    el_children pe1 = [child] ∧
    length (nodes w) ≤ child ∧
    nodes w1 !! child = Some ce ∧ el_parent ce = Some 2.
Proof.
  intros w pp.
  assert (Hp : panels w !! 0 = Some pp) by by_running.
  assert (He : nodes w !! _elt pp
               = Some (Element "div" (Some body) [] (style_of (Some GUI_style)) ∅ []))
    by by_running.
  assert (Hne : _elt pp ≠ head) by discriminate.
  assert (Hh : container (nodes w) head).
  { exists (blank "head"). split; [by_running|discriminate]. }
  assert (Ho : is_Some (objects w !! 0)) by (exists example_target; by_running).
  split; [exact Hp|].
  exact (panel_children_in_order w 0 pp _ (AddSelect 0 0 "mode" VUndefined)
           Hp He eq_refl Hne Hh (Forall_nil_2 _) (conj eq_refl Ho)).
Defined.

Lemma failed_construction_leaves_row_witness :
  setup_hook (classes "InputParam") = None ∧
  ∃ w',
    new_InputParam classes "InputParam" body 0 "on" [] example_world
    = (Throw (not_implemented "setup()"), w') ∧
    length (nodes w') = 6 ∧
    objects w' = objects example_world.
Proof.
  split; [reflexivity|].
  pose proof (failed_construction_leaves_row classes "InputParam" body 0 "on" []
                example_world example_target example_body eq_refl eq_refl) as H.
  cbv zeta in H. destruct H as (w' & H1 & H2 & H3).
  exists w'. split; [exact H1|]. split; [|exact H3]. rewrite H2. reflexivity.
Defined.

Lemma new_GUI_panels_witness :
  ∃ w1 w2 be2,
    new_GUI example_world = (Ok 0, w1) ∧
    new_GUI w1 = (Ok 1, w2) ∧
    panels w2 = [Panel 2 [] None None; Panel 3 [] None None] ∧
    nodes w2 !! body = Some be2 ∧ el_children be2 = [2; 3].
Proof.
  assert (Hb : el_tag (blank "body") ≠ "select") by discriminate.
  pose proof (new_GUI_panels example_world (blank "body") eq_refl Hb) as H.
  cbv zeta in H.
  destruct H as (w1 & w2 & be2 & H1 & _ & _ & _ & _ & H6 & H7 & H8 & H9).
  exists w1, w2, be2. split; [exact H1|]. split; [exact H6|]. split; [exact H7|].
  split; [exact H8|exact H9].
Defined.

Lemma folder_methods_visual_witness :
  let w := after (new_InputParam classes "Boolean" 2 0 "on" [])
             (after (new_Folder "Settings" body) example_world) in
  let p := Param "Boolean" 5 6 7 8 None None None in
  folder_state w 0 = Some (true, true) ∧ wired w 0 p 0 "on" ∧ shows w p (VBool true) ∧
  ∃ w1 w2 o,
    Folder_hide 0 w = (Ok 0, w1) ∧ objects w1 = objects w ∧ trace w1 = trace w ∧
    folder_state w1 0 = Some (true, false) ∧
    wired w1 0 p 0 "on" ∧ shows w1 p (VBool true) ∧
    dispatchEvent classes 8 "input" w1 = (Ok tt, w2) ∧
    objects w !! 0 = Some o ∧
    objects w2 = <[0 := <["on" := VBool true]> o]> (objects w).
Proof.
  intros w p.
  assert (Hf : folder_state w 0 = Some (true, true)) by by_running.
  assert (Hw : wired w 0 p 0 "on").
  { wired_by_running. intros H. discriminate H. }
  assert (Hs : shows w p (VBool true)).
  { eapply shows_Boolean; [reflexivity|by_running|by_running]. }
  assert (Hm : Folder_hide ∈ [Folder_show; Folder_hide; Folder_open; Folder_close])
    by (right; left).
  split; [exact Hf|]. split; [exact Hw|]. split; [exact Hs|].
  destruct (folder_methods_visual w 0 true true Folder_hide 0 p 0 "on" (VBool true)
              Hf Hm Hw Hs) as (w1 & w2 & o & H1 & H2 & H3 & _ & _ & H6 & H7 & H8 & H9 & H10).
  assert (Hf1 : folder_state w1 0 = Some (true, false)).
  { destruct (Folder_show_hide "none" w 0 true true Hf) as (w1' & Hr & Hst).
    change (Folder_hide 0 w = (Ok 0, w1')) in Hr.
    rewrite H1 in Hr. injection Hr as <-. exact Hst. }
  exists w1, w2, o. split; [exact H1|]. split; [exact H2|]. split; [exact H3|].
  split; [exact Hf1|]. split; [exact H6|]. split; [exact H7|]. split; [exact H8|].
  split; [exact H9|exact H10].
Defined.

